(** * Verification of the SDL sound back end (code/sdl/sdl_snd.c)

    A shallow embedding of the DMA ring buffer, of the playback callback
    that drains it, of device initialisation and shutdown, and of the voice
    capture entry points, followed by the properties proved about them.

    Conventions of the embedding:
    - a C [int] is a [Z]; every arithmetic operation of the source is
      followed by [wrap], the reduction to the signed 32-bit range;
      C division and remainder are [Z.quot] and [Z.rem];
    - a pointer to an SDL audio stream is an [option nat]: [None] is NULL,
      [Some h] is a handle into the table of live streams of the SDL
      library; a pointer to a cvar is an [option string], the name of the
      cvar in the table of the configuration system;
    - memory accessed through a raw pointer ([dma.buffer], the buffer of
      the caller of the capture routine) is a [list byte]; an access
      outside the allocation is a fault;
    - every function of the source is a computation in the monad [M] over
      the whole [machine]: the file-scope variables, [dma], and the state
      of the collaborators (SDL, cvars, console); [None] is a fault
      (undefined behaviour of the C program). *)

From Stdlib Require Import ZArith QArith List Lia.
From Stdlib.Strings Require Import Byte.
From stdpp Require Import base option list gmap strings.
From Equations Require Import Equations.
Import ListNotations.

#[local] Open Scope Z_scope.

(** ** Machine integers *)

Module Int32.

Definition INT_MIN : Z := - 2 ^ 31.
Definition INT_MAX : Z := 2 ^ 31 - 1.

(** Reduction of an integer to the range of a two's complement [int]. *)
Definition wrap (z : Z) : Z := (z + 2 ^ 31) mod 2 ^ 32 - 2 ^ 31.

Definition in_range (z : Z) : Prop := INT_MIN <= z <= INT_MAX.

Definition add (a b : Z) : Z := wrap (a + b).
Definition sub (a b : Z) : Z := wrap (a - b).
Definition mul (a b : Z) : Z := wrap (a * b).
(** [a / b] and [a % b] of C; the caller checks [b <> 0]. *)
Definition div (a b : Z) : Z := wrap (a ÷ b).
Definition rem (a b : Z) : Z := Z.rem a b.

Lemma wrap_small z : in_range z -> wrap z = z.
Proof.
  unfold in_range, INT_MIN, INT_MAX, wrap. intros H.
  rewrite Z.mod_small by lia. lia.
Qed.

Lemma wrap_in_range z : in_range (wrap z).
Proof.
  unfold in_range, INT_MIN, INT_MAX, wrap.
  pose proof (Z.mod_pos_bound (z + 2 ^ 31) (2 ^ 32) ltac:(lia)). lia.
Qed.

Lemma wrap_le z : 0 <= z -> wrap z <= z.
Proof.
  unfold wrap. intros H.
  pose proof (Z.mod_le (z + 2 ^ 31) (2 ^ 32) ltac:(lia) ltac:(lia)). lia.
Qed.

End Int32.

(** ** Memory *)

Definition zero_byte : byte := x00.

(** [n] bytes read at offset [pos] of an allocation. *)
Definition read_bytes (mem : list byte) (pos n : Z) : option (list byte) :=
  if (0 <=? pos) && (0 <=? n) && (pos + n <=? Z.of_nat (length mem))
  then Some (take (Z.to_nat n) (drop (Z.to_nat pos) mem))
  else None.

(** [src] written at offset [pos] of an allocation. *)
Definition write_bytes (mem : list byte) (pos : Z) (src : list byte)
  : option (list byte) :=
  if (0 <=? pos) && (pos + Z.of_nat (length src) <=? Z.of_nat (length mem))
  then Some (take (Z.to_nat pos) mem ++ src
             ++ drop (Z.to_nat pos + length src) mem)
  else None.

(** [SDL_memset(mem + pos, 0, n)]; the length is a [size_t], so a negative
    [int] is a length no allocation has. *)
Definition memset_zero (mem : list byte) (pos n : Z) : option (list byte) :=
  if 0 <=? n then write_bytes mem pos (replicate (Z.to_nat n) zero_byte)
  else None.

(** ** Collaborators: SDL, cvars, console *)

(** The part of an SDL audio stream the code depends on: the bytes queued
    in it, its gain, whether its device is paused, and how many times it is
    locked. *)
Record SDL_AudioStream := {
  queued : list byte;
  gain : Q;
  paused : bool;
  locks : nat
}.

Definition set_queued (q : list byte) (s : SDL_AudioStream) : SDL_AudioStream :=
  {| queued := q; gain := gain s; paused := paused s; locks := locks s |}.
Definition set_gain (v : Q) (s : SDL_AudioStream) : SDL_AudioStream :=
  {| queued := queued s; gain := v; paused := paused s; locks := locks s |}.
Definition set_paused (v : bool) (s : SDL_AudioStream) : SDL_AudioStream :=
  {| queued := queued s; gain := gain s; paused := v; locks := locks s |}.
Definition set_locks (v : nat) (s : SDL_AudioStream) : SDL_AudioStream :=
  {| queued := queued s; gain := gain s; paused := paused s; locks := v |}.

Record SDL_AudioSpec := {
  format : Z;
  spec_channels : Z;
  freq : Z
}.

(** A cvar as the code reads it: [value] is the float, [integer] the int. *)
Record cvar_t := {
  value : Q;
  integer : Z
}.

(** Conversion of a float to [int]: truncation toward zero. *)
Definition int_of_float (q : Q) : Z := Z.quot (Qnum q) (Zpos (Qden q)).

Inductive printf_arg :=
| ArgStr (s : string)
| ArgInt (z : Z).

(** A line handed to the console: the format and its arguments. *)
Inductive con_msg :=
| Com_Printf (fmt : string) (args : list printf_arg)
| Com_DPrintf (fmt : string) (args : list printf_arg).

(** [dma_t] of client/snd_local.h. *)
Record dma_t := {
  channels : Z;
  samples : Z;
  fullsamples : Z;
  submission_chunk : Z;
  samplebits : Z;
  isfloat : Z;
  speed : Z;
  buffer : option (list byte)
}.

Definition set_buffer (b : option (list byte)) (d : dma_t) : dma_t :=
  {| channels := channels d; samples := samples d;
     fullsamples := fullsamples d; submission_chunk := submission_chunk d;
     samplebits := samplebits d; isfloat := isfloat d; speed := speed d;
     buffer := b |}.

(** ** The machine *)

Record machine := {
  (* file-scope variables of sdl_snd.c *)
  snd_inited : bool;
  s_sdlBits : option string;
  s_sdlSpeed : option string;
  s_sdlChannels : option string;
  s_sdlDevSamps : option string;
  s_sdlMixSamps : option string;
  dmapos : Z;
  dmasize : Z;
  sdlPlaybackStream : option nat;
  sdlPlaybackDevice : Z;
  sdlCaptureStream : option nat;
  sdlCaptureDevice : Z;
  s_sdlCapture : option string;
  sdlMasterGain : Q;
  (* the mixer's view of the device *)
  dma : dma_t;
  (* SDL: reference count of the audio subsystem, live streams *)
  audio_refs : nat;
  streams : gmap nat SDL_AudioStream;
  (* configuration system and console *)
  cvars : gmap string cvar_t;
  console : list con_msg
}.

Definition set_snd_inited (v : bool) (m : machine) : machine :=
  {| snd_inited := v; s_sdlBits := s_sdlBits m; s_sdlSpeed := s_sdlSpeed m;
     s_sdlChannels := s_sdlChannels m; s_sdlDevSamps := s_sdlDevSamps m;
     s_sdlMixSamps := s_sdlMixSamps m; dmapos := dmapos m;
     dmasize := dmasize m; sdlPlaybackStream := sdlPlaybackStream m;
     sdlPlaybackDevice := sdlPlaybackDevice m;
     sdlCaptureStream := sdlCaptureStream m;
     sdlCaptureDevice := sdlCaptureDevice m; s_sdlCapture := s_sdlCapture m;
     sdlMasterGain := sdlMasterGain m; dma := dma m;
     audio_refs := audio_refs m; streams := streams m; cvars := cvars m;
     console := console m |}.

Definition set_s_sdlBits (v : option string) (m : machine) : machine :=
  {| snd_inited := snd_inited m; s_sdlBits := v; s_sdlSpeed := s_sdlSpeed m;
     s_sdlChannels := s_sdlChannels m; s_sdlDevSamps := s_sdlDevSamps m;
     s_sdlMixSamps := s_sdlMixSamps m; dmapos := dmapos m;
     dmasize := dmasize m; sdlPlaybackStream := sdlPlaybackStream m;
     sdlPlaybackDevice := sdlPlaybackDevice m;
     sdlCaptureStream := sdlCaptureStream m;
     sdlCaptureDevice := sdlCaptureDevice m; s_sdlCapture := s_sdlCapture m;
     sdlMasterGain := sdlMasterGain m; dma := dma m;
     audio_refs := audio_refs m; streams := streams m; cvars := cvars m;
     console := console m |}.

Definition set_s_sdlSpeed (v : option string) (m : machine) : machine :=
  {| snd_inited := snd_inited m; s_sdlBits := s_sdlBits m; s_sdlSpeed := v;
     s_sdlChannels := s_sdlChannels m; s_sdlDevSamps := s_sdlDevSamps m;
     s_sdlMixSamps := s_sdlMixSamps m; dmapos := dmapos m;
     dmasize := dmasize m; sdlPlaybackStream := sdlPlaybackStream m;
     sdlPlaybackDevice := sdlPlaybackDevice m;
     sdlCaptureStream := sdlCaptureStream m;
     sdlCaptureDevice := sdlCaptureDevice m; s_sdlCapture := s_sdlCapture m;
     sdlMasterGain := sdlMasterGain m; dma := dma m;
     audio_refs := audio_refs m; streams := streams m; cvars := cvars m;
     console := console m |}.

Definition set_s_sdlChannels (v : option string) (m : machine) : machine :=
  {| snd_inited := snd_inited m; s_sdlBits := s_sdlBits m;
     s_sdlSpeed := s_sdlSpeed m; s_sdlChannels := v;
     s_sdlDevSamps := s_sdlDevSamps m; s_sdlMixSamps := s_sdlMixSamps m;
     dmapos := dmapos m; dmasize := dmasize m;
     sdlPlaybackStream := sdlPlaybackStream m;
     sdlPlaybackDevice := sdlPlaybackDevice m;
     sdlCaptureStream := sdlCaptureStream m;
     sdlCaptureDevice := sdlCaptureDevice m; s_sdlCapture := s_sdlCapture m;
     sdlMasterGain := sdlMasterGain m; dma := dma m;
     audio_refs := audio_refs m; streams := streams m; cvars := cvars m;
     console := console m |}.

Definition set_s_sdlDevSamps (v : option string) (m : machine) : machine :=
  {| snd_inited := snd_inited m; s_sdlBits := s_sdlBits m;
     s_sdlSpeed := s_sdlSpeed m; s_sdlChannels := s_sdlChannels m;
     s_sdlDevSamps := v; s_sdlMixSamps := s_sdlMixSamps m;
     dmapos := dmapos m; dmasize := dmasize m;
     sdlPlaybackStream := sdlPlaybackStream m;
     sdlPlaybackDevice := sdlPlaybackDevice m;
     sdlCaptureStream := sdlCaptureStream m;
     sdlCaptureDevice := sdlCaptureDevice m; s_sdlCapture := s_sdlCapture m;
     sdlMasterGain := sdlMasterGain m; dma := dma m;
     audio_refs := audio_refs m; streams := streams m; cvars := cvars m;
     console := console m |}.

Definition set_s_sdlMixSamps (v : option string) (m : machine) : machine :=
  {| snd_inited := snd_inited m; s_sdlBits := s_sdlBits m;
     s_sdlSpeed := s_sdlSpeed m; s_sdlChannels := s_sdlChannels m;
     s_sdlDevSamps := s_sdlDevSamps m; s_sdlMixSamps := v;
     dmapos := dmapos m; dmasize := dmasize m;
     sdlPlaybackStream := sdlPlaybackStream m;
     sdlPlaybackDevice := sdlPlaybackDevice m;
     sdlCaptureStream := sdlCaptureStream m;
     sdlCaptureDevice := sdlCaptureDevice m; s_sdlCapture := s_sdlCapture m;
     sdlMasterGain := sdlMasterGain m; dma := dma m;
     audio_refs := audio_refs m; streams := streams m; cvars := cvars m;
     console := console m |}.

Definition set_dmapos (v : Z) (m : machine) : machine :=
  {| snd_inited := snd_inited m; s_sdlBits := s_sdlBits m;
     s_sdlSpeed := s_sdlSpeed m; s_sdlChannels := s_sdlChannels m;
     s_sdlDevSamps := s_sdlDevSamps m; s_sdlMixSamps := s_sdlMixSamps m;
     dmapos := v; dmasize := dmasize m;
     sdlPlaybackStream := sdlPlaybackStream m;
     sdlPlaybackDevice := sdlPlaybackDevice m;
     sdlCaptureStream := sdlCaptureStream m;
     sdlCaptureDevice := sdlCaptureDevice m; s_sdlCapture := s_sdlCapture m;
     sdlMasterGain := sdlMasterGain m; dma := dma m;
     audio_refs := audio_refs m; streams := streams m; cvars := cvars m;
     console := console m |}.

Definition set_dmasize (v : Z) (m : machine) : machine :=
  {| snd_inited := snd_inited m; s_sdlBits := s_sdlBits m;
     s_sdlSpeed := s_sdlSpeed m; s_sdlChannels := s_sdlChannels m;
     s_sdlDevSamps := s_sdlDevSamps m; s_sdlMixSamps := s_sdlMixSamps m;
     dmapos := dmapos m; dmasize := v;
     sdlPlaybackStream := sdlPlaybackStream m;
     sdlPlaybackDevice := sdlPlaybackDevice m;
     sdlCaptureStream := sdlCaptureStream m;
     sdlCaptureDevice := sdlCaptureDevice m; s_sdlCapture := s_sdlCapture m;
     sdlMasterGain := sdlMasterGain m; dma := dma m;
     audio_refs := audio_refs m; streams := streams m; cvars := cvars m;
     console := console m |}.

Definition set_sdlPlaybackStream (v : option nat) (m : machine) : machine :=
  {| snd_inited := snd_inited m; s_sdlBits := s_sdlBits m;
     s_sdlSpeed := s_sdlSpeed m; s_sdlChannels := s_sdlChannels m;
     s_sdlDevSamps := s_sdlDevSamps m; s_sdlMixSamps := s_sdlMixSamps m;
     dmapos := dmapos m; dmasize := dmasize m; sdlPlaybackStream := v;
     sdlPlaybackDevice := sdlPlaybackDevice m;
     sdlCaptureStream := sdlCaptureStream m;
     sdlCaptureDevice := sdlCaptureDevice m; s_sdlCapture := s_sdlCapture m;
     sdlMasterGain := sdlMasterGain m; dma := dma m;
     audio_refs := audio_refs m; streams := streams m; cvars := cvars m;
     console := console m |}.

Definition set_sdlPlaybackDevice (v : Z) (m : machine) : machine :=
  {| snd_inited := snd_inited m; s_sdlBits := s_sdlBits m;
     s_sdlSpeed := s_sdlSpeed m; s_sdlChannels := s_sdlChannels m;
     s_sdlDevSamps := s_sdlDevSamps m; s_sdlMixSamps := s_sdlMixSamps m;
     dmapos := dmapos m; dmasize := dmasize m;
     sdlPlaybackStream := sdlPlaybackStream m; sdlPlaybackDevice := v;
     sdlCaptureStream := sdlCaptureStream m;
     sdlCaptureDevice := sdlCaptureDevice m; s_sdlCapture := s_sdlCapture m;
     sdlMasterGain := sdlMasterGain m; dma := dma m;
     audio_refs := audio_refs m; streams := streams m; cvars := cvars m;
     console := console m |}.

Definition set_sdlCaptureStream (v : option nat) (m : machine) : machine :=
  {| snd_inited := snd_inited m; s_sdlBits := s_sdlBits m;
     s_sdlSpeed := s_sdlSpeed m; s_sdlChannels := s_sdlChannels m;
     s_sdlDevSamps := s_sdlDevSamps m; s_sdlMixSamps := s_sdlMixSamps m;
     dmapos := dmapos m; dmasize := dmasize m;
     sdlPlaybackStream := sdlPlaybackStream m;
     sdlPlaybackDevice := sdlPlaybackDevice m; sdlCaptureStream := v;
     sdlCaptureDevice := sdlCaptureDevice m; s_sdlCapture := s_sdlCapture m;
     sdlMasterGain := sdlMasterGain m; dma := dma m;
     audio_refs := audio_refs m; streams := streams m; cvars := cvars m;
     console := console m |}.

Definition set_sdlCaptureDevice (v : Z) (m : machine) : machine :=
  {| snd_inited := snd_inited m; s_sdlBits := s_sdlBits m;
     s_sdlSpeed := s_sdlSpeed m; s_sdlChannels := s_sdlChannels m;
     s_sdlDevSamps := s_sdlDevSamps m; s_sdlMixSamps := s_sdlMixSamps m;
     dmapos := dmapos m; dmasize := dmasize m;
     sdlPlaybackStream := sdlPlaybackStream m;
     sdlPlaybackDevice := sdlPlaybackDevice m;
     sdlCaptureStream := sdlCaptureStream m; sdlCaptureDevice := v;
     s_sdlCapture := s_sdlCapture m; sdlMasterGain := sdlMasterGain m;
     dma := dma m; audio_refs := audio_refs m; streams := streams m;
     cvars := cvars m; console := console m |}.

Definition set_s_sdlCapture (v : option string) (m : machine) : machine :=
  {| snd_inited := snd_inited m; s_sdlBits := s_sdlBits m;
     s_sdlSpeed := s_sdlSpeed m; s_sdlChannels := s_sdlChannels m;
     s_sdlDevSamps := s_sdlDevSamps m; s_sdlMixSamps := s_sdlMixSamps m;
     dmapos := dmapos m; dmasize := dmasize m;
     sdlPlaybackStream := sdlPlaybackStream m;
     sdlPlaybackDevice := sdlPlaybackDevice m;
     sdlCaptureStream := sdlCaptureStream m;
     sdlCaptureDevice := sdlCaptureDevice m; s_sdlCapture := v;
     sdlMasterGain := sdlMasterGain m; dma := dma m;
     audio_refs := audio_refs m; streams := streams m; cvars := cvars m;
     console := console m |}.

Definition set_sdlMasterGain (v : Q) (m : machine) : machine :=
  {| snd_inited := snd_inited m; s_sdlBits := s_sdlBits m;
     s_sdlSpeed := s_sdlSpeed m; s_sdlChannels := s_sdlChannels m;
     s_sdlDevSamps := s_sdlDevSamps m; s_sdlMixSamps := s_sdlMixSamps m;
     dmapos := dmapos m; dmasize := dmasize m;
     sdlPlaybackStream := sdlPlaybackStream m;
     sdlPlaybackDevice := sdlPlaybackDevice m;
     sdlCaptureStream := sdlCaptureStream m;
     sdlCaptureDevice := sdlCaptureDevice m; s_sdlCapture := s_sdlCapture m;
     sdlMasterGain := v; dma := dma m; audio_refs := audio_refs m;
     streams := streams m; cvars := cvars m; console := console m |}.

Definition set_dma (v : dma_t) (m : machine) : machine :=
  {| snd_inited := snd_inited m; s_sdlBits := s_sdlBits m;
     s_sdlSpeed := s_sdlSpeed m; s_sdlChannels := s_sdlChannels m;
     s_sdlDevSamps := s_sdlDevSamps m; s_sdlMixSamps := s_sdlMixSamps m;
     dmapos := dmapos m; dmasize := dmasize m;
     sdlPlaybackStream := sdlPlaybackStream m;
     sdlPlaybackDevice := sdlPlaybackDevice m;
     sdlCaptureStream := sdlCaptureStream m;
     sdlCaptureDevice := sdlCaptureDevice m; s_sdlCapture := s_sdlCapture m;
     sdlMasterGain := sdlMasterGain m; dma := v; audio_refs := audio_refs m;
     streams := streams m; cvars := cvars m; console := console m |}.

Definition set_audio_refs (v : nat) (m : machine) : machine :=
  {| snd_inited := snd_inited m; s_sdlBits := s_sdlBits m;
     s_sdlSpeed := s_sdlSpeed m; s_sdlChannels := s_sdlChannels m;
     s_sdlDevSamps := s_sdlDevSamps m; s_sdlMixSamps := s_sdlMixSamps m;
     dmapos := dmapos m; dmasize := dmasize m;
     sdlPlaybackStream := sdlPlaybackStream m;
     sdlPlaybackDevice := sdlPlaybackDevice m;
     sdlCaptureStream := sdlCaptureStream m;
     sdlCaptureDevice := sdlCaptureDevice m; s_sdlCapture := s_sdlCapture m;
     sdlMasterGain := sdlMasterGain m; dma := dma m; audio_refs := v;
     streams := streams m; cvars := cvars m; console := console m |}.

Definition set_streams (v : gmap nat SDL_AudioStream) (m : machine) : machine :=
  {| snd_inited := snd_inited m; s_sdlBits := s_sdlBits m;
     s_sdlSpeed := s_sdlSpeed m; s_sdlChannels := s_sdlChannels m;
     s_sdlDevSamps := s_sdlDevSamps m; s_sdlMixSamps := s_sdlMixSamps m;
     dmapos := dmapos m; dmasize := dmasize m;
     sdlPlaybackStream := sdlPlaybackStream m;
     sdlPlaybackDevice := sdlPlaybackDevice m;
     sdlCaptureStream := sdlCaptureStream m;
     sdlCaptureDevice := sdlCaptureDevice m; s_sdlCapture := s_sdlCapture m;
     sdlMasterGain := sdlMasterGain m; dma := dma m;
     audio_refs := audio_refs m; streams := v; cvars := cvars m;
     console := console m |}.

Definition set_cvars (v : gmap string cvar_t) (m : machine) : machine :=
  {| snd_inited := snd_inited m; s_sdlBits := s_sdlBits m;
     s_sdlSpeed := s_sdlSpeed m; s_sdlChannels := s_sdlChannels m;
     s_sdlDevSamps := s_sdlDevSamps m; s_sdlMixSamps := s_sdlMixSamps m;
     dmapos := dmapos m; dmasize := dmasize m;
     sdlPlaybackStream := sdlPlaybackStream m;
     sdlPlaybackDevice := sdlPlaybackDevice m;
     sdlCaptureStream := sdlCaptureStream m;
     sdlCaptureDevice := sdlCaptureDevice m; s_sdlCapture := s_sdlCapture m;
     sdlMasterGain := sdlMasterGain m; dma := dma m;
     audio_refs := audio_refs m; streams := streams m; cvars := v;
     console := console m |}.

Definition set_console (v : list con_msg) (m : machine) : machine :=
  {| snd_inited := snd_inited m; s_sdlBits := s_sdlBits m;
     s_sdlSpeed := s_sdlSpeed m; s_sdlChannels := s_sdlChannels m;
     s_sdlDevSamps := s_sdlDevSamps m; s_sdlMixSamps := s_sdlMixSamps m;
     dmapos := dmapos m; dmasize := dmasize m;
     sdlPlaybackStream := sdlPlaybackStream m;
     sdlPlaybackDevice := sdlPlaybackDevice m;
     sdlCaptureStream := sdlCaptureStream m;
     sdlCaptureDevice := sdlCaptureDevice m; s_sdlCapture := s_sdlCapture m;
     sdlMasterGain := sdlMasterGain m; dma := dma m;
     audio_refs := audio_refs m; streams := streams m; cvars := cvars m;
     console := v |}.


(** ** The monad of the embedding *)

Definition M (A : Type) : Type := machine -> option (A * machine).

Definition ret {A} (a : A) : M A := fun m => Some (a, m).
Definition bind {A B} (c : M A) (k : A -> M B) : M B :=
  fun m => match c m with
           | Some (a, m') => k a m'
           | None => None
           end.
Definition fault {A} : M A := fun _ => None.
Definition get : M machine := fun m => Some (m, m).
Definition modify (f : machine -> machine) : M unit := fun m => Some (tt, f m).
Definition when (b : bool) (c : M unit) : M unit := if b then c else ret tt.

Notation "x <- c1 ;; c2" := (bind c1 (fun x => c2))
  (at level 100, c1 at next level, right associativity).
Notation "c1 ;;; c2" := (bind c1 (fun _ => c2))
  (at level 100, right associativity).

Definition print (fmt : string) (args : list printf_arg) : M unit :=
  modify (fun m => set_console (console m ++ [Com_Printf fmt args]) m).
Definition dprint (fmt : string) (args : list printf_arg) : M unit :=
  modify (fun m => set_console (console m ++ [Com_DPrintf fmt args]) m).

(** ** The SDL calls of the file

    The SDL library is not part of the repository; each call is modelled by
    its documented effect on the stream table. *)

Definition update_stream (h : nat) (f : SDL_AudioStream -> SDL_AudioStream)
  : M bool :=
  fun m => match streams m !! h with
           | Some s => Some (true, set_streams (<[h := f s]> (streams m)) m)
           | None => Some (false, m)
           end.

(** Appends [data] to the stream; the source ignores the result, and the
    call is taken to succeed on a live stream. *)
Definition SDL_PutAudioStreamData (stream : nat) (data : list byte) : M bool :=
  update_stream stream (fun s => set_queued (queued s ++ data) s).

(** Bytes ready to be read, -1 when the call fails. *)
Definition SDL_GetAudioStreamAvailable (stream : nat) : M Z :=
  fun m => match streams m !! stream with
           | Some s => Some (Z.min (Z.of_nat (length (queued s))) Int32.INT_MAX, m)
           | None => Some (-1, m)
           end.

(** Moves at most [len] queued bytes to the front of [data]; the result is
    the number of bytes moved, -1 when the call fails, and the new contents
    of [data]. *)
Definition SDL_GetAudioStreamData (stream : nat) (data : list byte) (len : Z)
  : M (Z * list byte) :=
  fun m => match streams m !! stream with
           | Some s =>
               if len <? 0 then Some ((-1, data), m)
               else
                 let out := take (Z.to_nat len) (queued s) in
                 match write_bytes data 0 out with
                 | Some data' =>
                     Some ((Z.of_nat (length out), data'),
                           set_streams
                             (<[stream := set_queued
                                            (drop (Z.to_nat len) (queued s)) s]>
                                (streams m)) m)
                 | None => None
                 end
           | None => Some ((-1, data), m)
           end.

Definition SDL_ClearAudioStream (stream : nat) : M bool :=
  update_stream stream (set_queued []).
Definition SDL_SetAudioStreamGain (stream : nat) (v : Q) : M bool :=
  update_stream stream (set_gain v).
Definition SDL_PauseAudioStreamDevice (stream : nat) : M bool :=
  update_stream stream (set_paused true).
Definition SDL_ResumeAudioStreamDevice (stream : nat) : M bool :=
  update_stream stream (set_paused false).
Definition SDL_LockAudioStream (stream : nat) : M bool :=
  update_stream stream (fun s => set_locks (S (locks s)) s).
Definition SDL_UnlockAudioStream (stream : nat) : M bool :=
  update_stream stream (fun s => set_locks (Nat.pred (locks s)) s).

Definition SDL_DestroyAudioStream (stream : nat) : M unit :=
  modify (fun m => set_streams (delete stream (streams m)) m).

(** [SDL_QuitSubSystem(SDL_INIT_AUDIO)]: the subsystem is reference
    counted. *)
Definition SDL_QuitSubSystem : M unit :=
  modify (fun m => set_audio_refs (Nat.pred (audio_refs m)) m).

(** ** SNDDMA_QueueSilence *)

(** [static Uint8 silence[4096]], never written. *)
Definition sizeof_silence : Z := 4096.
Definition silence : list byte := replicate (Z.to_nat sizeof_silence) zero_byte.

Equations? SNDDMA_QueueSilence (stream : nat) (len : Z) (m : machine)
  : option (unit * machine) by wf (Z.to_nat len) lt :=
  SNDDMA_QueueSilence stream len m with Z_gt_dec len 0 := {
    | left _ =>
        let chunk := if len >? sizeof_silence then sizeof_silence else len in
        match SDL_PutAudioStreamData stream (take (Z.to_nat chunk) silence) m with
        | Some (_, m') => SNDDMA_QueueSilence stream (Int32.sub len chunk) m'
        | None => None
        end
    | right _ => Some (tt, m) }.
Proof.
  subst chunk. unfold Int32.sub, sizeof_silence.
  destruct (len >? 4096) eqn:E.
  - apply Z.gtb_lt in E.
    pose proof (Int32.wrap_le (len - 4096) ltac:(lia)). lia.
  - replace (len - len) with 0 by lia. rewrite Int32.wrap_small; [lia |].
    unfold Int32.in_range, Int32.INT_MIN, Int32.INT_MAX. lia.
Qed.

(** ** SNDDMA_AudioCallback *)

(** Outcome of one turn of the copy loop. *)
Inductive loop_step :=
| Break (m : machine)
| Next (len : Z) (m : machine)
| Fault.

(** The body of [while (len > 0)]. *)
Definition audio_loop_body (stream : nat) (bytesPerSample len : Z) (m : machine)
  : loop_step :=
  let pos := Int32.mul (dmapos m) bytesPerSample in
  let '(pos, m) :=
    if pos >=? dmasize m then (0, set_dmapos 0 m) else (pos, m) in
  let len1 := Int32.sub (dmasize m) pos in
  let len1 := if len1 >? len then len else len1 in
  if len1 <=? 0 then Break m
  else
    match buffer (dma m) with
    | None => Fault
    | Some mem =>
        match read_bytes mem pos len1 with
        | None => Fault
        | Some chunk =>
            match SDL_PutAudioStreamData stream chunk m with
            | Some (_, m) =>
                Next (Int32.sub len len1)
                  (set_dmapos
                     (Int32.add (dmapos m) (Int32.div len1 bytesPerSample)) m)
            | None => Fault
            end
        end
    end.

Lemma audio_loop_body_decreases stream bps len m len' m' :
  audio_loop_body stream bps len m = Next len' m' ->
  (Z.to_nat len' < Z.to_nat len)%nat.
Proof.
  unfold audio_loop_body.
  destruct (Int32.mul (dmapos m) bps >=? dmasize m);
    cbv zeta; cbv beta iota;
    match goal with
    | |- context [if (if ?l1 >? len then len else ?l1) <=? 0 then _ else _] =>
        set (len1 := if l1 >? len then len else l1);
        assert (Hle : len1 <= len)
          by (subst len1; destruct (l1 >? len) eqn:E; lia);
        destruct (len1 <=? 0) eqn:Hpos; [discriminate |]
    end;
    apply Z.leb_gt in Hpos;
    repeat match goal with
      | |- match ?x with _ => _ end = _ -> _ => destruct x; try discriminate
      end;
    intros [= <- _]; unfold Int32.sub;
    pose proof (Int32.wrap_le (len - len1) ltac:(lia)); lia.
Qed.

Definition inspect {A} (a : A) : {b : A | a = b} := exist _ a eq_refl.

(** The loop: the remaining length and the machine when it exits. *)
Equations? audio_loop (stream : nat) (bytesPerSample len : Z) (m : machine)
  : option (Z * machine) by wf (Z.to_nat len) lt :=
  audio_loop stream bytesPerSample len m with Z_gt_dec len 0 := {
    | right _ => Some (len, m)
    | left _ with inspect (audio_loop_body stream bytesPerSample len m) := {
        | exist _ (Break m') _ => Some (len, m')
        | exist _ (Next len' m') Hstep =>
            audio_loop stream bytesPerSample len' m'
        | exist _ Fault _ => None } }.
Proof. eapply audio_loop_body_decreases, Hstep. Qed.

(** The callback handed to [SDL_OpenAudioDeviceStream]; [userdata] is
    ignored by the source and left out. *)
Definition SNDDMA_AudioCallback (stream : nat)
    (additional_amount total_amount : Z) : M unit :=
  fun m =>
    let len :=
      if additional_amount >? 0 then additional_amount else total_amount in
    let bytesPerSample := Int32.div (samplebits (dma m)) 8 in
    if len <=? 0 then Some (tt, m)
    else if negb (snd_inited m) || negb (bool_decide (is_Some (buffer (dma m))))
            || (dmasize m <=? 0) || (bytesPerSample <=? 0)
    then SNDDMA_QueueSilence stream len m
    else
      match audio_loop stream bytesPerSample len m with
      | None => None
      | Some (len, m) =>
          match (if len >? 0 then SNDDMA_QueueSilence stream len m
                 else Some (tt, m)) with
          | None => None
          | Some (_, m) =>
              if Int32.mul (dmapos m) bytesPerSample >=? dmasize m
              then Some (tt, set_dmapos 0 m)
              else Some (tt, m)
          end
      end.

(** ** Device negotiation: what the platform answers *)

(** How SDL and the allocator answer during one call of [SNDDMA_Init]. *)
Record init_env := {
  env_SDL_Init : bool;              (* SDL_Init( SDL_INIT_AUDIO ) *)
  env_error : string;               (* SDL_GetError() *)
  env_version : Z;                  (* SDL_GetVersion() *)
  env_driver : string;              (* SDL_GetCurrentAudioDriver() *)
  env_open_playback : bool;         (* the playback stream can be opened *)
  env_playback_device : Z;          (* SDL_GetAudioStreamDevice, 0 on failure *)
  env_device_format : option (SDL_AudioSpec * Z);
                                    (* SDL_GetAudioDeviceFormat: the format
                                       and the frames of the device buffer *)
  env_calloc : bool;                (* the allocator can serve the request *)
  env_mumble : option Z;            (* USE_MUMBLE builds: cl_useMumble->integer *)
  env_open_capture : bool;          (* the capture stream can be opened *)
  env_capture_device : Z
}.

Definition SDL_Init (env : init_env) : M bool :=
  if env_SDL_Init env
  then (modify (fun m => set_audio_refs (S (audio_refs m)) m) ;;; ret true)
  else ret false.

(** A stream opened by [SDL_OpenAudioDeviceStream] is empty, has unit gain
    and its device is paused. *)
Definition new_stream : SDL_AudioStream :=
  {| queued := []; gain := 1%Q; paused := true; locks := 0%nat |}.

Definition SDL_OpenAudioDeviceStream (can_open : bool) : M (option nat) :=
  if can_open
  then (m <- get ;;
        let h := fresh (dom (streams m)) in
        modify (set_streams (<[h := new_stream]> (streams m))) ;;;
        ret (Some h))
  else ret None.

(** The sample formats of SDL and the two macros that take them apart. *)
Definition AUDIO_U8 : Z := 0x0008.
Definition AUDIO_S8 : Z := 0x8008.
Definition AUDIO_S16LSB : Z := 0x8010.
Definition AUDIO_S16MSB : Z := 0x9010.
Definition AUDIO_S32LSB : Z := 0x8020.
Definition AUDIO_S32MSB : Z := 0x9020.
Definition AUDIO_F32LSB : Z := 0x8120.
Definition AUDIO_F32MSB : Z := 0x9120.
Definition AUDIO_S16SYS : Z := AUDIO_S16LSB.
Definition SDL_AUDIO_BITSIZE (x : Z) : Z := Z.land x 0xFF.
Definition SDL_AUDIO_ISFLOAT (x : Z) : Z := Z.land x (Z.shiftl 1 8).

Definition SDL_VERSIONNUM_MAJOR (v : Z) : Z := v ÷ 1000000.
Definition SDL_VERSIONNUM_MINOR (v : Z) : Z := Z.rem (v ÷ 1000) 1000.
Definition SDL_VERSIONNUM_MICRO (v : Z) : Z := Z.rem v 1000.

(** Modelled from the spec: [Cvar_Get] of the configuration system
    (qcommon), which is not among the sources: a named value with a
    default, created on first use and kept afterwards. *)
Definition cvar_register (name : string) (default : Z)
    (table : gmap string cvar_t) : gmap string cvar_t :=
  match table !! name with
  | Some _ => table
  | None => <[name := {| value := inject_Z default; integer := default |}]> table
  end.

Definition Cvar_Get (name : string) (default : Z) : M (option string) :=
  fun m => Some (Some name,
                 set_cvars (cvar_register name default (cvars m)) m).

(** [p->...]: a null or dangling pointer is a fault. *)
Definition deref_cvar (p : machine -> option string) : M cvar_t :=
  fun m => match p m with
           | Some name => match cvars m !! name with
                          | Some c => Some (c, m)
                          | None => None
                          end
           | None => None
           end.

(** [(int) p->value]: the conversion is undefined outside the range of
    [int]. *)
Definition cvar_value_int (p : machine -> option string) : M Z :=
  c <- deref_cvar p ;;
  let z := int_of_float (value c) in
  if (Int32.INT_MIN <=? z) && (z <=? Int32.INT_MAX) then ret z else fault.

(** ** SNDDMA_PrintAudiospec

    Format strings are spelled as in the source, escapes included. *)

Definition formatToStringTable : list (Z * string) :=
  [ (AUDIO_U8, "AUDIO_U8"); (AUDIO_S8, "AUDIO_S8");
    (AUDIO_S16LSB, "AUDIO_S16LSB"); (AUDIO_S16MSB, "AUDIO_S16MSB");
    (AUDIO_S32LSB, "AUDIO_S32LSB"); (AUDIO_S32MSB, "AUDIO_S32MSB");
    (AUDIO_F32LSB, "AUDIO_F32LSB"); (AUDIO_F32MSB, "AUDIO_F32MSB") ]%string.

Definition S_COLOR_RED : string := "^1".

Definition SNDDMA_PrintAudiospec (str : string) (spec : SDL_AudioSpec)
    (sampleFrames : Z) : M unit :=
  print "%s:\n" [ArgStr str] ;;;
  let fmt :=
    fold_left (fun fmt e => if format spec =? fst e then Some (snd e) else fmt)
      formatToStringTable None in
  match fmt with
  | Some f => print "  Format:   %s\n" [ArgStr f]
  | None => print ("  Format:   " +:+ S_COLOR_RED +:+ "UNKNOWN\n") []
  end ;;;
  print "  Freq:     %d\n" [ArgInt (freq spec)] ;;;
  print "  Channels: %d\n" [ArgInt (spec_channels spec)] ;;;
  when (sampleFrames >? 0) (print "  Frames:   %d\n" [ArgInt sampleFrames]).

(** ** SNDDMA_Init *)

Definition dquote : string := String (Ascii.ascii_of_nat 34) EmptyString.

(** The unwinding shared by the failures that follow the opening of the
    playback stream. *)
Definition close_playback (h : nat) : M unit :=
  SDL_DestroyAudioStream h ;;;
  modify (set_sdlPlaybackStream None) ;;;
  modify (set_sdlPlaybackDevice 0) ;;;
  SDL_QuitSubSystem.

Definition open_capture (env : init_env) : M unit :=
  p <- Cvar_Get "s_sdlCapture" 1 ;;
  modify (set_s_sdlCapture p) ;;;
  c <- deref_cvar s_sdlCapture ;;
  if integer c =? 0
  then print "SDL audio capture support disabled by user ('+set s_sdlCapture 1' to enable)\n" []
  else if match env_mumble env with Some v => negb (v =? 0) | None => false end
  then print "SDL audio capture support disabled for Mumble support\n" []
  else
    s <- SDL_OpenAudioDeviceStream (env_open_capture env) ;;
    modify (set_sdlCaptureStream s) ;;;
    match s with
    | Some h =>
        modify (set_sdlCaptureDevice (env_capture_device env)) ;;;
        _ <- SDL_PauseAudioStreamDevice h ;;
        ret tt
    | None => ret tt
    end ;;;
    print "SDL capture device %s.\n"
      [ArgStr (if s is None then "failed to open" else "opened")].

Definition SNDDMA_Init (env : init_env) : M bool :=
  m <- get ;;
  if snd_inited m then ret true
  else
    when (negb (bool_decide (is_Some (s_sdlBits m))))
      (p <- Cvar_Get "s_sdlBits" 16 ;; modify (set_s_sdlBits p) ;;;
       p <- Cvar_Get "s_sdlSpeed" 0 ;; modify (set_s_sdlSpeed p) ;;;
       p <- Cvar_Get "s_sdlChannels" 2 ;; modify (set_s_sdlChannels p) ;;;
       p <- Cvar_Get "s_sdlDevSamps" 0 ;; modify (set_s_sdlDevSamps p) ;;;
       p <- Cvar_Get "s_sdlMixSamps" 0 ;; modify (set_s_sdlMixSamps p)) ;;;
    dprint "SDL_Init( SDL_INIT_AUDIO )... " [] ;;;
    ok <- SDL_Init env ;;
    if negb ok
    then
      print "SDL_Init( SDL_INIT_AUDIO ) FAILED (%s)\n" [ArgStr (env_error env)] ;;;
      ret false
    else
      dprint "OK\n" [] ;;;
      let linked := env_version env in
      print "SDL version %d.%d.%d\n"
        [ArgInt (SDL_VERSIONNUM_MAJOR linked);
         ArgInt (SDL_VERSIONNUM_MINOR linked);
         ArgInt (SDL_VERSIONNUM_MICRO linked)] ;;;
      print ("SDL audio driver is " +:+ dquote +:+ "%s" +:+ dquote +:+ ".\n")
        [ArgStr (env_driver env)] ;;;
      tmp <- cvar_value_int s_sdlBits ;;
      let tmp := if negb (tmp =? 16) && negb (tmp =? 8) then 16 else tmp in
      desired_freq <- cvar_value_int s_sdlSpeed ;;
      let desired_freq := if desired_freq =? 0 then 22050 else desired_freq in
      let desired_format := if tmp =? 16 then AUDIO_S16SYS else AUDIO_U8 in
      desired_channels <- cvar_value_int s_sdlChannels ;;
      stream <- SDL_OpenAudioDeviceStream (env_open_playback env) ;;
      modify (set_sdlPlaybackStream stream) ;;;
      match stream with
      | None =>
          print "SDL_OpenAudioDeviceStream() failed: %s\n"
            [ArgStr (env_error env)] ;;;
          SDL_QuitSubSystem ;;;
          ret false
      | Some h =>
          modify (set_sdlPlaybackDevice (env_playback_device env)) ;;;
          match (if env_playback_device env =? 0 then None
                 else env_device_format env) with
          | None =>
              print "SDL_GetAudioDeviceFormat() failed: %s\n"
                [ArgStr (env_error env)] ;;;
              close_playback h ;;;
              ret false
          | Some (obtained, obtainedSamples) =>
              SNDDMA_PrintAudiospec "SDL_AudioSpec" obtained obtainedSamples ;;;
              tmp <- cvar_value_int s_sdlMixSamps ;;
              let tmp :=
                if tmp =? 0
                then Int32.mul (Int32.mul obtainedSamples (spec_channels obtained)) 10
                else tmp in
              let tmp :=
                if tmp <=? 0 then Int32.mul (spec_channels obtained) 2048
                else tmp in
              if spec_channels obtained =? 0 then fault
              else
                let tmp :=
                  Int32.sub tmp (Int32.rem tmp (spec_channels obtained)) in
                let samplebits := SDL_AUDIO_BITSIZE (format obtained) in
                let size := Int32.mul tmp (Int32.div samplebits 8) in
                (* calloc(1, dmasize) *)
                let mem :=
                  if env_calloc env && (0 <=? size)
                  then Some (replicate (Z.to_nat size) zero_byte) else None in
                modify (set_dmapos 0) ;;;
                modify (fun m =>
                          set_dma
                            {| channels := spec_channels obtained;
                               samples := tmp;
                               fullsamples :=
                                 Int32.div tmp (spec_channels obtained);
                               submission_chunk := 1;
                               samplebits := samplebits;
                               isfloat := SDL_AUDIO_ISFLOAT (format obtained);
                               speed := freq obtained;
                               buffer := buffer (dma m) |} m) ;;;
                modify (set_dmasize size) ;;;
                modify (fun m => set_dma (set_buffer mem (dma m)) m) ;;;
                if mem is None
                then
                  print "Failed to allocate DMA buffer\n" [] ;;;
                  close_playback h ;;;
                  ret false
                else
                  open_capture env ;;;
                  modify (set_sdlMasterGain 1%Q) ;;;
                  m <- get ;;
                  match sdlPlaybackStream m with
                  | Some h => _ <- SDL_SetAudioStreamGain h 1%Q ;; ret tt
                  | None => ret tt
                  end ;;;
                  print "Starting SDL audio callback...\n" [] ;;;
                  _ <- SDL_ResumeAudioStreamDevice h ;;
                  print "SDL audio initialized.\n" [] ;;;
                  modify (set_snd_inited true) ;;;
                  ret true
          end
      end.

(** ** SNDDMA_GetDMAPos *)

Definition SNDDMA_GetDMAPos : M Z := fun m => Some (dmapos m, m).

(** ** SNDDMA_Shutdown *)

Definition SNDDMA_Shutdown : M unit :=
  m <- get ;;
  match sdlPlaybackStream m with
  | Some h =>
      print "Closing SDL audio playback device...\n" [] ;;;
      SDL_DestroyAudioStream h ;;;
      print "SDL audio playback device closed.\n" [] ;;;
      modify (set_sdlPlaybackStream None) ;;;
      modify (set_sdlPlaybackDevice 0)
  | None => ret tt
  end ;;;
  match sdlCaptureStream m with
  | Some h =>
      print "Closing SDL audio capture device...\n" [] ;;;
      SDL_DestroyAudioStream h ;;;
      print "SDL audio capture device closed.\n" [] ;;;
      modify (set_sdlCaptureStream None) ;;;
      modify (set_sdlCaptureDevice 0)
  | None => ret tt
  end ;;;
  SDL_QuitSubSystem ;;;
  (* free(dma.buffer); dma.buffer = NULL; *)
  modify (fun m => set_dma (set_buffer None (dma m)) m) ;;;
  modify (set_dmasize 0) ;;;
  modify (set_dmapos 0) ;;;
  modify (set_snd_inited false) ;;;
  print "SDL audio shut down.\n" [].

(** ** SNDDMA_Submit and SNDDMA_BeginPainting *)

Definition SNDDMA_Submit : M unit :=
  m <- get ;;
  match sdlPlaybackStream m with
  | Some h => _ <- SDL_UnlockAudioStream h ;; ret tt
  | None => ret tt
  end.

Definition SNDDMA_BeginPainting : M unit :=
  m <- get ;;
  match sdlPlaybackStream m with
  | Some h => _ <- SDL_LockAudioStream h ;; ret tt
  | None => ret tt
  end.

(** ** Voice capture (builds with USE_VOIP and USE_SDL_AUDIO_CAPTURE) *)

Definition SNDDMA_StartCapture : M unit :=
  m <- get ;;
  match sdlCaptureStream m with
  | Some h =>
      _ <- SDL_ClearAudioStream h ;;
      _ <- SDL_ResumeAudioStreamDevice h ;;
      ret tt
  | None => ret tt
  end.

Definition SNDDMA_AvailableCaptureSamples : M Z :=
  m <- get ;;
  match sdlCaptureStream m with
  | Some h =>
      bytes <- SDL_GetAudioStreamAvailable h ;;
      ret (if bytes >? 0 then Int32.div bytes 2 else 0)
  | None => ret 0
  end.

Definition lift {A} (o : option A) : M A :=
  fun m => match o with Some a => Some (a, m) | None => None end.

(** [data] is the buffer of the caller; the result is its new contents. *)
Definition SNDDMA_Capture (samples : Z) (data : list byte) : M (list byte) :=
  m <- get ;;
  match sdlCaptureStream m with
  | Some h =>
      let bytes := Int32.mul samples 2 in
      r <- SDL_GetAudioStreamData h data bytes ;;
      let got := if r.1 <? 0 then 0 else r.1 in
      if got <? bytes
      then lift (memset_zero r.2 got (Int32.sub bytes got))
      else ret r.2
  | None => lift (memset_zero data 0 (Int32.mul samples 2))
  end.

Definition SNDDMA_StopCapture : M unit :=
  m <- get ;;
  match sdlCaptureStream m with
  | Some h => _ <- SDL_PauseAudioStreamDevice h ;; ret tt
  | None => ret tt
  end.

Definition SNDDMA_MasterGain (val : Q) : M unit :=
  modify (set_sdlMasterGain val) ;;;
  m <- get ;;
  match sdlPlaybackStream m with
  | Some h => _ <- SDL_SetAudioStreamGain h val ;; ret tt
  | None => ret tt
  end.


(** * The vocabulary of the properties *)

(** ** The callback *)

(** The length the callback serves. *)
Definition requested (additional_amount total_amount : Z) : Z :=
  if additional_amount >? 0 then additional_amount else total_amount.

(** The size of a sample in bytes, as the callback computes it. *)
Definition bytesPerSample (m : machine) : Z := Int32.div (samplebits (dma m)) 8.

(** The test that sends the callback to the silent path. *)
Definition degraded (m : machine) : bool :=
  negb (snd_inited m) || negb (bool_decide (is_Some (buffer (dma m))))
  || (dmasize m <=? 0) || (bytesPerSample m <=? 0).

(** The states of the program: [dmasize] is the size of the allocation
    behind [dma.buffer], and the cursor is a sample of that ring.
    [SNDDMA_Init] establishes this; the callback, the mixer and
    [SNDDMA_Shutdown] keep it. *)
Definition snd_wf (m : machine) : Prop :=
  Int32.in_range (dmasize m) /\ 0 <= dmapos m /\
  forall mem, buffer (dma m) = Some mem ->
    Z.of_nat (length mem) = dmasize m /\
    (0 < bytesPerSample m -> dmapos m * bytesPerSample m <= dmasize m).

(** [put stream data m] is [m] after [data] has been handed to [stream];
    the callback is described by [put] and [set_dmapos] alone. *)
Definition put (stream : nat) (data : list byte) (m : machine) : machine :=
  match streams m !! stream with
  | Some s =>
      set_streams (<[stream := set_queued (queued s ++ data) s]> (streams m)) m
  | None => m
  end.

(** [ring_read mem start len]: the [len] bytes met from byte offset [start]
    on, the offset being counted modulo the size of the ring. *)
Definition ring_read (mem : list byte) (start len : Z) : list byte :=
  (fun j => nth (Z.to_nat ((start + j) mod Z.of_nat (length mem))) mem zero_byte)
    <$> seqZ 0 len.

(** What the copy loop relies on and keeps: the ring is the allocation
    [mem] of [N] bytes, and the cursor is within it. *)
Definition loop_inv (bps N : Z) (mem : list byte) (m : machine) : Prop :=
  buffer (dma m) = Some mem /\ dmasize m = N /\
  0 <= dmapos m /\ dmapos m * bps <= N.

(** [m'] is [m] up to the cursor and the bytes queued in [stream]. *)
Definition only_cursor_and_output (stream : nat) (m m' : machine) : Prop :=
  snd_inited m' = snd_inited m /\
  (s_sdlBits m', s_sdlSpeed m', s_sdlChannels m', s_sdlDevSamps m',
   s_sdlMixSamps m', s_sdlCapture m')
  = (s_sdlBits m, s_sdlSpeed m, s_sdlChannels m, s_sdlDevSamps m,
     s_sdlMixSamps m, s_sdlCapture m) /\
  dmasize m' = dmasize m /\ dma m' = dma m /\
  (sdlPlaybackStream m', sdlPlaybackDevice m',
   sdlCaptureStream m', sdlCaptureDevice m')
  = (sdlPlaybackStream m, sdlPlaybackDevice m,
     sdlCaptureStream m, sdlCaptureDevice m) /\
  sdlMasterGain m' = sdlMasterGain m /\
  audio_refs m' = audio_refs m /\ cvars m' = cvars m /\
  console m' = console m /\
  (forall h, h <> stream -> streams m' !! h = streams m !! h) /\
  (forall s', streams m' !! stream = Some s' ->
     exists s, streams m !! stream = Some s /\ gain s' = gain s /\
               paused s' = paused s /\ locks s' = locks s).

(** The output as the sentence describes it when the ring is smaller than
    the request: bytes of the ring, then silence for the remainder. *)
Definition pads_short_ring (stream : nat) (a t : Z) (m : machine) : Prop :=
  exists s real m' s',
    streams m !! stream = Some s /\
    SNDDMA_AudioCallback stream a t m = Some (tt, m') /\
    streams m' !! stream = Some s' /\
    queued s'
    = queued s ++ real
      ++ replicate (Z.to_nat (requested a t - dmasize m)) zero_byte.

(** ** Sequences of invocations *)

(** What happens to the ring over time: the mixer rewrites its contents,
    SDL asks for bytes. *)
Inductive event :=
| Paint (contents : list byte)
| Callback (additional_amount total_amount : Z).

(** Modelled from the spec: the mixer, which is not among the sources. It
    writes samples into the ring between [SNDDMA_BeginPainting] and
    [SNDDMA_Submit]; it owns neither the storage nor the cursor, so it
    replaces the bytes of the ring and nothing else. *)
Definition paint (contents : list byte) : M unit :=
  fun m => match buffer (dma m) with
           | Some mem =>
               if decide (length contents = length mem)
               then Some (tt, set_dma (set_buffer (Some contents) (dma m)) m)
               else None
           | None => None
           end.

(** One event. *)
Definition step (stream : nat) (ev : event) : M unit :=
  match ev with
  | Paint contents => paint contents
  | Callback a t => SNDDMA_AudioCallback stream a t
  end.

(** The machine after each event. *)
Fixpoint run (stream : nat) (evs : list event) (m : machine)
  : option (list machine) :=
  match evs with
  | [] => Some []
  | ev :: rest =>
      match step stream ev m with
      | Some (_, m') => cons m' <$> run stream rest m'
      | None => None
      end
  end.

(** The machine at the end of a trace that started in [m]. *)
Definition final (m : machine) (trace : list machine) : machine :=
  default m (last trace).

(** Events a ring of [N] bytes can meet: the mixer fills the ring it was
    given, SDL asks for a positive number of bytes. *)
Definition event_ok (N : Z) (ev : event) : Prop :=
  match ev with
  | Paint contents => Z.of_nat (length contents) = N
  | Callback a t => Int32.in_range a /\ Int32.in_range t /\ 0 < requested a t
  end.

(** A request for whole samples. *)
Definition whole_samples (bps : Z) (ev : event) : Prop :=
  match ev with
  | Paint _ => True
  | Callback a t => (bps | requested a t)
  end.

(** The bytes asked for by a sequence of events. *)
Fixpoint total_requested (evs : list event) : Z :=
  match evs with
  | [] => 0
  | Paint _ :: rest => total_requested rest
  | Callback a t :: rest => requested a t + total_requested rest
  end.

(** The state [SNDDMA_Init] leaves and the callback keeps: initialised, the
    ring allocated with [dmasize] bytes, that is [dma.samples] samples of
    [bytesPerSample] bytes, and the cursor on one of them. *)
Definition ring_ok (m : machine) : Prop :=
  snd_inited m = true /\
  (exists mem, buffer (dma m) = Some mem /\
               Z.of_nat (length mem) = dmasize m) /\
  0 < dmasize m <= Int32.INT_MAX /\ 0 < bytesPerSample m /\
  dmasize m = samples (dma m) * bytesPerSample m /\
  0 <= dmapos m < samples (dma m).

(** The cursor after each event, as the data model has it: a count of
    samples that starts again from 0 when it reaches the size of the ring
    in samples. *)
Fixpoint cursors (nsamples bps cursor : Z) (evs : list event) : list Z :=
  match evs with
  | [] => []
  | Paint _ :: rest => cursor :: cursors nsamples bps cursor rest
  | Callback a t :: rest =>
      let cursor' := (cursor + requested a t / bps) mod nsamples in
      cursor' :: cursors nsamples bps cursor' rest
  end.

(** The bytes a reader that goes round the ring meets: the byte at
    position [k] of the output is byte [k mod N] of the ring as the mixer
    left it before the request that reads it. *)
Fixpoint passes (contents : list byte) (off : Z) (evs : list event)
  : list byte :=
  match evs with
  | [] => []
  | Paint contents' :: rest => passes contents' off rest
  | Callback a t :: rest =>
      ring_read contents off (requested a t)
      ++ passes contents (off + requested a t) rest
  end.

(** The sentence, for requests of any positive length: the stream receives
    the two passes. *)
Definition receives_passes (stream : nat) (evs : list event) (m : machine)
  : Prop :=
  exists mem s trace,
    buffer (dma m) = Some mem /\ streams m !! stream = Some s /\
    run stream evs m = Some trace /\
    streams (final m trace) !! stream
    = Some (set_queued (queued s ++ passes mem 0 evs) s).

(** ** Capture and shutdown *)

(** What the capture stream can supply to a request for [nbytes] bytes. *)
Definition capture_supply (m : machine) (nbytes : Z) : list byte :=
  match sdlCaptureStream m with
  | Some h =>
      match streams m !! h with
      | Some s => take (Z.to_nat nbytes) (queued s)
      | None => []
      end
  | None => []
  end.

(** The state [SNDDMA_Shutdown] leaves. *)
Definition shut_down (m : machine) : Prop :=
  dmapos m = 0 /\ dmasize m = 0 /\ buffer (dma m) = None /\
  sdlPlaybackStream m = None /\ sdlCaptureStream m = None /\
  snd_inited m = false.

(** ** Initialisation *)

(** [wp c m Q]: if [c] returns from [m], its result and final machine
    satisfy [Q]. *)
Definition wp {A} (c : M A) (m : machine) (Q : A -> machine -> Prop) : Prop :=
  forall a m', c m = Some (a, m') -> Q a m'.

(** The state with no playback stream and no ring: the program at its
    start, or after [SNDDMA_Shutdown]. *)
Definition closed (m : machine) : Prop :=
  sdlPlaybackStream m = None /\ sdlPlaybackDevice m = 0 /\
  buffer (dma m) = None.

(** What a failed initialisation leaves of the resources it acquired. *)
Definition unwound (m m' : machine) : Prop :=
  snd_inited m' = false /\
  sdlPlaybackStream m' = None /\ sdlPlaybackDevice m' = 0 /\
  buffer (dma m') = None /\
  streams m' = streams m /\ audio_refs m' = audio_refs m /\
  sdlCaptureStream m' = sdlCaptureStream m /\
  sdlCaptureDevice m' = sdlCaptureDevice m /\
  sdlMasterGain m' = sdlMasterGain m.

(** The sentence: after a failed call the state of the component is as it
    was before the call. *)
Definition state_as_before (m m' : machine) : Prop :=
  snd_inited m' = snd_inited m /\ dmapos m' = dmapos m /\
  dmasize m' = dmasize m /\ dma m' = dma m /\
  sdlPlaybackStream m' = sdlPlaybackStream m /\
  sdlPlaybackDevice m' = sdlPlaybackDevice m.

(** The sample count as the sentence gives it: the override unless it is
    0, else ten device buffers; [channels * 2048] when that is not
    positive; the whole rounded down to a multiple of the channel count. *)
Definition ring_samples (override frames nchannels : Z) : Z :=
  let wanted := if override =? 0 then frames * nchannels * 10 else override in
  let wanted := if wanted <=? 0 then nchannels * 2048 else wanted in
  wanted - wanted mod nchannels.

(** The same count as the code computes it, on [int]. *)
Definition init_samples (override frames nchannels : Z) : Z :=
  let tmp :=
    if override =? 0 then Int32.mul (Int32.mul frames nchannels) 10
    else override in
  let tmp := if tmp <=? 0 then Int32.mul nchannels 2048 else tmp in
  Int32.sub tmp (Int32.rem tmp nchannels).

(** The machine [SNDDMA_Init] leaves. *)
Definition after_init (env : init_env) (m : machine) : machine :=
  match SNDDMA_Init env m with
  | Some (_, m') => m'
  | None => m
  end.

(** ** Sample machines and platforms *)

(** A stream that is open, empty and running. *)
Definition idle_stream : SDL_AudioStream :=
  {| queued := []; gain := 1%Q; paused := false; locks := 0%nat |}.

(** The machine when the program starts: every file-scope variable has its
    static initialiser, one stream [0] is live in SDL. *)
Definition boot : machine :=
  {| snd_inited := false; s_sdlBits := None; s_sdlSpeed := None;
     s_sdlChannels := None; s_sdlDevSamps := None; s_sdlMixSamps := None;
     dmapos := 0; dmasize := 0;
     sdlPlaybackStream := None; sdlPlaybackDevice := 0;
     sdlCaptureStream := None; sdlCaptureDevice := 0;
     s_sdlCapture := None; sdlMasterGain := 1%Q;
     dma := {| channels := 0; samples := 0; fullsamples := 0;
               submission_chunk := 0; samplebits := 0; isfloat := 0;
               speed := 0; buffer := None |};
     audio_refs := 0%nat; streams := {[ 0%nat := idle_stream ]};
     cvars := ∅; console := [] |}.

(** An initialised machine: a mono ring holding [mem], samples of [bits]
    bits, the cursor at its start, the playback stream [0]. *)
Definition ring_machine (bits : Z) (mem : list byte) : machine :=
  {| snd_inited := true; s_sdlBits := None; s_sdlSpeed := None;
     s_sdlChannels := None; s_sdlDevSamps := None; s_sdlMixSamps := None;
     dmapos := 0; dmasize := Z.of_nat (length mem);
     sdlPlaybackStream := Some 0%nat; sdlPlaybackDevice := 1;
     sdlCaptureStream := None; sdlCaptureDevice := 0;
     s_sdlCapture := None; sdlMasterGain := 1%Q;
     dma := {| channels := 1; samples := Z.of_nat (length mem) ÷ (bits ÷ 8);
               fullsamples := Z.of_nat (length mem) ÷ (bits ÷ 8);
               submission_chunk := 1; samplebits := bits; isfloat := 0;
               speed := 22050; buffer := Some mem |};
     audio_refs := 1%nat; streams := {[ 0%nat := idle_stream ]};
     cvars := ∅; console := [] |}.

(** A machine whose capture stream [1] holds [q]. *)
Definition capture_machine (q : list byte) : machine :=
  set_streams (<[1%nat := set_queued q new_stream]> (streams boot))
    (set_sdlCaptureStream (Some 1%nat) boot).

(** The machine at start with the cvar [s_sdlMixSamps] set to [n]. *)
Definition configured (n : Z) : machine :=
  set_cvars {[ "s_sdlMixSamps" := {| value := inject_Z n; integer := n |} ]}
    boot.

(** A platform on which everything succeeds: 2 channels of 16 bits at
    44100 Hz, a device buffer of 1024 frames. *)
Definition platform : init_env :=
  {| env_SDL_Init := true; env_error := "no error"; env_version := 3002000;
     env_driver := "dummy"; env_open_playback := true;
     env_playback_device := 2;
     env_device_format :=
       Some ({| format := AUDIO_S16LSB; spec_channels := 2; freq := 44100 |},
             1024);
     env_calloc := true; env_mumble := None; env_open_capture := true;
     env_capture_device := 3 |}.

(** The same platform when the allocator refuses the ring. *)
Definition platform_no_memory : init_env :=
  {| env_SDL_Init := true; env_error := "no error"; env_version := 3002000;
     env_driver := "dummy"; env_open_playback := true;
     env_playback_device := 2;
     env_device_format :=
       Some ({| format := AUDIO_S16LSB; spec_channels := 2; freq := 44100 |},
             1024);
     env_calloc := false; env_mumble := None; env_open_capture := true;
     env_capture_device := 3 |}.

(** A successful initialisation gives a ring the cursor lemmas apply to
    (here with a device buffer of 8 frames). *)
Definition small_platform : init_env :=
  {| env_SDL_Init := true; env_error := "no error"; env_version := 3002000;
     env_driver := "dummy"; env_open_playback := true;
     env_playback_device := 2;
     env_device_format :=
       Some ({| format := AUDIO_S16LSB; spec_channels := 2; freq := 44100 |}, 8);
     env_calloc := true; env_mumble := None; env_open_capture := true;
     env_capture_device := 3 |}.

(** ** Initialisation, seen from outside *)

(** The handles [SNDDMA_Init] gets from SDL when it opens the playback
    stream and then the capture stream. *)
Definition opened_playback (m : machine) : nat := fresh (dom (streams m)).
Definition opened_capture (m : machine) : nat :=
  fresh (dom (<[opened_playback m := new_stream]> (streams m))).

(** [cl_useMumble->integer], in the builds that have it. *)
Definition mumble_on (env : init_env) : bool :=
  match env_mumble env with Some v => negb (v =? 0) | None => false end.

(** What a successful [SNDDMA_Init] leaves for playback. *)
Definition init_succeeded (env : init_env) (m m' : machine) : Prop :=
  snd_inited m' = true /\ dmapos m' = 0 /\ sdlMasterGain m' = 1%Q /\
  audio_refs m' = S (audio_refs m) /\
  sdlPlaybackStream m' = Some (opened_playback m) /\
  sdlPlaybackDevice m' = env_playback_device env /\
  streams m' !! opened_playback m = Some idle_stream /\
  buffer (dma m') = Some (replicate (Z.to_nat (dmasize m')) zero_byte) /\
  0 <= dmasize m' /\
  dmasize m' = Int32.mul (samples (dma m')) (bytesPerSample m') /\
  submission_chunk (dma m') = 1 /\
  (forall h, h <> opened_playback m -> h <> opened_capture m ->
             streams m' !! h = streams m !! h).

(** What it leaves for capture: a stream is opened only when the cvar
    [s_sdlCapture] is not 0 and Mumble is off, and it is left paused. *)
Definition capture_gated (env : init_env) (m m' : machine) : Prop :=
  exists c,
    s_sdlCapture m' = Some "s_sdlCapture"%string /\
    cvars m' !! "s_sdlCapture"%string = Some c /\
    if (integer c =? 0) || mumble_on env
    then sdlCaptureStream m' = sdlCaptureStream m /\
         sdlCaptureDevice m' = sdlCaptureDevice m /\
         streams m' !! opened_capture m = None
    else if env_open_capture env
    then sdlCaptureStream m' = Some (opened_capture m) /\
         sdlCaptureDevice m' = env_capture_device env /\
         streams m' !! opened_capture m = Some new_stream
    else sdlCaptureStream m' = None /\
         sdlCaptureDevice m' = sdlCaptureDevice m /\
         streams m' !! opened_capture m = None.

(** The streams [SNDDMA_Shutdown] destroys. *)
Definition owned (m : machine) (h : nat) : bool :=
  bool_decide (sdlPlaybackStream m = Some h)
  || bool_decide (sdlCaptureStream m = Some h).

(** ** The interface of the file as a whole *)

(** The entry points of [sdl_snd.c], with the mixer that paints the
    ring between [SNDDMA_BeginPainting] and [SNDDMA_Submit]. *)
Inductive call :=
| Init (env : init_env)
| Shutdown
| AudioCallback (stream : nat) (additional_amount total_amount : Z)
| Mix (contents : list byte)
| BeginPainting
| Submit
| GetDMAPos
| StartCapture
| StopCapture
| AvailableCaptureSamples
| Capture (samples : Z) (data : list byte)
| MasterGain (val : Q).

(** One call, its result dropped. *)
Definition exec (c : call) : M unit :=
  match c with
  | Init env => _ <- SNDDMA_Init env ;; ret tt
  | Shutdown => SNDDMA_Shutdown
  | AudioCallback stream a t => SNDDMA_AudioCallback stream a t
  | Mix contents => paint contents
  | BeginPainting => SNDDMA_BeginPainting
  | Submit => SNDDMA_Submit
  | GetDMAPos => _ <- SNDDMA_GetDMAPos ;; ret tt
  | StartCapture => SNDDMA_StartCapture
  | StopCapture => SNDDMA_StopCapture
  | AvailableCaptureSamples => _ <- SNDDMA_AvailableCaptureSamples ;; ret tt
  | Capture samples data => _ <- SNDDMA_Capture samples data ;; ret tt
  | MasterGain val => SNDDMA_MasterGain val
  end.

Fixpoint exec_all (cs : list call) : M unit :=
  match cs with
  | [] => ret tt
  | c :: rest => exec c ;;; exec_all rest
  end.

(** The calls that serve painting, capture and gain: everything but
    initialisation, shutdown, the callback and the mixer. *)
Definition auxiliary (c : call) : bool :=
  match c with
  | Init _ | Shutdown | AudioCallback _ _ _ | Mix _ => false
  | _ => true
  end.

(** Everything of the machine but the streams of SDL and the master
    gain. *)
Definition ring_untouched (m m' : machine) : Prop :=
  snd_inited m' = snd_inited m /\ dmapos m' = dmapos m /\
  dmasize m' = dmasize m /\ dma m' = dma m /\
  sdlPlaybackStream m' = sdlPlaybackStream m /\
  sdlPlaybackDevice m' = sdlPlaybackDevice m /\
  sdlCaptureStream m' = sdlCaptureStream m /\
  sdlCaptureDevice m' = sdlCaptureDevice m /\
  audio_refs m' = audio_refs m /\ cvars m' = cvars m /\
  console m' = console m /\
  forall h, sdlPlaybackStream m <> Some h -> sdlCaptureStream m <> Some h ->
            streams m' !! h = streams m !! h.

(** The arguments of the callback are [int]s. *)
Definition call_ok (c : call) : bool :=
  match c with
  | AudioCallback _ a t =>
      (Int32.INT_MIN <=? a) && (a <=? Int32.INT_MAX)
      && (Int32.INT_MIN <=? t) && (t <=? Int32.INT_MAX)
  | _ => true
  end.

(** The machine a sequence of calls leaves. *)
Definition after_calls (cs : list call) (m : machine) : machine :=
  match exec_all cs m with
  | Some (_, m') => m'
  | None => m
  end.

(** A short session: start, paint once, serve a request, record, stop. *)
Definition session : list call :=
  [Init small_platform; BeginPainting; Submit; AudioCallback 1 0 10;
   StartCapture; AvailableCaptureSamples; StopCapture; MasterGain (1 # 2);
   Shutdown].

(** * The shader stringifier (code/tools/stringify.c)

    A build tool: it copies a text file into a C source file that defines
    one string constant, one string literal per line read.

    Conventions of the embedding:
    - a C string is a [list ascii] with no NUL in it; the contents of a
      [char] array is a [list ascii] that may hold NUL, and the string in
      it ends before the first one;
    - the two files are given by an environment: what the stream opened on
      the input path delivers, and whether the output path can be opened;
      the result of [main] is its exit code and the bytes written to the
      output file, [None] when that file was never opened;
    - [isspace] is that of the C locale, in which no byte above 127 is
      white space. *)

Module Stringify.

Import Stdlib.Strings.Ascii.
#[local] Open Scope nat_scope.

Definition NUL : ascii := Ascii.ascii_of_nat 0.
Definition newline : ascii := Ascii.ascii_of_nat 10.
Definition dquote : ascii := Ascii.ascii_of_nat 34.
Definition dot : ascii := Ascii.ascii_of_nat 46.
Definition slash : ascii := Ascii.ascii_of_nat 47.
Definition backslash : ascii := Ascii.ascii_of_nat 92.

(** [*p == '/' || *p == '\\'] *)
Definition is_sep (c : ascii) : bool :=
  Ascii.eqb c slash || Ascii.eqb c backslash.

(** The loop of [path_basename]: [base] and [p] are the strings the two
    pointers point to. *)
Fixpoint path_basename_loop (base p : list ascii) : list ascii :=
  match p with
  | [] => base
  | c :: p' => path_basename_loop (if is_sep c then p' else base) p'
  end.

Definition path_basename (path : list ascii) : list ascii :=
  path_basename_loop path path.

(** [isspace] in the C locale: space, and \t \n \v \f \r. *)
Definition isspace (c : ascii) : bool :=
  let n := Ascii.nat_of_ascii c in
  (n =? 32) || ((9 <=? n) && (n <=? 13)).

Fixpoint strlen (buffer : list ascii) : nat :=
  match buffer with
  | [] => 0
  | c :: rest => if Ascii.eqb c NUL then 0 else S (strlen rest)
  end.

(** [strrchr(s, c)] as an index; [None] is NULL. *)
Fixpoint strrchr (s : list ascii) (c : ascii) : option nat :=
  match s with
  | [] => None
  | x :: rest =>
      match strrchr rest c with
      | Some i => Some (S i)
      | None => if Ascii.eqb x c then Some 0 else None
      end
  end.

(** What [fgets] moves to the buffer when it may store [n] characters:
    the characters up to and including the first newline, [n] at most; and
    what is left in the stream. *)
Fixpoint fgets_chars (n : nat) (input : list ascii)
  : list ascii * list ascii :=
  match n, input with
  | S n', c :: rest =>
      if Ascii.eqb c newline then ([c], rest)
      else let r := fgets_chars n' rest in (c :: r.1, r.2)
  | _, _ => ([], input)
  end.

(** [fgets(buffer, size, fp)]: [None] is NULL, at the end of the file. *)
Definition fgets (size : nat) (input : list ascii)
  : option (list ascii * list ascii) :=
  match input with
  | [] => None
  | _ => Some (fgets_chars (size - 1) input)
  end.

(** The loop that strips trailing white space: [n] is [end - buffer + 1],
    the result is the length of the string left. *)
Fixpoint strip_end (buffer : list ascii) (n : nat) : nat :=
  match n with
  | O => O
  | S e =>
      match buffer !! e with
      | Some c => if isspace c then strip_end buffer e else n
      | None => n
      end
  end.

(** The string in the buffer after [end[1] = '\0']. *)
Definition line_text (buffer : list ascii) : list ascii :=
  take (strip_end buffer (strlen buffer)) buffer.

(** [fprintf(ofp, "\"%s\\n\"\n", buffer)] *)
Definition quote_line (buffer : list ascii) : list ascii :=
  [dquote] ++ line_text buffer ++ [backslash; "n"%char; dquote; newline].

Lemma fgets_chars_app n input :
  (fgets_chars n input).1 ++ (fgets_chars n input).2 = input.
Proof.
  revert input. induction n as [| n IH]; intros [| c rest]; try reflexivity.
  cbn [fgets_chars]. destruct (Ascii.eqb c newline); [reflexivity |].
  cbv zeta. cbn [fst snd app]. f_equal. apply IH.
Qed.

Lemma fgets_chars_decreases n c rest :
  n <> 0 ->
  length (fgets_chars n (c :: rest)).2 < length (c :: rest).
Proof.
  intros Hn. destruct n as [| n]; [congruence |].
  pose proof (fgets_chars_app (S n) (c :: rest)) as Happ.
  apply (f_equal length) in Happ. rewrite length_app in Happ.
  assert (0 < length (fgets_chars (S n) (c :: rest)).1); [| lia].
  cbn [fgets_chars]. destruct (Ascii.eqb c newline); cbn; lia.
Qed.

Lemma fgets_decreases size input buffer rest :
  fgets size input = Some (buffer, rest) -> 1 < size ->
  length rest < length input.
Proof.
  unfold fgets. destruct input as [| c input']; [discriminate |].
  intros [= Hget] Hsize.
  pose proof (fgets_chars_decreases (size - 1) c input' ltac:(lia)) as Hlt.
  rewrite Hget in Hlt. exact Hlt.
Qed.

(** The copy loop: what it writes for the rest of the input. *)
Equations? copy_lines (input : list ascii) : list ascii
  by wf (length input) lt :=
  copy_lines input with inspect (fgets 1024 input) := {
    | exist _ None _ => []
    | exist _ (Some (buffer, rest)) Hget =>
        quote_line buffer ++ copy_lines rest }.
Proof. eapply fgets_decreases; [exact Hget | lia]. Qed.

Record stdio_env := {
  env_fopen_r : list ascii -> option (list ascii);
                                    (* fopen(path, "r"): what the stream
                                       delivers, [None] when it fails *)
  env_fopen_w : list ascii -> bool  (* fopen(path, "w") succeeds *)
}.

(** [snprintf(base, sizeof(base), "%s", ...)] then the cut at the last
    dot. *)
Definition symbol_name (inFile : list ascii) : list ascii :=
  let base := take 1023 (path_basename inFile) in
  match strrchr base dot with
  | Some i => take i base
  | None => base
  end.

(** [fprintf(ofp, "const char *fallbackShader_%s =\n", base)] *)
Definition header (base : list ascii) : list ascii :=
  String.list_ascii_of_string "const char *fallbackShader_" ++ base
  ++ String.list_ascii_of_string " =" ++ [newline].

Definition trailer : list ascii := [";"%char; newline].

Definition main (argv : list (list ascii)) (env : stdio_env)
  : Z * option (list ascii) :=
  if (Z.of_nat (length argv) <? 3)%Z then (1%Z, None)
  else
    match argv !! 1, argv !! 2 with
    | Some inFile, Some outFile =>
        match env_fopen_r env inFile with
        | None => (2%Z, None)
        | Some input =>
            if negb (env_fopen_w env outFile) then (3%Z, None)
            else (0%Z, Some (header (symbol_name inFile)
                             ++ copy_lines input ++ trailer))
        end
    | _, _ => (1%Z, None)
    end.

(** ** Vocabulary *)

(** The successive contents of [buffer], one per turn of the loop. *)
Equations? buffers (input : list ascii) : list (list ascii)
  by wf (length input) lt :=
  buffers input with inspect (fgets 1024 input) := {
    | exist _ None _ => []
    | exist _ (Some (buffer, rest)) Hget => buffer :: buffers rest }.
Proof. eapply fgets_decreases; [exact Hget | lia]. Qed.

(** A line without its trailing white space. *)
Definition rstrip (line : list ascii) : list ascii :=
  fold_right (fun c acc =>
                if isspace c && bool_decide (acc = []) then [] else c :: acc)
    [] line.

(** A text file: its lines, each ended by a newline. *)
Definition unlines (lines : list (list ascii)) : list ascii :=
  concat ((fun l => l ++ [newline]) <$> lines).

(** A line the buffer holds whole: shorter than the buffer, with no
    newline and no NUL inside. *)
Definition short_line (l : list ascii) : bool :=
  (length l <? 1023)
  && forallb (fun c => negb (Ascii.eqb c newline) && negb (Ascii.eqb c NUL)) l.

(** The string literal written for a line of text. *)
Definition literal (text : list ascii) : list ascii :=
  [dquote] ++ text ++ [backslash; "n"%char; dquote; newline].

(** ** A sample run *)

Definition sample_lines : list (list ascii) :=
  [String.list_ascii_of_string "void main() {  ";
   [];
   String.list_ascii_of_string "}"].

Definition sample_env : stdio_env :=
  {| env_fopen_r := fun _ => Some (unlines sample_lines);
     env_fopen_w := fun _ => true |}.

Definition sample_argv : list (list ascii) :=
  [String.list_ascii_of_string "stringify";
   String.list_ascii_of_string "glsl/generic_vp.glsl";
   String.list_ascii_of_string "generic_vp.c"].

End Stringify.


(** * Proofs *)

(** ** Unfolding of the two loops *)

Lemma SNDDMA_QueueSilence_step stream len m :
  SNDDMA_QueueSilence stream len m =
  if len >? 0 then
    let chunk := if len >? sizeof_silence then sizeof_silence else len in
    match SDL_PutAudioStreamData stream (take (Z.to_nat chunk) silence) m with
    | Some (_, m') => SNDDMA_QueueSilence stream (Int32.sub len chunk) m'
    | None => None
    end
  else Some (tt, m).
Proof.
  rewrite SNDDMA_QueueSilence_equation_1.
  destruct (Z_gt_dec len 0) as [Hpos | Hneg].
  - rewrite SNDDMA_QueueSilence_clause_1_equation_1.
    replace (len >? 0) with true by (symmetry; apply Z.gtb_lt; lia).
    reflexivity.
  - rewrite SNDDMA_QueueSilence_clause_1_equation_2.
    replace (len >? 0) with false; [reflexivity |].
    symmetry. rewrite Z.gtb_ltb. apply Z.ltb_ge. lia.
Qed.

Lemma audio_loop_step stream bps len m :
  audio_loop stream bps len m =
  if len >? 0 then
    match audio_loop_body stream bps len m with
    | Break m' => Some (len, m')
    | Next len' m' => audio_loop stream bps len' m'
    | Fault => None
    end
  else Some (len, m).
Proof.
  rewrite audio_loop_equation_1.
  destruct (Z_gt_dec len 0) as [Hpos | Hneg].
  - rewrite audio_loop_clause_1_equation_1.
    replace (len >? 0) with true by (symmetry; apply Z.gtb_lt; lia).
    destruct (inspect (audio_loop_body stream bps len m)) as [[m' | len' m' |] e].
    + rewrite audio_loop_clause_1_clause_2_equation_1, e. reflexivity.
    + rewrite audio_loop_clause_1_clause_2_equation_2, e. reflexivity.
    + rewrite audio_loop_clause_1_clause_2_equation_3, e. reflexivity.
  - rewrite audio_loop_clause_1_equation_2.
    replace (len >? 0) with false; [reflexivity |].
    symmetry. rewrite Z.gtb_ltb. apply Z.ltb_ge. lia.
Qed.

(** ** The effect of the callback on the machine *)

Lemma SDL_PutAudioStreamData_put stream data m :
  exists ok, SDL_PutAudioStreamData stream data m = Some (ok, put stream data m).
Proof.
  unfold SDL_PutAudioStreamData, update_stream, put.
  destruct (streams m !! stream); eauto.
Qed.

Lemma set_streams_id m : set_streams (streams m) m = m.
Proof. destruct m; reflexivity. Qed.

Lemma set_dmapos_id m : set_dmapos (dmapos m) m = m.
Proof. destruct m; reflexivity. Qed.

Lemma set_dmapos_twice p q m : set_dmapos p (set_dmapos q m) = set_dmapos p m.
Proof. reflexivity. Qed.

Lemma put_nil stream m : put stream [] m = m.
Proof.
  unfold put. destruct (streams m !! stream) as [s |] eqn:E; [| reflexivity].
  rewrite app_nil_r.
  replace (set_queued (queued s) s) with s by (destruct s; reflexivity).
  rewrite insert_id by exact E. apply set_streams_id.
Qed.

Lemma put_put stream a b m :
  put stream b (put stream a m) = put stream (a ++ b) m.
Proof.
  unfold put. destruct (streams m !! stream) as [s |] eqn:E; cbn.
  - rewrite lookup_insert_eq. cbn. rewrite insert_insert_eq, app_assoc.
    reflexivity.
  - rewrite E. reflexivity.
Qed.

Lemma put_set_dmapos stream data p m :
  put stream data (set_dmapos p m) = set_dmapos p (put stream data m).
Proof. unfold put; cbn. destruct (streams m !! stream); reflexivity. Qed.

Lemma put_frame stream data m :
  let m' := put stream data m in
  snd_inited m' = snd_inited m /\ dmapos m' = dmapos m /\
  dmasize m' = dmasize m /\ dma m' = dma m.
Proof. unfold put. destruct (streams m !! stream); cbn; auto. Qed.

Lemma set_dmapos_id_put stream data m :
  set_dmapos (dmapos m) (put stream data m) = put stream data m.
Proof.
  destruct (put_frame stream data m) as (_ & <- & _). apply set_dmapos_id.
Qed.

Lemma put_lookup stream data m s :
  streams m !! stream = Some s ->
  streams (put stream data m) !! stream
  = Some (set_queued (queued s ++ data) s).
Proof. intros E. unfold put. rewrite E. cbn. apply lookup_insert_eq. Qed.

Lemma put_lookup_ne stream data m h :
  h <> stream -> streams (put stream data m) !! h = streams m !! h.
Proof.
  intros Hne. unfold put. destruct (streams m !! stream); [| reflexivity].
  cbn. apply lookup_insert_ne. congruence.
Qed.

Lemma take_silence n :
  (n <= Z.to_nat sizeof_silence)%nat -> take n silence = replicate n zero_byte.
Proof.
  intros H. unfold silence. rewrite take_replicate.
  f_equal. lia.
Qed.

(** [SNDDMA_QueueSilence] returns, and hands [len] zero bytes to the
    stream. *)
Lemma SNDDMA_QueueSilence_spec stream len m :
  len <= Int32.INT_MAX ->
  SNDDMA_QueueSilence stream len m
  = Some (tt, put stream (replicate (Z.to_nat len) zero_byte) m).
Proof.
  remember (Z.to_nat len) as n eqn:Hn. revert len m Hn.
  induction n as [n IH] using lt_wf_ind. intros len m Hn Hmax.
  rewrite SNDDMA_QueueSilence_step.
  destruct (len >? 0) eqn:Hpos.
  - apply Z.gtb_lt in Hpos. cbv zeta.
    set (chunk := if len >? sizeof_silence then sizeof_silence else len).
    assert (Hchunk : 0 < chunk <= len /\ chunk <= sizeof_silence).
    { subst chunk. unfold sizeof_silence.
      destruct (len >? 4096) eqn:E; lia. }
    destruct (SDL_PutAudioStreamData_put stream
                (take (Z.to_nat chunk) silence) m) as [ok ->].
    unfold Int32.sub. rewrite Int32.wrap_small
      by (unfold Int32.in_range, Int32.INT_MIN, Int32.INT_MAX in *; lia).
    unfold Int32.INT_MAX in *.
    rewrite (IH (Z.to_nat (len - chunk)) ltac:(lia) (len - chunk) _ eq_refl)
      by lia.
    rewrite put_put, take_silence by lia.
    rewrite <- replicate_add.
    replace (Z.to_nat chunk + Z.to_nat (len - chunk))%nat with n by lia.
    reflexivity.
  - rewrite Z.gtb_ltb in Hpos. apply Z.ltb_ge in Hpos.
    replace n with 0%nat by lia. cbn. rewrite put_nil. reflexivity.
Qed.

(** ** Reading the ring *)

Lemma length_ring_read mem start len :
  length (ring_read mem start len) = Z.to_nat len.
Proof. unfold ring_read. rewrite length_fmap. apply length_seqZ. Qed.

Lemma lookup_ring_read mem start len k :
  (0 < length mem)%nat -> Z.of_nat k < len ->
  ring_read mem start len !! k
  = mem !! Z.to_nat ((start + Z.of_nat k) mod Z.of_nat (length mem)).
Proof.
  intros Hmem Hk. unfold ring_read.
  rewrite list_lookup_fmap, lookup_seqZ_lt by lia. cbn.
  pose proof (Z.mod_pos_bound (start + Z.of_nat k) (Z.of_nat (length mem))
                ltac:(lia)) as Hb.
  destruct (nth_lookup_or_length mem
              (Z.to_nat ((start + Z.of_nat k) mod Z.of_nat (length mem)))
              zero_byte) as [-> | ?]; [reflexivity | lia].
Qed.

Lemma ring_read_nil mem start len : len <= 0 -> ring_read mem start len = [].
Proof. intros H. unfold ring_read. rewrite seqZ_nil by lia. reflexivity. Qed.

Lemma ring_read_app mem start a b :
  0 <= a -> 0 <= b ->
  ring_read mem start (a + b)
  = ring_read mem start a ++ ring_read mem (start + a) b.
Proof.
  intros Ha Hb. unfold ring_read.
  rewrite seqZ_app, fmap_app by lia. f_equal.
  replace (0 + a) with (a + 0) by lia.
  rewrite <- (fmap_add_seqZ a 0 b), <- list_fmap_compose.
  apply list_fmap_ext. intros _ j _. cbn.
  replace (start + a + j) with (start + (a + j)) by lia. reflexivity.
Qed.

Lemma ring_read_congr mem s s' len :
  s mod Z.of_nat (length mem) = s' mod Z.of_nat (length mem) ->
  ring_read mem s len = ring_read mem s' len.
Proof.
  intros H. unfold ring_read. apply list_fmap_ext. intros _ j _. cbn.
  rewrite <- (Zplus_mod_idemp_l s), <- (Zplus_mod_idemp_l s'), H.
  reflexivity.
Qed.

Lemma ring_read_chunk mem s n :
  0 <= s -> 0 <= n -> s + n <= Z.of_nat (length mem) ->
  ring_read mem s n = take (Z.to_nat n) (drop (Z.to_nat s) mem).
Proof.
  intros Hs Hn Hfit. apply list_eq. intros i. unfold ring_read.
  rewrite list_lookup_fmap.
  destruct (decide (Z.of_nat i < n)) as [Hi | Hi].
  - rewrite lookup_seqZ_lt, lookup_take_lt, lookup_drop by lia. cbn.
    rewrite Z.mod_small by lia.
    replace (Z.to_nat (s + (0 + Z.of_nat i))) with (Z.to_nat s + i)%nat by lia.
    destruct (nth_lookup_or_length mem (Z.to_nat s + i) zero_byte) as [-> | ?];
      [reflexivity | lia].
  - rewrite lookup_seqZ_ge, lookup_take_ge by lia. reflexivity.
Qed.

Lemma ring_read_whole mem : ring_read mem 0 (Z.of_nat (length mem)) = mem.
Proof.
  rewrite ring_read_chunk by lia.
  rewrite Nat2Z.id. cbn. apply take_ge. lia.
Qed.

Lemma ring_read_two_passes mem :
  ring_read mem 0 (2 * Z.of_nat (length mem)) = mem ++ mem.
Proof.
  replace (2 * Z.of_nat (length mem))
    with (Z.of_nat (length mem) + Z.of_nat (length mem)) by lia.
  rewrite ring_read_app by lia.
  rewrite (ring_read_congr mem (0 + Z.of_nat (length mem)) 0).
  - rewrite ring_read_whole. reflexivity.
  - destruct (decide (length mem = 0%nat)) as [-> | Hne]; [reflexivity |].
    rewrite Z.add_0_l, Z_mod_same_full, Z.mod_0_l by lia. reflexivity.
Qed.

(** ** The copy loop *)

Section CopyLoop.

Variable stream : nat.
Variable bps N : Z.
Variable mem : list byte.
Hypothesis bps_pos : 0 < bps.
Hypothesis N_pos : 0 < N.
Hypothesis N_max : N <= Int32.INT_MAX.
Hypothesis mem_size : Z.of_nat (length mem) = N.

Ltac int32 :=
  unfold Int32.in_range, Int32.INT_MIN, Int32.INT_MAX in *.

Lemma chunk_div_bound p len1 :
  0 <= p -> 0 <= len1 -> p * bps + len1 <= N ->
  0 <= len1 / bps /\ (p + len1 / bps) * bps <= N.
Proof.
  intros Hp Hl Hfit.
  pose proof (Z.div_pos len1 bps ltac:(lia) ltac:(lia)).
  pose proof (Z.mul_div_le len1 bps ltac:(lia)). nia.
Qed.

(** One turn of the loop from a state that satisfies the invariant. *)
Lemma audio_loop_body_spec len m :
  0 < len <= Int32.INT_MAX -> loop_inv bps N mem m ->
  let p0 := if dmapos m * bps >=? N then 0 else dmapos m in
  let len1 := Z.min (N - p0 * bps) len in
  0 < len1 /\ p0 * bps + len1 <= N /\ 0 <= p0 /\
  audio_loop_body stream bps len m
  = Next (len - len1)
      (set_dmapos (p0 + len1 / bps)
         (put stream (take (Z.to_nat len1) (drop (Z.to_nat (p0 * bps)) mem)) m)).
Proof.
  intros Hlen (Hbuf & Hsize & Hp & Hoff). cbv zeta.
  set (p0 := if dmapos m * bps >=? N then 0 else dmapos m).
  set (len1 := Z.min (N - p0 * bps) len).
  assert (Hp0 : 0 <= p0 /\ p0 * bps < N).
  { subst p0. destruct (dmapos m * bps >=? N) eqn:E; lia. }
  assert (Hl1 : 0 < len1 /\ p0 * bps + len1 <= N /\ len1 <= len)
    by (subst len1; lia).
  destruct (chunk_div_bound p0 len1) as [Hq Hq']; try lia.
  repeat split; try lia.
  unfold audio_loop_body, Int32.mul, Int32.sub, Int32.add, Int32.div.
  rewrite (Int32.wrap_small (dmapos m * bps)) by (int32; lia).
  rewrite Hsize.
  assert (Hm0 : (if dmapos m * bps >=? N then (0, set_dmapos 0 m)
                 else (dmapos m * bps, m))
                = (p0 * bps, set_dmapos p0 m)).
  { subst p0. destruct (dmapos m * bps >=? N); [reflexivity |].
    rewrite set_dmapos_id. reflexivity. }
  rewrite Hm0. cbn [dmasize set_dmapos dma]. rewrite Hsize.
  rewrite (Int32.wrap_small (N - p0 * bps)) by (int32; lia).
  replace (if N - p0 * bps >? len then len else N - p0 * bps) with len1
    by (subst len1; destruct (N - p0 * bps >? len) eqn:E; lia).
  replace (len1 <=? 0) with false by lia.
  rewrite Hbuf. unfold read_bytes.
  replace ((0 <=? p0 * bps) && (0 <=? len1)
           && (p0 * bps + len1 <=? Z.of_nat (length mem))) with true
    by (symmetry; rewrite !andb_true_iff; lia).
  destruct (SDL_PutAudioStreamData_put stream
              (take (Z.to_nat len1) (drop (Z.to_nat (p0 * bps)) mem))
              (set_dmapos p0 m)) as [ok ->].
  rewrite put_set_dmapos. cbn [dmapos set_dmapos].
  rewrite Z.quot_div_nonneg by lia.
  rewrite (Int32.wrap_small (len1 / bps)) by (int32; nia).
  rewrite (Int32.wrap_small (len - len1)) by (int32; lia).
  rewrite (Int32.wrap_small (p0 + len1 / bps)) by (int32; nia).
  reflexivity.
Qed.

(** The cursor the loop leaves counts the samples copied, modulo the
    size of the ring in samples. *)
Lemma cursor_step p p0 len len1 p2 :
  (bps | N) -> 0 <= p -> p * bps <= N ->
  p0 = (if p * bps >=? N then 0 else p) ->
  len1 = Z.min (N - p0 * bps) len -> 0 < len ->
  p2 mod (N / bps) = (p0 + len1 / bps + (len - len1) / bps) mod (N / bps) ->
  p2 mod (N / bps) = (p + len / bps) mod (N / bps).
Proof.
  intros [S HS] Hp Hoff Hp0 Hl1 Hlen ->.
  assert (HSpos : 0 < S) by nia.
  replace (N / bps) with S by (rewrite HS, Z.div_mul; lia).
  assert (Hp0' : p0 mod S = p mod S).
  { subst p0. destruct (p * bps >=? N) eqn:E; [| reflexivity].
    assert (p = S) by nia. subst p.
    rewrite Z_mod_same_full, Z.mod_0_l by lia. reflexivity. }
  assert (Hp0b : 0 <= p0 /\ p0 < S).
  { subst p0. destruct (p * bps >=? N) eqn:E; nia. }
  destruct (Z.le_gt_cases len (N - p0 * bps)) as [Hcase | Hcase].
  - replace len1 with len by lia.
    rewrite Z.sub_diag, Z.div_0_l, Z.add_0_r by lia.
    rewrite <- (Zplus_mod_idemp_l p0), Hp0', Zplus_mod_idemp_l.
    reflexivity.
  - assert (Hl : len1 = (S - p0) * bps) by (subst len1; rewrite HS; lia).
    assert (Hd : len / bps = (len - len1) / bps + (S - p0)).
    { rewrite <- Z.div_add by lia. f_equal. lia. }
    rewrite Hl at 1. rewrite Z.div_mul by lia. rewrite Hd.
    rewrite <- (Zplus_mod_idemp_l p), <- Hp0', Zplus_mod_idemp_l.
    f_equal. lia.
Qed.

Lemma audio_loop_spec len m :
  0 <= len <= Int32.INT_MAX -> loop_inv bps N mem m ->
  exists out p',
    audio_loop stream bps len m
    = Some (0, set_dmapos p' (put stream out m)) /\
    Z.of_nat (length out) = len /\ out ⊆ mem /\
    0 <= p' /\ p' * bps <= N /\
    ((bps | N) ->
     out = ring_read mem (dmapos m * bps) len /\
     p' mod (N / bps) = (dmapos m + len / bps) mod (N / bps)).
Proof.
  remember (Z.to_nat len) as n eqn:Hn. revert len m Hn.
  induction n as [n IH] using lt_wf_ind. intros len m Hn Hlen Hinv.
  rewrite audio_loop_step.
  destruct (len >? 0) eqn:Hpos.
  - apply Z.gtb_lt in Hpos.
    destruct (audio_loop_body_spec len m ltac:(lia) Hinv)
      as (Hl1 & Hfit & Hp0 & ->).
    set (p0 := if dmapos m * bps >=? N then 0 else dmapos m) in *.
    set (len1 := Z.min (N - p0 * bps) len) in *.
    set (chunk := take (Z.to_nat len1) (drop (Z.to_nat (p0 * bps)) mem)).
    destruct Hinv as (Hbuf & Hsize & Hp & Hoff).
    destruct (chunk_div_bound p0 len1) as [Hq Hq']; try lia.
    destruct (put_frame stream chunk m) as (_ & Hpp & Hps & Hpd).
    destruct (IH (Z.to_nat (len - len1)) ltac:(lia) (len - len1)
                (set_dmapos (p0 + len1 / bps) (put stream chunk m))
                eq_refl ltac:(lia))
      as (out2 & p2 & -> & Hlen2 & Hsub2 & Hp2 & Hoff2 & Hstrong).
    { unfold loop_inv. cbn. rewrite Hpd, Hps. repeat split; auto; lia. }
    assert (Hlc : Z.of_nat (length chunk) = len1).
    { subst chunk. rewrite length_take, length_drop. lia. }
    exists (chunk ++ out2), p2. repeat split; try lia.
    + rewrite put_set_dmapos, put_put. reflexivity.
    + rewrite length_app. lia.
    + intros x [Hx | Hx]%elem_of_app; [| auto].
      eapply subseteq_drop, subseteq_take, Hx.
    + destruct (Hstrong H) as [Hout _]. cbn in Hout.
      assert (Hstart : ring_read mem (dmapos m * bps) len
                       = ring_read mem (p0 * bps) len).
      { apply ring_read_congr. rewrite mem_size. subst p0.
        destruct (dmapos m * bps >=? N) eqn:E; [| reflexivity].
        replace (dmapos m * bps) with N by lia.
        rewrite Z_mod_same_full, Z.mod_0_l by lia. reflexivity. }
      rewrite Hstart.
      replace len with (len1 + (len - len1)) at 1 by lia.
      rewrite ring_read_app, ring_read_chunk by lia.
      fold chunk. f_equal. rewrite Hout.
      destruct (Z.le_gt_cases len (N - p0 * bps)) as [Hcase | Hcase].
      * replace (len - len1) with 0 by lia.
        rewrite !ring_read_nil by lia. reflexivity.
      * f_equal. destruct H as [S HS].
        assert (Hl : len1 = (S - p0) * bps) by (subst len1; rewrite HS; lia).
        rewrite Hl at 1. rewrite Z.div_mul by lia. lia.
    + destruct (Hstrong H) as [_ Hcur]. cbn in Hcur.
      eapply (cursor_step (dmapos m) p0 len len1); eauto.
  - exists [], (dmapos m). assert (len = 0) by lia. subst len.
    destruct Hinv as (Hbuf & Hsize & Hp & Hoff).
    rewrite put_nil, set_dmapos_id. repeat split; try (cbn; lia).
    + intros x Hx. inversion Hx.
    + rewrite Z.div_0_l, Z.add_0_r by lia. reflexivity.
Qed.

End CopyLoop.

(** ** One invocation of the callback *)

Lemma requested_in_range a t :
  Int32.in_range a -> Int32.in_range t -> requested a t <= Int32.INT_MAX.
Proof.
  unfold requested, Int32.in_range. intros Ha Ht.
  destruct (a >? 0); lia.
Qed.

Lemma degraded_false m :
  degraded m = false ->
  snd_inited m = true /\ (exists mem, buffer (dma m) = Some mem) /\
  0 < dmasize m /\ 0 < bytesPerSample m.
Proof.
  unfold degraded. rewrite !orb_false_iff, !negb_false_iff.
  intros [[[Hi Hb] Hs] Hw]. apply bool_decide_eq_true in Hb.
  destruct Hb as [mem Hb]. repeat split; eauto; lia.
Qed.

Lemma callback_idle stream a t m :
  requested a t <= 0 -> SNDDMA_AudioCallback stream a t m = Some (tt, m).
Proof.
  intros H. unfold SNDDMA_AudioCallback. fold (requested a t).
  replace (requested a t <=? 0) with true by lia. reflexivity.
Qed.

Lemma callback_degraded stream a t m :
  0 < requested a t <= Int32.INT_MAX -> degraded m = true ->
  SNDDMA_AudioCallback stream a t m
  = Some (tt, put stream (replicate (Z.to_nat (requested a t)) zero_byte) m).
Proof.
  intros Hlen Hdeg. unfold SNDDMA_AudioCallback.
  fold (requested a t). fold (bytesPerSample m). fold (degraded m).
  replace (requested a t <=? 0) with false by lia.
  rewrite Hdeg. apply SNDDMA_QueueSilence_spec. lia.
Qed.

Lemma callback_ring stream a t m mem :
  0 < requested a t <= Int32.INT_MAX -> degraded m = false ->
  buffer (dma m) = Some mem -> Z.of_nat (length mem) = dmasize m ->
  dmasize m <= Int32.INT_MAX ->
  0 <= dmapos m -> dmapos m * bytesPerSample m <= dmasize m ->
  exists out pf,
    SNDDMA_AudioCallback stream a t m
    = Some (tt, set_dmapos pf (put stream out m)) /\
    Z.of_nat (length out) = requested a t /\ out ⊆ mem /\
    0 <= pf /\ pf * bytesPerSample m < dmasize m /\
    ((bytesPerSample m | dmasize m) ->
     out = ring_read mem (dmapos m * bytesPerSample m) (requested a t) /\
     pf = (dmapos m + requested a t / bytesPerSample m)
          mod (dmasize m / bytesPerSample m)).
Proof.
  intros Hlen Hdeg Hbuf Hmem Hmax Hp Hoff.
  destruct (degraded_false m Hdeg) as (_ & _ & Hsize & Hbps).
  destruct (audio_loop_spec stream (bytesPerSample m) (dmasize m) mem
              Hbps Hsize Hmax Hmem (requested a t) m ltac:(lia))
    as (out & p' & Hloop & Hout & Hsub & Hp' & Hoff' & Hstrong).
  { unfold loop_inv. auto. }
  exists out, (if p' * bytesPerSample m >=? dmasize m then 0 else p').
  destruct (put_frame stream out m) as (_ & _ & Hps & _).
  repeat split; auto.
  - unfold SNDDMA_AudioCallback.
    fold (requested a t). fold (bytesPerSample m). fold (degraded m).
    replace (requested a t <=? 0) with false by lia.
    rewrite Hdeg, Hloop. cbn [Z.gtb Z.compare].
    cbn [dmapos dmasize set_dmapos]. rewrite Hps.
    unfold Int32.mul. rewrite Int32.wrap_small
      by (unfold Int32.in_range, Int32.INT_MIN, Int32.INT_MAX in *; nia).
    destruct (p' * bytesPerSample m >=? dmasize m); reflexivity.
  - destruct (p' * bytesPerSample m >=? dmasize m); lia.
  - destruct (p' * bytesPerSample m >=? dmasize m) eqn:E; lia.
  - apply Hstrong, H.
  - destruct (Hstrong H) as [_ Hcur]. rewrite <- Hcur.
    destruct H as [S HS].
    assert (HS' : dmasize m / bytesPerSample m = S)
      by (rewrite HS, Z.div_mul; lia).
    rewrite HS'.
    destruct (p' * bytesPerSample m >=? dmasize m) eqn:E.
    + assert (p' = S) by nia. subst p'.
      rewrite Z_mod_same_full. reflexivity.
    + rewrite Z.mod_small; [reflexivity | nia].
Qed.

(** Every invocation from a state of the program returns, and its whole
    effect is to hand bytes to the stream and to move the cursor. *)
Lemma callback_effect stream a t m :
  snd_wf m -> Int32.in_range a -> Int32.in_range t ->
  exists out pf,
    SNDDMA_AudioCallback stream a t m
    = Some (tt, set_dmapos pf (put stream out m)) /\
    (requested a t <= 0 -> out = [] /\ pf = dmapos m) /\
    (0 < requested a t ->
     Z.of_nat (length out) = requested a t /\
     if degraded m
     then out = replicate (Z.to_nat (requested a t)) zero_byte /\ pf = dmapos m
     else (exists mem, buffer (dma m) = Some mem /\ out ⊆ mem) /\
          0 <= pf /\ pf * bytesPerSample m < dmasize m).
Proof.
  intros (Hrange & Hp & Hmem) Ha Ht.
  pose proof (requested_in_range a t Ha Ht) as Hmax.
  destruct (Z.le_gt_cases (requested a t) 0) as [Hidle | Hpos].
  - exists [], (dmapos m). rewrite put_nil, set_dmapos_id.
    split; [apply callback_idle, Hidle |]. split; [auto | lia].
  - destruct (degraded m) eqn:Hdeg.
    + exists (replicate (Z.to_nat (requested a t)) zero_byte), (dmapos m).
      rewrite (set_dmapos_id_put stream).
      split; [apply callback_degraded; [lia | exact Hdeg] |].
      split; [lia |]. intros _. rewrite length_replicate. split; [lia | auto].
    + destruct (degraded_false m Hdeg) as (_ & [mem Hbuf] & Hsize & Hbps).
      destruct (Hmem mem Hbuf) as [Hlen Hoff].
      destruct (callback_ring stream a t m mem) as
        (out & pf & Hcb & Hout & Hsub & Hpf & Hpf' & _); auto; try lia.
      { unfold Int32.in_range in Hrange. lia. }
      exists out, pf. split; [exact Hcb |]. split; [lia |].
      intros _. split; [exact Hout |]. eauto.
Qed.

(** ** C4: the silent path *)

(** C4. For every requested length [len > 0], an invocation of the
    callback when the system is not initialised, or the ring is not
    allocated, or its byte size is not positive, or the byte width of a
    sample is not positive, returns and hands the stream exactly [len]
    zero bytes. *)
Theorem silence_when_degraded stream a t m s :
  Int32.in_range a -> Int32.in_range t -> 0 < requested a t ->
  snd_inited m = false \/ buffer (dma m) = None \/ dmasize m <= 0
  \/ bytesPerSample m <= 0 ->
  streams m !! stream = Some s ->
  exists m',
    SNDDMA_AudioCallback stream a t m = Some (tt, m') /\
    streams m' !! stream
    = Some (set_queued
              (queued s ++ replicate (Z.to_nat (requested a t)) zero_byte) s) /\
    length (replicate (Z.to_nat (requested a t)) zero_byte)
    = Z.to_nat (requested a t).
Proof.
  intros Ha Ht Hlen Hdeg Hs.
  pose proof (requested_in_range a t Ha Ht) as Hmax.
  assert (Hd : degraded m = true).
  { unfold degraded. rewrite !orb_true_iff, !negb_true_iff.
    destruct Hdeg as [H | [H | [H | H]]].
    - auto.
    - left; left; right. rewrite H. reflexivity.
    - left; right. lia.
    - right. lia. }
  eexists. split; [apply callback_degraded; [lia | exact Hd] |].
  split; [apply put_lookup, Hs | apply length_replicate].
Qed.

Lemma silence_when_degraded_witness :
  exists m',
    SNDDMA_AudioCallback 0 5 0 boot = Some (tt, m') /\
    streams m' !! 0%nat
    = Some (set_queued
              (queued idle_stream
               ++ replicate (Z.to_nat (requested 5 0)) zero_byte) idle_stream) /\
    length (replicate (Z.to_nat (requested 5 0)) zero_byte)
    = Z.to_nat (requested 5 0).
Proof.
  apply (silence_when_degraded 0%nat 5 0 boot idle_stream).
  - unfold Int32.in_range, Int32.INT_MIN, Int32.INT_MAX. lia.
  - unfold Int32.in_range, Int32.INT_MIN, Int32.INT_MAX. lia.
  - vm_compute. reflexivity.
  - left. reflexivity.
  - vm_compute. reflexivity.
Defined.

(** ** C1: the length of the output *)

(** C1, as stated, fails: a ring of 4 bytes asked for 7 bytes gives the 4
    bytes and then the first 3 again; no silence is added. *)
Lemma callback_wraps_short_ring :
  let m := ring_machine 8 [x01; x02; x03; x04] in
  dmasize m < requested 7 0 /\
  (exists m',
     SNDDMA_AudioCallback 0 7 0 m = Some (tt, m') /\
     queued <$> streams m' !! 0%nat
     = Some [x01; x02; x03; x04; x01; x02; x03]) /\
  ~ pads_short_ring 0 7 0 m.
Proof.
  cbv zeta. split; [vm_compute; reflexivity |]. split.
  { eexists. split; vm_compute; reflexivity. }
  intros (s & real & m' & s' & Hs & Hcb & Hs' & Hq).
  vm_compute in Hs. injection Hs as <-.
  vm_compute in Hcb. injection Hcb as <-.
  vm_compute in Hs'. injection Hs' as <-.
  vm_compute in Hq.
  do 8 (destruct real as [| ? real]; try discriminate).
Qed.

(** C1, amended. For every requested length [len > 0] and every state in
    which [dmasize] is the size of the allocation behind [dma.buffer] and
    the cursor lies within it, an invocation of the callback returns and
    hands the stream exactly [len] bytes: [len] zero bytes on the silent
    path, and otherwise [len] bytes of the ring. When the ring holds a
    whole number of samples, as [SNDDMA_Init] sizes it, these are the
    bytes met from the byte offset of the cursor on, going round the ring
    as often as the request needs: byte [k] of the output is byte
    [(dmapos * bytesPerSample + k) mod dmasize] of the ring. A ring
    smaller than the request is read again from its start, and no silence
    is added. *)
Theorem callback_output_length stream a t m s :
  snd_wf m -> Int32.in_range a -> Int32.in_range t -> 0 < requested a t ->
  streams m !! stream = Some s ->
  exists out m',
    SNDDMA_AudioCallback stream a t m = Some (tt, m') /\
    streams m' !! stream = Some (set_queued (queued s ++ out) s) /\
    Z.of_nat (length out) = requested a t /\
    if degraded m
    then out = replicate (Z.to_nat (requested a t)) zero_byte
    else exists mem,
        buffer (dma m) = Some mem /\ out ⊆ mem /\
        ((bytesPerSample m | dmasize m) ->
         out = ring_read mem (dmapos m * bytesPerSample m) (requested a t) /\
         forall k, (k < length out)%nat ->
           out !! k
           = mem !! Z.to_nat ((dmapos m * bytesPerSample m + Z.of_nat k)
                              mod dmasize m)).
Proof.
  intros Hwf Ha Ht Hlen Hs.
  pose proof (requested_in_range a t Ha Ht) as Hmax.
  destruct (degraded m) eqn:Hdeg.
  - exists (replicate (Z.to_nat (requested a t)) zero_byte),
      (put stream (replicate (Z.to_nat (requested a t)) zero_byte) m).
    split; [apply callback_degraded; [lia | exact Hdeg] |].
    split; [apply put_lookup, Hs |].
    split; [rewrite length_replicate; lia | reflexivity].
  - destruct Hwf as (Hrange & Hp & Hmem).
    destruct (degraded_false m Hdeg) as (_ & [mem Hbuf] & Hsize & Hbps).
    destruct (Hmem mem Hbuf) as [Hsz Hoff].
    destruct (callback_ring stream a t m mem) as
      (out & pf & Hcb & Hout & Hsub & _ & _ & Hstrong); auto; try lia.
    { unfold Int32.in_range in Hrange. lia. }
    exists out, (set_dmapos pf (put stream out m)).
    split; [exact Hcb |].
    split; [apply (put_lookup stream out m s Hs) |].
    split; [exact Hout |].
    exists mem. split; [exact Hbuf |]. split; [exact Hsub |].
    intros Hdiv. destruct (Hstrong Hdiv) as [Hread _].
    split; [exact Hread |].
    intros k Hk. assert (Hk' : Z.of_nat k < requested a t) by lia.
    rewrite Hread, lookup_ring_read, Hsz by lia. reflexivity.
Qed.

Lemma ring_machine_wf bits mem :
  Z.of_nat (length mem) <= Int32.INT_MAX -> snd_wf (ring_machine bits mem).
Proof.
  intros H. unfold snd_wf. cbn.
  split; [unfold Int32.in_range, Int32.INT_MIN, Int32.INT_MAX in *; lia |].
  split; [lia |]. intros mem' [= <-]. split; [reflexivity | lia].
Defined.

Lemma callback_output_length_witness :
  exists out m',
    SNDDMA_AudioCallback 0 7 0 (ring_machine 8 [x01; x02; x03; x04])
    = Some (tt, m') /\
    streams m' !! 0%nat = Some (set_queued (queued idle_stream ++ out) idle_stream) /\
    Z.of_nat (length out) = requested 7 0 /\
    if degraded (ring_machine 8 [x01; x02; x03; x04])
    then out = replicate (Z.to_nat (requested 7 0)) zero_byte
    else exists mem,
        buffer (dma (ring_machine 8 [x01; x02; x03; x04])) = Some mem /\
        out ⊆ mem /\
        ((bytesPerSample (ring_machine 8 [x01; x02; x03; x04])
          | dmasize (ring_machine 8 [x01; x02; x03; x04])) ->
         out = ring_read mem
                 (dmapos (ring_machine 8 [x01; x02; x03; x04])
                  * bytesPerSample (ring_machine 8 [x01; x02; x03; x04]))
                 (requested 7 0) /\
         forall k, (k < length out)%nat ->
           out !! k
           = mem !! Z.to_nat
                      ((dmapos (ring_machine 8 [x01; x02; x03; x04])
                        * bytesPerSample (ring_machine 8 [x01; x02; x03; x04])
                        + Z.of_nat k)
                       mod dmasize (ring_machine 8 [x01; x02; x03; x04]))).
Proof.
  apply (callback_output_length 0%nat 7 0
           (ring_machine 8 [x01; x02; x03; x04]) idle_stream).
  - apply ring_machine_wf. vm_compute. discriminate.
  - unfold Int32.in_range, Int32.INT_MIN, Int32.INT_MAX. lia.
  - unfold Int32.in_range, Int32.INT_MIN, Int32.INT_MAX. lia.
  - vm_compute. reflexivity.
  - vm_compute. reflexivity.
Defined.

(** The ring has to hold a whole number of samples for the bytes to be
    those read round it: a ring of 5 bytes of 16-bit samples asked for 8
    bytes gives the 5 bytes and then the last one again, the cursor being
    kept in samples. *)
Example odd_ring_repeats_its_last_byte :
  let m := ring_machine 16 [x01; x02; x03; x04; x05] in
  degraded m = false /\ ~ (bytesPerSample m | dmasize m) /\
  exists m',
    SNDDMA_AudioCallback 0 8 0 m = Some (tt, m') /\
    queued <$> streams m' !! 0%nat
    = Some [x01; x02; x03; x04; x05; x05; x05; x05].
Proof.
  cbv zeta. split; [vm_compute; reflexivity |]. split.
  - intros [q Hq]. change (5 = q * 2) in Hq. lia.
  - eexists. split; vm_compute; reflexivity.
Qed.

(** ** C9: what an invocation leaves alone *)

Lemma put_only_output stream out p m :
  only_cursor_and_output stream m (set_dmapos p (put stream out m)).
Proof.
  unfold only_cursor_and_output, put.
  destruct (streams m !! stream) as [s |] eqn:E; cbn.
  - repeat split; try reflexivity.
    + intros h Hne. apply lookup_insert_ne. congruence.
    + intros s'. rewrite lookup_insert_eq. intros [= <-]. eauto.
  - repeat split; try reflexivity. intros s'. rewrite E. discriminate.
Qed.

(** C9. An invocation of the callback changes the cursor [dmapos] and
    nothing else of the component: the contents and the size of the ring,
    the negotiated format, the stream handles, the gain and the cvars are
    as before, and no line is added to the console; in SDL only the bytes
    queued in the stream that is served change. *)
Theorem callback_frame stream a t m :
  snd_wf m -> Int32.in_range a -> Int32.in_range t ->
  exists m',
    SNDDMA_AudioCallback stream a t m = Some (tt, m') /\
    only_cursor_and_output stream m m'.
Proof.
  intros Hwf Ha Ht.
  destruct (callback_effect stream a t m Hwf Ha Ht) as (out & pf & Hcb & _).
  eexists. split; [exact Hcb | apply put_only_output].
Qed.

Lemma callback_frame_witness :
  exists m',
    SNDDMA_AudioCallback 0 6 0 (ring_machine 16 [x01; x02; x03; x04])
    = Some (tt, m') /\
    only_cursor_and_output 0 (ring_machine 16 [x01; x02; x03; x04]) m'.
Proof.
  apply (callback_frame 0%nat 6 0 (ring_machine 16 [x01; x02; x03; x04])).
  - apply ring_machine_wf. vm_compute. discriminate.
  - unfold Int32.in_range, Int32.INT_MIN, Int32.INT_MAX. lia.
  - unfold Int32.in_range, Int32.INT_MIN, Int32.INT_MAX. lia.
Defined.

(** [snd_wf] is kept by the callback. *)
Lemma SNDDMA_AudioCallback_wf stream a t m :
  snd_wf m -> Int32.in_range a -> Int32.in_range t ->
  exists m', SNDDMA_AudioCallback stream a t m = Some (tt, m') /\ snd_wf m'.
Proof.
  intros Hwf Ha Ht.
  destruct (callback_effect stream a t m Hwf Ha Ht)
    as (out & pf & Hcb & Hidle & Hpos).
  eexists. split; [exact Hcb |].
  destruct (put_frame stream out m) as (_ & Hpp & Hps & Hpd).
  destruct Hwf as (Hrange & Hp & Hmem).
  assert (Hpf : pf = dmapos m \/
                (0 <= pf /\ pf * bytesPerSample m < dmasize m)).
  { destruct (Z.le_gt_cases (requested a t) 0) as [H | H].
    - left. apply Hidle, H.
    - destruct (Hpos H) as [_ Hk]. destruct (degraded m); [left | right]; tauto. }
  unfold snd_wf, bytesPerSample in *. cbn. rewrite Hps, Hpd.
  split; [exact Hrange |]. split; [lia |].
  intros mem Hbuf. destruct (Hmem mem Hbuf) as [Hlen Hoff].
  split; [exact Hlen |]. intros Hbps. specialize (Hoff Hbps).
  destruct Hpf as [-> | ?]; lia.
Qed.

(** ** Sequences of invocations *)

Lemma ring_ok_not_degraded m : ring_ok m -> degraded m = false.
Proof.
  intros (Hi & (mem & Hb & _) & Hs & Hw & _). unfold degraded.
  rewrite Hi, Hb. cbn. apply orb_false_iff. lia.
Qed.

(** One invocation from a state that satisfies [ring_ok]. *)
Lemma callback_ring_ok stream a t m mem :
  ring_ok m -> buffer (dma m) = Some mem ->
  Int32.in_range a -> Int32.in_range t -> 0 < requested a t ->
  let pf := (dmapos m + requested a t / bytesPerSample m)
            mod samples (dma m) in
  let out := ring_read mem (dmapos m * bytesPerSample m) (requested a t) in
  SNDDMA_AudioCallback stream a t m
  = Some (tt, set_dmapos pf (put stream out m)) /\
  ring_ok (set_dmapos pf (put stream out m)).
Proof.
  intros Hok Hbuf Ha Ht Hlen. pose proof (ring_ok_not_degraded m Hok) as Hdeg.
  destruct Hok as (Hi & (mem' & Hb & Hm) & Hs & Hw & Hsz & Hp).
  assert (mem' = mem) by congruence. subst mem'.
  pose proof (requested_in_range a t Ha Ht) as Hmax.
  assert (Hdiv : (bytesPerSample m | dmasize m))
    by (exists (samples (dma m)); exact Hsz).
  assert (Hq : dmasize m / bytesPerSample m = samples (dma m))
    by (rewrite Hsz, Z.div_mul; lia).
  destruct (callback_ring stream a t m mem) as
    (out & pf & Hcb & _ & _ & _ & _ & Hstrong); auto; try lia; try nia.
  destruct (Hstrong Hdiv) as [-> ->]. rewrite Hq in Hcb.
  cbv zeta. split; [exact Hcb |].
  match goal with |- ring_ok (set_dmapos ?p (put _ ?o _)) =>
    destruct (put_frame stream o m) as (Hf1 & Hf2 & Hf3 & Hf4);
    pose proof (Z.mod_pos_bound (dmapos m + requested a t / bytesPerSample m)
                  (samples (dma m)) ltac:(nia)) as Hpf
  end.
  unfold ring_ok, bytesPerSample in *. cbn. rewrite Hf1, Hf3, Hf4.
  repeat split; eauto; lia.
Qed.

Lemma paint_ring_ok contents m :
  ring_ok m -> Z.of_nat (length contents) = dmasize m ->
  let m' := set_dma (set_buffer (Some contents) (dma m)) m in
  paint contents m = Some (tt, m') /\ ring_ok m'.
Proof.
  intros (Hi & (mem & Hb & Hm) & Hs & Hw & Hsz & Hp) Hlen. cbv zeta.
  split.
  - unfold paint. rewrite Hb. rewrite decide_True by lia. reflexivity.
  - unfold ring_ok, bytesPerSample in *. cbn. repeat split; eauto; lia.
Qed.

Lemma ring_ok_cursor m :
  ring_ok m ->
  0 <= dmapos m < samples (dma m) /\
  dmapos m * bytesPerSample m < dmasize m.
Proof. intros (_ & _ & _ & Hw & Hsz & Hp). split; [lia | nia]. Qed.

(** One event from a state that satisfies [ring_ok]: what is kept, where
    the cursor goes, what the stream receives. *)
Lemma step_ring_ok stream ev m mem :
  ring_ok m -> buffer (dma m) = Some mem -> event_ok (dmasize m) ev ->
  exists m',
    step stream ev m = Some (tt, m') /\ ring_ok m' /\
    dmasize m' = dmasize m /\ samples (dma m') = samples (dma m) /\
    bytesPerSample m' = bytesPerSample m /\
    [dmapos m']
    = cursors (samples (dma m)) (bytesPerSample m) (dmapos m) [ev] /\
    match ev with
    | Paint contents =>
        buffer (dma m') = Some contents /\ streams m' = streams m
    | Callback a t =>
        buffer (dma m') = Some mem /\
        m' = set_dmapos (dmapos m')
               (put stream
                  (ring_read mem (dmapos m * bytesPerSample m) (requested a t))
                  m)
    end.
Proof.
  intros Hok Hbuf Hev. destruct ev as [contents | a t]; cbn in Hev.
  - destruct (paint_ring_ok contents m Hok Hev) as [Hp Hok'].
    eexists. split; [exact Hp |]. split; [exact Hok' |].
    unfold bytesPerSample. cbn. auto 10.
  - destruct Hev as (Ha & Ht & Hlen).
    destruct (callback_ring_ok stream a t m mem Hok Hbuf Ha Ht Hlen)
      as [Hcb Hok'].
    eexists. split; [exact Hcb |]. split; [exact Hok' |].
    unfold bytesPerSample. cbn.
    match goal with |- context [put stream ?o m] =>
      destruct (put_frame stream o m) as (_ & _ & Hf3 & Hf4) end.
    rewrite Hf3, Hf4. auto 10.
Qed.

(** ** C2: the cursor *)

(** C2. From an initialised state whose ring is allocated, with positive
    [dmasize] and positive sample width, every sequence of invocations
    with positive lengths (the mixer writing into the ring in between)
    returns, and after each of them [0 <= dmapos < dma.samples] and
    [dmapos * bytesPerSample < dmasize]; the cursor counts the samples
    served modulo [dma.samples]: it is back at 0 exactly when its byte
    offset reaches the byte size of the ring. *)
Theorem cursor_invariant stream evs m :
  ring_ok m -> Forall (event_ok (dmasize m)) evs ->
  exists trace,
    run stream evs m = Some trace /\ length trace = length evs /\
    Forall (fun m' => 0 <= dmapos m' < samples (dma m') /\
                      dmapos m' * bytesPerSample m' < dmasize m') trace /\
    dmapos <$> trace
    = cursors (samples (dma m)) (bytesPerSample m) (dmapos m) evs.
Proof.
  revert m. induction evs as [| ev rest IH]; intros m Hok Hevs.
  - exists []. repeat split; auto.
  - apply Forall_cons in Hevs as [Hev Hrest].
    pose proof Hok as (_ & (mem & Hb & _) & _).
    destruct (step_ring_ok stream ev m mem Hok Hb Hev)
      as (m' & Hstep & Hok' & Hsz & Hsm & Hbps & Hcur & _).
    rewrite <- Hsz in Hrest.
    destruct (IH m' Hok' Hrest) as (trace & Hrun & Hlen & Hall & Hcurs).
    exists (m' :: trace). cbn [run]. rewrite Hstep, Hrun.
    split; [reflexivity |]. split; [cbn; lia |].
    split; [constructor; [apply ring_ok_cursor, Hok' | exact Hall] |].
    cbn [fmap list_fmap]. change (list_fmap _ _ dmapos trace) with (dmapos <$> trace).
    rewrite Hcurs, Hsm, Hbps.
    destruct ev as [c | a t]; cbn in Hcur |- *; injection Hcur as ->;
      reflexivity.
Qed.

Lemma ring_machine_ok mem :
  (0 < length mem)%nat -> Z.of_nat (length mem) <= Int32.INT_MAX ->
  ring_ok (ring_machine 8 mem).
Proof.
  intros Hpos Hmax. unfold ring_ok, bytesPerSample. cbn.
  change (Int32.div 8 8) with 1. change (8 ÷ 8) with 1.
  rewrite Z.quot_1_r. repeat split; eauto; lia.
Defined.

Lemma cursor_invariant_witness :
  exists trace,
    run 0 [Callback 3 0; Paint [x05; x06; x07; x08]; Callback 0 6]
      (ring_machine 8 [x01; x02; x03; x04]) = Some trace /\
    length trace = 3%nat /\
    Forall (fun m' => 0 <= dmapos m' < samples (dma m') /\
                      dmapos m' * bytesPerSample m' < dmasize m') trace /\
    dmapos <$> trace = [3; 3; 1].
Proof.
  apply (cursor_invariant 0%nat
           [Callback 3 0; Paint [x05; x06; x07; x08]; Callback 0 6]
           (ring_machine 8 [x01; x02; x03; x04])).
  - apply ring_machine_ok; [cbn; lia | vm_compute; discriminate].
  - repeat constructor; vm_compute; congruence.
Defined.

(** ** C3: going round the ring *)

Lemma length_passes contents off evs :
  Forall (fun ev => match ev with
                    | Callback a t => 0 <= requested a t
                    | Paint _ => True
                    end) evs ->
  Z.of_nat (length (passes contents off evs)) = total_requested evs.
Proof.
  revert contents off. induction evs as [| [c | a t] rest IH];
    intros contents off Hall; apply Forall_cons in Hall as [Hev Hrest] || idtac;
    cbn.
  - reflexivity.
  - apply IH, Hrest.
  - rewrite length_app, length_ring_read, Nat2Z.inj_add, IH by exact Hrest.
    lia.
Qed.

(** While the mixer leaves the ring as it is, the passes are one cyclic
    read. *)
Lemma passes_unpainted mem off evs :
  Forall (fun ev => match ev with
                    | Callback a t => 0 <= requested a t
                    | Paint c => c = mem
                    end) evs ->
  passes mem off evs = ring_read mem off (total_requested evs).
Proof.
  revert off. induction evs as [| [c | a t] rest IH];
    intros off Hall; apply Forall_cons in Hall as [Hev Hrest] || idtac; cbn.
  - reflexivity.
  - subst c. apply IH, Hrest.
  - assert (0 <= total_requested rest).
    { clear -Hrest. induction rest as [| [c | a t] rest IH];
        [cbn; lia | |]; apply Forall_cons in Hrest as [? ?]; cbn;
        specialize (IH ltac:(assumption)); lia. }
    rewrite ring_read_app, IH by (assumption || lia). reflexivity.
Qed.

Lemma set_queued_twice q1 q2 s : set_queued q2 (set_queued q1 s) = set_queued q2 s.
Proof. reflexivity. Qed.

(** The stream receives the passes, and the byte offset of the cursor
    follows the bytes served, when every request is for whole samples. *)
Lemma run_passes stream evs :
  forall m mem s off,
    ring_ok m -> buffer (dma m) = Some mem -> streams m !! stream = Some s ->
    Forall (event_ok (dmasize m)) evs ->
    Forall (whole_samples (bytesPerSample m)) evs ->
    dmapos m * bytesPerSample m = off mod dmasize m ->
    exists trace,
      run stream evs m = Some trace /\
      streams (final m trace) !! stream
      = Some (set_queued (queued s ++ passes mem off evs) s) /\
      dmapos (final m trace) * bytesPerSample m
      = (off + total_requested evs) mod dmasize m.
Proof.
  induction evs as [| ev rest IH]; intros m mem s off Hok Hbuf Hs Hevs Hwhole Hoff.
  - exists []. cbn. rewrite app_nil_r, Z.add_0_r.
    replace (set_queued (queued s) s) with s by (destruct s; reflexivity).
    auto.
  - apply Forall_cons in Hevs as [Hev Hrest].
    apply Forall_cons in Hwhole as [Hwh Hwrest].
    destruct (step_ring_ok stream ev m mem Hok Hbuf Hev)
      as (m' & Hstep & Hok' & Hsz & Hsm & Hbps & Hcur & Hkind).
    rewrite <- Hsz in Hrest. rewrite <- Hbps in Hwrest.
    assert (Hfinal : forall trace, final m (m' :: trace) = final m' trace).
    { intros trace. unfold final. rewrite last_cons.
      destruct (last trace); reflexivity. }
    destruct ev as [contents | a t]; cbn in Hcur; injection Hcur as Hcur.
    + destruct Hkind as [Hbuf' Hstr].
      destruct (IH m' contents s off Hok' Hbuf' ltac:(rewrite Hstr; exact Hs)
                  Hrest Hwrest ltac:(rewrite Hcur, Hbps, Hsz; exact Hoff))
        as (trace & Hrun & Hq & Hc).
      exists (m' :: trace). cbn [run]. rewrite Hstep, Hrun, Hfinal.
      cbn [passes total_requested]. rewrite <- Hbps, <- Hsz. auto.
    + destruct Hkind as [Hbuf' Hm']. cbn in Hwh, Hev.
      destruct Hev as (_ & _ & Hlen).
      destruct Hok as (_ & (mem0 & Hb0 & Hmem) & Hs0 & Hw & Hsize & Hp).
      assert (mem0 = mem) by congruence. subst mem0.
      set (out := ring_read mem (dmapos m * bytesPerSample m) (requested a t))
        in *.
      assert (Hout : out = ring_read mem off (requested a t)).
      { subst out. apply ring_read_congr. rewrite Hmem, Hoff.
        apply Z.mod_mod. lia. }
      assert (Hs' : streams m' !! stream = Some (set_queued (queued s ++ out) s)).
      { rewrite Hm'. cbn. apply put_lookup, Hs. }
      assert (Hoff' : dmapos m' * bytesPerSample m'
                      = (off + requested a t) mod dmasize m').
      { rewrite Hcur, Hbps, Hsz, Hsize.
        rewrite <- Z.mul_mod_distr_r by lia.
        destruct Hwh as [k Hk]. rewrite Hk, Z.div_mul by lia.
        rewrite Z.mul_add_distr_r, Hoff, <- Hk, Hsize.
        rewrite Zplus_mod_idemp_l. reflexivity. }
      destruct (IH m' mem _ (off + requested a t) Hok' Hbuf' Hs' Hrest Hwrest
                  Hoff') as (trace & Hrun & Hq & Hc).
      exists (m' :: trace). cbn [run]. rewrite Hstep, Hrun, Hfinal.
      cbn [passes total_requested]. rewrite <- Hbps, <- Hsz.
      split; [reflexivity |]. split.
      * rewrite Hq. cbn. rewrite Hout, app_assoc. reflexivity.
      * rewrite Hc. f_equal. lia.
Qed.

(** C3, as stated, fails: with samples of 2 bytes, a ring of 4 bytes and
    the requests 1 and 7 (their sum is 8), the cursor does not move for the
    first request, and the second starts again at byte 0: the output is
    1, 1 2 3 4, 1 2 3 and not 1 2 3 4, 1 2 3 4. *)
Lemma odd_request_repeats_a_byte :
  let m := ring_machine 16 [x01; x02; x03; x04] in
  let evs := [Callback 1 0; Callback 7 0] in
  ring_ok m /\ dmapos m = 0 /\ Forall (event_ok (dmasize m)) evs /\
  total_requested evs = 2 * dmasize m /\
  passes [x01; x02; x03; x04] 0 evs
  = [x01; x02; x03; x04; x01; x02; x03; x04] /\
  (exists trace,
     run 0 evs m = Some trace /\
     queued <$> streams (final m trace) !! 0%nat
     = Some [x01; x01; x02; x03; x04; x01; x02; x03]) /\
  ~ receives_passes 0 evs m.
Proof.
  cbv zeta. split.
  { unfold ring_ok, bytesPerSample. cbn. repeat split; eauto;
      vm_compute; congruence. }
  split; [reflexivity |].
  split; [repeat constructor; vm_compute; congruence |].
  split; [reflexivity |]. split; [reflexivity |]. split.
  { eexists. split; vm_compute; reflexivity. }
  intros (mem & s & trace & Hbuf & Hs & Hrun & Hq).
  vm_compute in Hbuf. injection Hbuf as <-.
  vm_compute in Hs. injection Hs as <-.
  vm_compute in Hrun. injection Hrun as <-.
  vm_compute in Hq. discriminate.
Qed.

(** C3, amended. For a ring of [N] bytes with the cursor at 0 and every
    sequence of requests, each for a positive number of whole samples,
    whose lengths sum to [2N]: the bytes the stream receives are two
    passes over the ring, each byte as the mixer left it before the request
    that read it, none skipped and none repeated where the ring wraps; the
    cursor is back at 0. *)
Theorem two_passes stream evs m mem s :
  ring_ok m -> buffer (dma m) = Some mem -> dmapos m = 0 ->
  streams m !! stream = Some s ->
  Forall (event_ok (dmasize m)) evs ->
  Forall (whole_samples (bytesPerSample m)) evs ->
  total_requested evs = 2 * dmasize m ->
  exists trace,
    run stream evs m = Some trace /\
    streams (final m trace) !! stream
    = Some (set_queued (queued s ++ passes mem 0 evs) s) /\
    Z.of_nat (length (passes mem 0 evs)) = 2 * dmasize m /\
    dmapos (final m trace) = 0 /\
    (Forall (fun ev => forall c, ev = Paint c -> c = mem) evs ->
     passes mem 0 evs = mem ++ mem).
Proof.
  intros Hok Hbuf Hcur Hs Hevs Hwhole Htotal.
  pose proof Hok as (_ & (mem0 & Hb0 & Hmem) & Hsz & Hw & _).
  assert (mem0 = mem) by congruence. subst mem0.
  assert (Hnonneg : Forall (fun ev => match ev with
                                      | Callback a t => 0 <= requested a t
                                      | Paint _ => True
                                      end) evs).
  { eapply Forall_impl; [exact Hevs |]. intros [c | a t]; cbn; [auto | lia]. }
  destruct (run_passes stream evs m mem s 0 Hok Hbuf Hs Hevs Hwhole)
    as (trace & Hrun & Hq & Hc).
  { rewrite Hcur, Z.mod_0_l by lia. reflexivity. }
  exists trace. split; [exact Hrun |]. split; [exact Hq |].
  split; [rewrite length_passes by exact Hnonneg; exact Htotal |].
  split.
  - rewrite Htotal, Z.add_0_l in Hc.
    replace (2 * dmasize m) with (0 + 2 * dmasize m) in Hc by lia.
    rewrite Z_mod_plus_full, Z.mod_0_l in Hc by lia. nia.
  - intros Hconst. rewrite passes_unpainted, Htotal, <- Hmem.
    + apply ring_read_two_passes.
    + apply Forall_forall. intros [c | a t] Hin.
      * symmetry. symmetry. eapply (proj1 (Forall_forall _ _) Hconst); eauto.
      * apply (proj1 (Forall_forall _ _) Hnonneg _ Hin).
Qed.

Lemma two_passes_witness :
  exists trace,
    run 0 [Callback 2 0; Callback 0 6]
      (ring_machine 16 [x01; x02; x03; x04]) = Some trace /\
    streams (final (ring_machine 16 [x01; x02; x03; x04]) trace) !! 0%nat
    = Some (set_queued
              (queued idle_stream
               ++ passes [x01; x02; x03; x04] 0 [Callback 2 0; Callback 0 6])
              idle_stream) /\
    Z.of_nat (length (passes [x01; x02; x03; x04] 0
                        [Callback 2 0; Callback 0 6]))
    = 2 * dmasize (ring_machine 16 [x01; x02; x03; x04]) /\
    dmapos (final (ring_machine 16 [x01; x02; x03; x04]) trace) = 0 /\
    (Forall (fun ev => forall c, ev = Paint c -> c = [x01; x02; x03; x04])
       [Callback 2 0; Callback 0 6] ->
     passes [x01; x02; x03; x04] 0 [Callback 2 0; Callback 0 6]
     = [x01; x02; x03; x04] ++ [x01; x02; x03; x04]).
Proof.
  apply (two_passes 0%nat [Callback 2 0; Callback 0 6]
           (ring_machine 16 [x01; x02; x03; x04]) [x01; x02; x03; x04]
           idle_stream).
  - unfold ring_ok, bytesPerSample. cbn. repeat split; eauto;
      vm_compute; congruence.
  - reflexivity.
  - reflexivity.
  - vm_compute. reflexivity.
  - repeat constructor; vm_compute; congruence.
  - repeat constructor; vm_compute.
    + exists 1. reflexivity.
    + exists 3. reflexivity.
  - vm_compute. reflexivity.
Defined.

(** ** C10: samples ready for capture *)

(** C10. [SNDDMA_AvailableCaptureSamples] changes nothing and its result is
    never negative: 0 without a capture stream; with one, half the byte
    count SDL reports when that count is positive, and 0 otherwise (also
    when SDL reports a negative count). *)
Theorem available_capture_samples m :
  exists n,
    SNDDMA_AvailableCaptureSamples m = Some (n, m) /\ 0 <= n /\
    match sdlCaptureStream m with
    | None => n = 0
    | Some h =>
        exists bytes,
          SDL_GetAudioStreamAvailable h m = Some (bytes, m) /\
          n = if bytes >? 0 then bytes / 2 else 0
    end.
Proof.
  unfold SNDDMA_AvailableCaptureSamples, bind, get, ret.
  destruct (sdlCaptureStream m) as [h |]; [| exists 0; auto with lia].
  unfold SDL_GetAudioStreamAvailable.
  destruct (streams m !! h) as [s |].
  - set (bytes := Z.min (Z.of_nat (length (queued s))) Int32.INT_MAX).
    assert (Hb : 0 <= bytes <= Int32.INT_MAX)
      by (subst bytes; unfold Int32.INT_MAX; lia).
    assert (Hdiv : Int32.div bytes 2 = bytes / 2).
    { unfold Int32.div. rewrite Z.quot_div_nonneg by lia.
      apply Int32.wrap_small.
      pose proof (Z.div_pos bytes 2 ltac:(lia) ltac:(lia)).
      pose proof (Z.div_le_upper_bound bytes 2 bytes ltac:(lia) ltac:(lia)).
      unfold Int32.in_range, Int32.INT_MIN, Int32.INT_MAX in *. lia. }
    eexists. split; [reflexivity |]. rewrite Hdiv. split.
    + destruct (bytes >? 0); [apply Z.div_pos |]; lia.
    + exists bytes. auto.
  - exists 0. split; [reflexivity |]. split; [lia |]. exists (-1). auto.
Qed.

(** ** C6: capture *)

Lemma write_front (data src : list byte) :
  (length src <= length data)%nat ->
  write_bytes data 0 src = Some (src ++ drop (length src) data).
Proof.
  intros H. unfold write_bytes.
  replace ((0 <=? 0) && (0 + Z.of_nat (length src) <=? Z.of_nat (length data)))
    with true by (symmetry; apply andb_true_iff; lia).
  reflexivity.
Qed.

Lemma memset_zero_tail (front rest : list byte) n :
  0 <= n -> n <= Z.of_nat (length rest) ->
  memset_zero (front ++ rest) (Z.of_nat (length front)) n
  = Some (front ++ replicate (Z.to_nat n) zero_byte ++ drop (Z.to_nat n) rest).
Proof.
  intros Hn Hfit. unfold memset_zero, write_bytes.
  replace (0 <=? n) with true by lia.
  rewrite length_replicate, length_app.
  replace ((0 <=? Z.of_nat (length front))
           && (Z.of_nat (length front) + Z.of_nat (Z.to_nat n)
               <=? Z.of_nat (length front + length rest)%nat))
    with true by (symmetry; apply andb_true_iff; split; apply Z.leb_le; lia).
  rewrite Nat2Z.id, take_app_length.
  rewrite drop_app_ge by lia.
  replace (length front + Z.to_nat n - length front)%nat with (Z.to_nat n) by lia.
  reflexivity.
Qed.

(** C6. For every [count >= 0], [SNDDMA_Capture count data] returns and
    writes exactly the first [2 * count] bytes of the buffer of the caller:
    the bytes the capture stream supplies, then zero bytes up to
    [2 * count]. Without a capture stream all [2 * count] bytes are zero;
    when the stream supplies [k < count] samples, the last [count - k]
    samples are zero. *)
Theorem capture_fills count data m :
  0 <= count -> 2 * count <= Int32.INT_MAX ->
  2 * count <= Z.of_nat (length data) ->
  let supplied := capture_supply m (2 * count) in
  exists m',
    SNDDMA_Capture count data m
    = Some (supplied
            ++ replicate (Z.to_nat (2 * count) - length supplied) zero_byte
            ++ drop (Z.to_nat (2 * count)) data, m') /\
    (length supplied <= Z.to_nat (2 * count))%nat /\
    (sdlCaptureStream m = None ->
     supplied = [] /\ m' = m) /\
    (forall k, Z.of_nat (length supplied) = 2 * k ->
       length (replicate (Z.to_nat (2 * count) - length supplied) zero_byte)
       = Z.to_nat (2 * (count - k))).
Proof.
  intros Hcount Hmax Hfit. cbv zeta.
  assert (Hbytes : Int32.mul count 2 = 2 * count).
  { unfold Int32.mul. rewrite Int32.wrap_small; [lia |].
    unfold Int32.in_range, Int32.INT_MIN, Int32.INT_MAX in *. lia. }
  assert (Hzero : memset_zero data 0 (2 * count)
                  = Some (replicate (Z.to_nat (2 * count)) zero_byte
                          ++ drop (Z.to_nat (2 * count)) data)).
  { apply (memset_zero_tail [] data); lia. }
  unfold SNDDMA_Capture, capture_supply, bind, get, ret, lift.
  rewrite Hbytes.
  destruct (sdlCaptureStream m) as [h |].
  - unfold SDL_GetAudioStreamData.
    destruct (streams m !! h) as [s |].
    + replace (2 * count <? 0) with false by lia.
      set (out := take (Z.to_nat (2 * count)) (queued s)).
      assert (Hout : (length out <= Z.to_nat (2 * count))%nat)
        by (subst out; rewrite length_take; lia).
      rewrite write_front by lia. cbn [fst snd].
      replace (Z.of_nat (length out) <? 0) with false by lia.
      destruct (Z.of_nat (length out) <? 2 * count) eqn:Hshort.
      * unfold Int32.sub. rewrite Int32.wrap_small
          by (unfold Int32.in_range, Int32.INT_MIN, Int32.INT_MAX in *; lia).
        rewrite memset_zero_tail by (rewrite ?length_drop; lia).
        rewrite drop_drop.
        replace (Z.to_nat (2 * count - Z.of_nat (length out)))
          with (Z.to_nat (2 * count) - length out)%nat by lia.
        replace (length out + (Z.to_nat (2 * count) - length out))%nat
          with (Z.to_nat (2 * count)) by lia.
        eexists. split; [reflexivity |]. split; [exact Hout |].
        split; [discriminate |]. intros k Hk. rewrite length_replicate. lia.
      * replace (Z.to_nat (2 * count) - length out)%nat with 0%nat by lia.
        replace (Z.to_nat (2 * count)) with (length out) by lia.
        eexists. split; [reflexivity |]. split; [lia |].
        split; [discriminate |]. intros k Hk. cbn. lia.
    + cbn [fst snd Z.ltb Z.compare]. cbn [length]. rewrite Nat.sub_0_r.
      destruct (0 <? 2 * count) eqn:Hpos.
      * unfold Int32.sub. rewrite Z.sub_0_r, Int32.wrap_small
          by (unfold Int32.in_range, Int32.INT_MIN, Int32.INT_MAX in *; lia).
        rewrite Hzero. eexists. split; [reflexivity |].
        split; [lia |]. split; [discriminate |].
        intros k Hk. rewrite length_replicate. lia.
      * replace (2 * count) with 0 by lia. cbn.
        eexists. split; [reflexivity |]. split; [lia |].
        split; [discriminate |]. intros k Hk. rewrite length_replicate. lia.
  - rewrite Hzero. cbn [length app]. rewrite Nat.sub_0_r.
    eexists. split; [reflexivity |]. split; [lia |]. split; [auto |].
    intros k Hk. rewrite length_replicate. cbn in Hk. lia.
Qed.

Lemma capture_fills_witness :
  let supplied := capture_supply (capture_machine [x0a; x0b]) (2 * 3) in
  exists m',
    SNDDMA_Capture 3 (replicate 8 xff) (capture_machine [x0a; x0b])
    = Some (supplied
            ++ replicate (Z.to_nat (2 * 3) - length supplied) zero_byte
            ++ drop (Z.to_nat (2 * 3)) (replicate 8 xff), m') /\
    (length supplied <= Z.to_nat (2 * 3))%nat /\
    (sdlCaptureStream (capture_machine [x0a; x0b]) = None ->
     supplied = [] /\ m' = capture_machine [x0a; x0b]) /\
    (forall k, Z.of_nat (length supplied) = 2 * k ->
       length (replicate (Z.to_nat (2 * 3) - length supplied) zero_byte)
       = Z.to_nat (2 * (3 - k))).
Proof.
  apply (capture_fills 3 (replicate 8 xff) (capture_machine [x0a; x0b])).
  - lia.
  - vm_compute. discriminate.
  - vm_compute. discriminate.
Defined.

(** One sample is queued and three are asked for: the sample, two samples
    of zero bytes, and the rest of the buffer as it was. *)
Example capture_one_of_three :
  fst <$> SNDDMA_Capture 3 (replicate 8 xff) (capture_machine [x0a; x0b])
  = Some [x0a; x0b; x00; x00; x00; x00; xff; xff].
Proof. vm_compute. reflexivity. Qed.

(** ** Stepping through a computation

    The rules for [wp] take a computation apart one call at a time; the
    machine is carried along as the setters applied so far. *)

Lemma wp_ret {A} (a : A) m Q : Q a m -> wp (ret a) m Q.
Proof. intros H a' m' [= <- <-]. exact H. Qed.

Lemma wp_bind {A B} (c : M A) (k : A -> M B) m Q :
  wp c m (fun a m1 => wp (k a) m1 Q) -> wp (bind c k) m Q.
Proof.
  intros H b m'. unfold bind. destruct (c m) as [[a m1] |] eqn:E; [| discriminate].
  apply (H a m1 E).
Qed.

Lemma wp_modify f m Q : Q tt (f m) -> wp (modify f) m Q.
Proof. intros H a m' [= <- <-]. exact H. Qed.

Lemma wp_get m Q : Q m m -> wp get m Q.
Proof. intros H a m' [= <- <-]. exact H. Qed.

Lemma wp_fault {A} m (Q : A -> machine -> Prop) : wp fault m Q.
Proof. intros a m' [=]. Qed.

Lemma wp_update_stream h f m Q :
  (forall ok, Q ok (set_streams (alter f h (streams m)) m)) ->
  wp (update_stream h f) m Q.
Proof.
  intros H ok m'. unfold update_stream.
  destruct (streams m !! h) as [s |] eqn:E; intros [= <- <-].
  - replace (<[h := f s]> (streams m)) with (alter f h (streams m)); [apply H |].
    apply map_eq. intros i. destruct (decide (i = h)) as [-> | Hne].
    + rewrite lookup_alter_eq, lookup_insert_eq, E. reflexivity.
    + rewrite lookup_alter_ne, lookup_insert_ne by congruence. reflexivity.
  - specialize (H false).
    replace (alter f h (streams m)) with (streams m) in H;
      [rewrite set_streams_id in H; exact H |].
    apply map_eq. intros i. destruct (decide (i = h)) as [-> | Hne].
    + rewrite lookup_alter_eq, E. reflexivity.
    + rewrite lookup_alter_ne by congruence. reflexivity.
Qed.

Lemma wp_deref_cvar p m Q :
  (forall c, deref_cvar p m = Some (c, m) -> Q c m) -> wp (deref_cvar p) m Q.
Proof.
  intros H c m' Hc. assert (m' = m) as ->; [| apply H, Hc].
  unfold deref_cvar in Hc. destruct (p m); [| discriminate].
  destruct (cvars m !! s); congruence.
Qed.

Lemma wp_cvar_value_int p m Q :
  (forall z, cvar_value_int p m = Some (z, m) -> Q z m) ->
  wp (cvar_value_int p) m Q.
Proof.
  intros H z m' Hz. assert (m' = m) as ->; [| apply H, Hz].
  unfold cvar_value_int, bind in Hz.
  destruct (deref_cvar p m) as [[c m1] |] eqn:E; [| discriminate].
  apply (wp_deref_cvar p m (fun _ m1 => m1 = m)) in E; [subst m1 | auto].
  destruct (_ && _); [injection Hz; auto | discriminate].
Qed.

Lemma wp_when b c m Q :
  (b = true -> wp c m Q) -> (b = false -> Q tt m) -> wp (when b c) m Q.
Proof. destruct b; cbn; intros H1 H2; [auto | apply wp_ret; auto]. Qed.

Ltac wp_step :=
  lazymatch goal with
  | |- wp (bind _ _) _ _ => apply wp_bind
  | |- wp (ret _) _ _ => apply wp_ret
  | |- wp (modify _) _ _ => apply wp_modify
  | |- wp get _ _ => apply wp_get
  | |- wp fault _ _ => apply wp_fault
  | |- wp (print _ _) _ _ => apply wp_modify
  | |- wp (dprint _ _) _ _ => apply wp_modify
  | |- wp (update_stream _ _) _ _ => apply wp_update_stream; intros ?
  | |- wp (deref_cvar _) _ _ => apply wp_deref_cvar; intros ? ?
  | |- wp (cvar_value_int _) _ _ => apply wp_cvar_value_int; intros ? ?
  | |- wp (when _ _) _ _ => apply wp_when; intros ?
  | |- wp (if ?b then _ else _) _ _ =>
      let Hb := fresh "Hb" in
      destruct b eqn:Hb;
      try solve [cbn [negb] in Hb; lazy beta iota in Hb; discriminate]
  | |- wp (match ?x with _ => _ end) _ _ =>
      let Hx := fresh "Hx" in
      destruct x eqn:Hx; try solve [lazy beta iota in Hx; discriminate]
  end; cbv beta;
  (* name the machine reached, so that the goal stays small *)
  try lazymatch goal with
      | |- wp _ ?m _ => tryif is_var m then idtac
                        else (let x := fresh "m" in set (x := m))
      end.

(** ** C8: shutdown *)

Lemma SNDDMA_Shutdown_returns m : exists m', SNDDMA_Shutdown m = Some (tt, m').
Proof.
  unfold SNDDMA_Shutdown, bind, get, ret, print, modify,
    SDL_DestroyAudioStream, SDL_QuitSubSystem.
  destruct (sdlPlaybackStream m), (sdlCaptureStream m); eauto.
Qed.

Lemma SNDDMA_Shutdown_effect m :
  wp SNDDMA_Shutdown m (fun _ m' =>
    shut_down m' /\
    sdlPlaybackDevice m'
    = (if sdlPlaybackStream m is Some _ then 0 else sdlPlaybackDevice m) /\
    sdlCaptureDevice m'
    = (if sdlCaptureStream m is Some _ then 0 else sdlCaptureDevice m) /\
    (sdlPlaybackStream m = None -> sdlCaptureStream m = None ->
     set_console (console m) (set_audio_refs (audio_refs m) m')
     = set_dmapos 0 (set_dmasize 0 (set_snd_inited false
         (set_dma (set_buffer None (dma m)) m))))).
Proof.
  unfold SNDDMA_Shutdown, SDL_DestroyAudioStream, SDL_QuitSubSystem, shut_down.
  repeat wp_step; repeat split;
    first [reflexivity | assumption | discriminate].
Qed.

(** C8. [SNDDMA_Shutdown] returns from every state, initialised or not,
    and leaves the cursor and the size at 0, the buffer pointer and the
    two stream pointers null and the initialised flag cleared; a device id
    is 0 afterwards when its stream was open or when it was 0 already.
    A second call returns as well and changes no variable of the component
    and no stream: only the console and the reference count of the audio
    subsystem can differ. *)
Theorem shutdown_idempotent m :
  exists m1 m2,
    SNDDMA_Shutdown m = Some (tt, m1) /\ shut_down m1 /\
    sdlPlaybackDevice m1
    = (if sdlPlaybackStream m is Some _ then 0 else sdlPlaybackDevice m) /\
    sdlCaptureDevice m1
    = (if sdlCaptureStream m is Some _ then 0 else sdlCaptureDevice m) /\
    SNDDMA_Shutdown m1 = Some (tt, m2) /\ shut_down m2 /\
    set_console (console m1) (set_audio_refs (audio_refs m1) m2) = m1.
Proof.
  destruct (SNDDMA_Shutdown_returns m) as [m1 H1].
  destruct (SNDDMA_Shutdown_returns m1) as [m2 H2].
  destruct (SNDDMA_Shutdown_effect m tt m1 H1) as (Hdown1 & Hp1 & Hc1 & _).
  destruct (SNDDMA_Shutdown_effect m1 tt m2 H2) as (Hdown2 & _ & _ & Hsame).
  exists m1, m2. repeat split; try assumption; try apply Hdown1; try apply Hdown2.
  destruct Hdown1 as (Hpos & Hsize & Hbuf & Hps & Hcs & Hin).
  rewrite (Hsame Hps Hcs). clear -Hpos Hsize Hbuf Hin.
  destruct m1 as [? ? ? ? ? ? ? ? ? ? ? ? ? ? d ? ? ? ?]. destruct d.
  cbn in *. subst. reflexivity.
Qed.

(** ** Initialisation *)

Lemma wp_Cvar_Get name default m Q :
  Q (Some name) (set_cvars (cvar_register name default (cvars m)) m) ->
  wp (Cvar_Get name default) m Q.
Proof. intros H a m' [= <- <-]. exact H. Qed.

Ltac init_step :=
  lazymatch goal with
  | |- wp (Cvar_Get _ _) _ _ => apply wp_Cvar_Get; cbv beta
  | |- wp (SDL_Init _) _ _ => unfold SDL_Init
  | |- wp (SDL_OpenAudioDeviceStream _) _ _ => unfold SDL_OpenAudioDeviceStream
  | |- wp (SDL_DestroyAudioStream _) _ _ => unfold SDL_DestroyAudioStream
  | |- wp SDL_QuitSubSystem _ _ => unfold SDL_QuitSubSystem
  | |- wp (close_playback _) _ _ => unfold close_playback
  | |- wp (open_capture _) _ _ => unfold open_capture
  | |- wp (SNDDMA_PrintAudiospec _ _ _) _ _ => unfold SNDDMA_PrintAudiospec
  | |- wp (SDL_PauseAudioStreamDevice _) _ _ => unfold SDL_PauseAudioStreamDevice
  | |- wp (SDL_ResumeAudioStreamDevice _) _ _ => unfold SDL_ResumeAudioStreamDevice
  | |- wp (SDL_SetAudioStreamGain _ _) _ _ => unfold SDL_SetAudioStreamGain
  | |- _ => wp_step
  end.

Lemma delete_fresh_insert (table : gmap nat SDL_AudioStream) s :
  delete (fresh (dom table)) (<[fresh (dom table) := s]> table) = table.
Proof. apply delete_insert_id, not_elem_of_dom, is_fresh. Qed.

Lemma SNDDMA_Init_unwinds env m :
  sdlPlaybackStream m = None -> sdlPlaybackDevice m = 0 ->
  buffer (dma m) = None ->
  wp (SNDDMA_Init env) m (fun r m' => r = false -> unwound m m').
Proof.
  intros Hps Hpd Hbuf. unfold SNDDMA_Init, unwound.
  repeat init_step; intros Hr; try discriminate.
  all: repeat split; try first [reflexivity | assumption].
  all: exact (delete_fresh_insert (streams m) new_stream).
Qed.

(** C7, as stated, fails: when the ring cannot be allocated the call
    fails, and [dmasize] and the format fields of [dma] keep the values
    written before the allocation. *)
Lemma failed_allocation_keeps_sizes :
  exists m',
    SNDDMA_Init platform_no_memory boot = Some (false, m') /\
    dmasize boot = 0 /\ dmasize m' = 40960 /\ samples (dma m') = 20480 /\
    ~ state_as_before boot m'.
Proof.
  eexists. split; [vm_compute; reflexivity |].
  split; [reflexivity |]. split; [reflexivity |]. split; [reflexivity |].
  intros (_ & _ & Hsize & _). vm_compute in Hsize. discriminate.
Qed.

(** C7, amended. Whenever [SNDDMA_Init] returns failure from a state with
    no playback stream and no ring, every resource the call acquired has
    been released: the stream it opened is destroyed (the streams of SDL
    are those of before), the stream pointer is null and the device id 0,
    the audio subsystem has the reference count of before, no ring is
    allocated, the initialised flag is clear, and the capture handle and
    the gain are untouched. *)
Theorem init_failure_unwinds env m m' :
  closed m -> SNDDMA_Init env m = Some (false, m') -> unwound m m'.
Proof.
  intros (Hps & Hpd & Hbuf) Hinit.
  exact (SNDDMA_Init_unwinds env m Hps Hpd Hbuf false m' Hinit eq_refl).
Qed.

Lemma init_failure_unwinds_witness :
  unwound boot (after_init platform_no_memory boot).
Proof.
  apply (init_failure_unwinds platform_no_memory boot).
  - repeat split.
  - vm_compute. reflexivity.
Defined.

(** ** C5: the size of the ring in samples *)

Lemma init_samples_ring_samples override frames nchannels :
  Int32.in_range override -> 0 < nchannels ->
  nchannels * 2048 <= Int32.INT_MAX ->
  Int32.in_range (frames * nchannels * 10) ->
  init_samples override frames nchannels
  = ring_samples override frames nchannels.
Proof.
  unfold init_samples, ring_samples, Int32.mul, Int32.sub, Int32.rem.
  intros Ho Hch Hfall Hprod.
  assert (Hfc : Int32.in_range (frames * nchannels))
    by (unfold Int32.in_range, Int32.INT_MIN, Int32.INT_MAX in *; nia).
  rewrite (Int32.wrap_small (frames * nchannels)) by exact Hfc.
  rewrite (Int32.wrap_small (frames * nchannels * 10)) by exact Hprod.
  rewrite (Int32.wrap_small (nchannels * 2048))
    by (unfold Int32.in_range, Int32.INT_MIN, Int32.INT_MAX in *; lia).
  cbv zeta.
  set (wanted := if override =? 0 then frames * nchannels * 10 else override).
  assert (Hw : Int32.in_range wanted) by (subst wanted; destruct (override =? 0); auto).
  set (wanted' := if wanted <=? 0 then nchannels * 2048 else wanted).
  assert (Hw' : 0 < wanted' <= Int32.INT_MAX).
  { subst wanted'. unfold Int32.in_range in Hw.
    destruct (wanted <=? 0) eqn:E; lia. }
  rewrite Z.rem_mod_nonneg by lia.
  pose proof (Z.mod_pos_bound wanted' nchannels Hch).
  apply Int32.wrap_small.
  unfold Int32.in_range, Int32.INT_MIN, Int32.INT_MAX in *. lia.
Qed.

Lemma ring_samples_multiple override frames nchannels :
  0 < nchannels -> (nchannels | ring_samples override frames nchannels).
Proof.
  intros Hch. unfold ring_samples. cbv zeta.
  match goal with |- (_ | ?w - ?w mod _) => exists (w / nchannels);
    pose proof (Z.div_mod w nchannels ltac:(lia)) end.
  lia.
Qed.

Lemma cvar_register_lookup name default (table : gmap string cvar_t) n c :
  table !! n = Some c -> cvar_register name default table !! n = Some c.
Proof.
  intros H. unfold cvar_register.
  destruct (table !! name) eqn:E; [exact H |].
  rewrite lookup_insert_ne; [exact H | congruence].
Qed.

Lemma cvar_value_int_stable p m m' z :
  cvar_value_int p m = Some (z, m) -> p m' = p m ->
  (forall n c, cvars m !! n = Some c -> cvars m' !! n = Some c) ->
  cvar_value_int p m' = Some (z, m') /\ Int32.in_range z.
Proof.
  unfold cvar_value_int, bind, deref_cvar. intros H Hp Hc. rewrite Hp.
  destruct (p m) as [name |]; [| discriminate].
  destruct (cvars m !! name) as [c |] eqn:E; [| discriminate].
  rewrite (Hc name c E).
  destruct ((Int32.INT_MIN <=? int_of_float (value c))
            && (int_of_float (value c) <=? Int32.INT_MAX)) eqn:Hr;
    [| discriminate].
  injection H as <-. split; [reflexivity |].
  apply andb_true_iff in Hr. unfold Int32.in_range. lia.
Qed.

Lemma SNDDMA_Init_samples env m obtained frames :
  snd_inited m = false -> env_SDL_Init env = true ->
  env_open_playback env = true -> env_playback_device env <> 0 ->
  env_device_format env = Some (obtained, frames) ->
  wp (SNDDMA_Init env) m (fun r m' =>
    exists override,
      cvar_value_int s_sdlMixSamps m' = Some (override, m') /\
      Int32.in_range override /\
      samples (dma m')
      = init_samples override frames (spec_channels obtained)).
Proof.
  intros Hinit Hsdl Hopen Hdev Hfmt. unfold SNDDMA_Init.
  apply wp_bind, wp_get. cbv beta. rewrite Hinit.
  unfold SDL_Init, SDL_OpenAudioDeviceStream.
  rewrite Hsdl, Hopen, Hfmt.
  replace (env_playback_device env =? 0) with false by lia.
  cbn [negb].
  repeat init_step.
  all: match goal with
       | E : cvar_value_int s_sdlMixSamps ?mk = Some (?z, _)
         |- exists _, cvar_value_int _ ?mf = _ /\ _ =>
           exists z;
           assert (Hstable : cvar_value_int s_sdlMixSamps mf = Some (z, mf)
                             /\ Int32.in_range z)
             by (apply (cvar_value_int_stable s_sdlMixSamps mk mf z E);
                 [ reflexivity
                 | intros ? ? Hn;
                   first [exact Hn
                         | exact (cvar_register_lookup _ _ _ _ _ Hn)] ]);
           destruct Hstable as [Hv Hz];
           split; [exact Hv | split; [exact Hz | reflexivity]]
       end.
Qed.

(** C5. During initialisation, once the format of the device is known,
    [dma.samples] is the mix-samples override when that is not 0, and
    otherwise [frames * channels * 10]; when that value is 0 or negative
    it is [channels * 2048] instead; and in every case it is then rounded
    down to a multiple of the channel count. (The channel count is
    positive and the products fit an [int].) *)
Theorem ring_sample_count env m r m' obtained frames :
  SNDDMA_Init env m = Some (r, m') ->
  snd_inited m = false -> env_SDL_Init env = true ->
  env_open_playback env = true -> env_playback_device env <> 0 ->
  env_device_format env = Some (obtained, frames) ->
  0 < spec_channels obtained ->
  spec_channels obtained * 2048 <= Int32.INT_MAX ->
  Int32.in_range (frames * spec_channels obtained * 10) ->
  exists override,
    cvar_value_int s_sdlMixSamps m' = Some (override, m') /\
    samples (dma m') = ring_samples override frames (spec_channels obtained) /\
    (spec_channels obtained | samples (dma m')).
Proof.
  intros Hrun Hinit Hsdl Hopen Hdev Hfmt Hch Hfall Hprod.
  destruct (SNDDMA_Init_samples env m obtained frames Hinit Hsdl Hopen Hdev
              Hfmt r m' Hrun) as (override & Hread & Hrange & Hsamples).
  exists override. split; [exact Hread |].
  rewrite Hsamples, init_samples_ring_samples by assumption.
  split; [reflexivity | apply ring_samples_multiple, Hch].
Qed.

Lemma ring_sample_count_witness :
  exists override,
    cvar_value_int s_sdlMixSamps (after_init platform (configured 4097))
    = Some (override, after_init platform (configured 4097)) /\
    samples (dma (after_init platform (configured 4097)))
    = ring_samples override 1024 2 /\
    (2 | samples (dma (after_init platform (configured 4097)))).
Proof.
  apply (ring_sample_count platform (configured 4097) true
           (after_init platform (configured 4097))
           {| format := AUDIO_S16LSB; spec_channels := 2; freq := 44100 |}
           1024).
  - vm_compute. reflexivity.
  - reflexivity.
  - reflexivity.
  - reflexivity.
  - vm_compute. discriminate.
  - reflexivity.
  - vm_compute. reflexivity.
  - vm_compute. discriminate.
  - vm_compute. split; discriminate.
Defined.

(** The two scenarios of the specification. *)
Example override_4097_stereo :
  samples (dma (after_init platform (configured 4097))) = 4096.
Proof. vm_compute. reflexivity. Qed.

Example no_override_stereo_1024_frames :
  samples (dma (after_init platform boot)) = 20480 /\
  dmasize (after_init platform boot) = 40960.
Proof. vm_compute. split; reflexivity. Qed.

(** A negative override is replaced like a derived count that is not
    positive. *)
Example negative_override_falls_back :
  samples (dma (after_init platform (configured (-5)))) = 4096.
Proof. vm_compute. reflexivity. Qed.

(** ** The states of the program *)

Lemma snd_wf_intro m size mem :
  dmasize m = size -> Int32.in_range size -> dmapos m = 0 ->
  buffer (dma m) = mem ->
  (forall b, mem = Some b -> Z.of_nat (length b) = size /\ 0 <= size) ->
  snd_wf m.
Proof.
  intros Hs Hr Hp Hb Hlen. unfold snd_wf. rewrite Hs, Hp, Hb.
  split; [exact Hr |]. split; [lia |].
  intros b Hmem. destruct (Hlen b Hmem). split; [assumption | lia].
Qed.

(** [SNDDMA_Init] keeps [snd_wf], whether it succeeds or fails. *)
Lemma SNDDMA_Init_wf env m :
  snd_wf m -> wp (SNDDMA_Init env) m (fun _ m' => snd_wf m').
Proof.
  intros Hwf. unfold SNDDMA_Init.
  repeat init_step.
  all: try exact Hwf.
  all: match goal with
       | Hx : (if ?c && (0 <=? ?size) then Some ?b else None) = ?mem
         |- snd_wf ?mf =>
           apply (snd_wf_intro mf size mem);
           [ reflexivity
           | unfold Int32.mul; apply Int32.wrap_in_range
           | reflexivity
           | first [reflexivity | exact Hx]
           | intros b' Hb'; try discriminate ]
       end.
  all: match goal with
       | Hx : (if ?c && (0 <=? ?size) then Some ?b else None) = _ |- _ =>
           destruct (c && (0 <=? size)) eqn:E; [| discriminate];
           apply andb_true_iff in E; destruct E as [_ E];
           assert (b' = b) as -> by congruence;
           apply Z.leb_le in E; rewrite length_replicate;
           split; [apply Z2Nat.id, E | exact E]
       end.
Qed.

Lemma SNDDMA_Shutdown_wf m :
  wp SNDDMA_Shutdown m (fun _ m' => snd_wf m').
Proof.
  intros [] m' H. destruct (SNDDMA_Shutdown_effect m tt m' H)
    as ((Hpos & Hsize & Hbuf & _) & _).
  apply (snd_wf_intro m' 0 None); auto.
  - unfold Int32.in_range, Int32.INT_MIN, Int32.INT_MAX. lia.
  - discriminate.
Qed.

(** The mixer keeps it as well. *)
Lemma paint_wf contents m :
  snd_wf m -> wp (paint contents) m (fun _ m' => snd_wf m').
Proof.
  intros (Hr & Hp & Hmem) [] m'. unfold paint.
  destruct (buffer (dma m)) as [mem |] eqn:Hb; [| discriminate].
  destruct (decide (length contents = length mem)) as [Hl |]; [| discriminate].
  intros [= <-]. destruct (Hmem mem eq_refl) as [Hlen Hoff].
  unfold snd_wf, bytesPerSample in *. cbn.
  split; [exact Hr |]. split; [exact Hp |].
  intros b [= <-]. split; [lia | exact Hoff].
Qed.

Example small_platform_ring_ok :
  SNDDMA_Init small_platform boot
  = Some (true, after_init small_platform boot) /\
  ring_ok (after_init small_platform boot).
Proof.
  split; [vm_compute; reflexivity |].
  unfold ring_ok, bytesPerSample.
  repeat split; try (vm_compute; congruence).
  exists (replicate 320 zero_byte). split; vm_compute; reflexivity.
Qed.

(** * Further properties of the sound back end *)

(** ** Silence and the arguments of the callback *)

(** X1. [SNDDMA_QueueSilence] returns for every length an [int] can
    hold and hands the stream exactly [max len 0] zero bytes, whatever the length is compared
    with the 4096 bytes of its buffer; nothing else changes, and nothing
    at all when the stream is not live. *)
Theorem queue_silence_exact stream len m :
  len <= Int32.INT_MAX ->
  exists m',
    SNDDMA_QueueSilence stream len m = Some (tt, m') /\
    dmapos m' = dmapos m /\ only_cursor_and_output stream m m' /\
    (forall s, streams m !! stream = Some s ->
       streams m' !! stream
       = Some (set_queued
                 (queued s ++ replicate (Z.to_nat (Z.max len 0)) zero_byte) s)) /\
    (streams m !! stream = None -> m' = m).
Proof.
  intros Hmax. rewrite SNDDMA_QueueSilence_spec by exact Hmax.
  replace (Z.to_nat (Z.max len 0)) with (Z.to_nat len) by lia.
  eexists. split; [reflexivity |].
  split; [apply put_frame |].
  split; [rewrite <- (set_dmapos_id_put stream); apply put_only_output |].
  split; [intros s Hs; apply put_lookup, Hs |].
  intros Hnone. unfold put. rewrite Hnone. reflexivity.
Qed.

Lemma queue_silence_exact_witness :
  exists m',
    SNDDMA_QueueSilence 0 10000 boot = Some (tt, m') /\
    dmapos m' = dmapos boot /\ only_cursor_and_output 0 boot m' /\
    (forall s, streams boot !! 0%nat = Some s ->
       streams m' !! 0%nat
       = Some (set_queued
                 (queued s ++ replicate (Z.to_nat (Z.max 10000 0)) zero_byte)
                 s)) /\
    (streams boot !! 0%nat = None -> m' = boot).
Proof.
  apply (queue_silence_exact 0%nat 10000 boot).
  vm_compute. discriminate.
Defined.

(** X2. The callback serves [additional_amount] when it is positive,
    whatever [total_amount] is, and [total_amount] otherwise; when neither
    is positive it returns at once: nothing is emitted and nothing
    changes, in any state. *)
Theorem callback_request_length stream a t t' m :
  (0 < a ->
   SNDDMA_AudioCallback stream a t m = SNDDMA_AudioCallback stream a t' m) /\
  (a <= 0 ->
   SNDDMA_AudioCallback stream a t m = SNDDMA_AudioCallback stream t t m) /\
  (a <= 0 -> t <= 0 -> SNDDMA_AudioCallback stream a t m = Some (tt, m)).
Proof.
  split; [| split].
  - intros Ha. unfold SNDDMA_AudioCallback.
    replace (a >? 0) with true by lia. reflexivity.
  - intros Ha. unfold SNDDMA_AudioCallback.
    replace (a >? 0) with false by lia.
    destruct (t >? 0); reflexivity.
  - intros Ha Ht. apply callback_idle. unfold requested.
    destruct (a >? 0); lia.
Qed.

(** ** What one invocation reads *)

(** X3. In an initialised state with a ring of [dmasize] bytes, one
    invocation for [len > 0] bytes, of any length, hands the stream the
    [len] bytes found from the byte offset of the cursor on, going round
    the ring: byte [k] of the output is byte
    [(dmapos * bytesPerSample + k) mod dmasize] of the ring. A request
    longer than the ring repeats the ring. *)
Theorem callback_reads_round_the_ring stream a t m mem s :
  ring_ok m -> buffer (dma m) = Some mem -> streams m !! stream = Some s ->
  Int32.in_range a -> Int32.in_range t -> 0 < requested a t ->
  exists out m',
    SNDDMA_AudioCallback stream a t m = Some (tt, m') /\
    streams m' !! stream = Some (set_queued (queued s ++ out) s) /\
    Z.of_nat (length out) = requested a t /\
    forall k, Z.of_nat k < requested a t ->
      out !! k
      = mem !! Z.to_nat ((dmapos m * bytesPerSample m + Z.of_nat k)
                         mod dmasize m).
Proof.
  intros Hok Hbuf Hs Ha Ht Hlen.
  destruct (callback_ring_ok stream a t m mem Hok Hbuf Ha Ht Hlen) as [Hcb _].
  destruct Hok as (_ & (mem' & Hb & Hm) & Hsz & _).
  assert (mem' = mem) by congruence. subst mem'.
  eexists _, _. split; [exact Hcb |].
  split; [cbn; apply put_lookup, Hs |].
  split; [rewrite length_ring_read; lia |].
  intros k Hk. rewrite lookup_ring_read, Hm by lia. reflexivity.
Qed.

Lemma callback_reads_round_the_ring_witness :
  exists out m',
    SNDDMA_AudioCallback 0 0 10 (ring_machine 8 [x01; x02; x03; x04])
    = Some (tt, m') /\
    streams m' !! 0%nat = Some (set_queued (queued idle_stream ++ out) idle_stream) /\
    Z.of_nat (length out) = requested 0 10 /\
    forall k, Z.of_nat k < requested 0 10 ->
      out !! k
      = [x01; x02; x03; x04]
          !! Z.to_nat ((dmapos (ring_machine 8 [x01; x02; x03; x04])
                        * bytesPerSample (ring_machine 8 [x01; x02; x03; x04])
                        + Z.of_nat k)
                       mod dmasize (ring_machine 8 [x01; x02; x03; x04])).
Proof.
  apply (callback_reads_round_the_ring 0%nat 0 10
           (ring_machine 8 [x01; x02; x03; x04]) [x01; x02; x03; x04]
           idle_stream).
  - apply ring_machine_ok; [cbn; lia | vm_compute; discriminate].
  - reflexivity.
  - vm_compute. reflexivity.
  - unfold Int32.in_range, Int32.INT_MIN, Int32.INT_MAX. lia.
  - unfold Int32.in_range, Int32.INT_MIN, Int32.INT_MAX. lia.
  - vm_compute. reflexivity.
Defined.

(** X4. Two invocations in a row, the first for a whole number of
    samples, leave the machine exactly as one invocation for the sum of
    their lengths: the same bytes reach the stream and the cursor ends at
    the same sample. *)
Theorem callback_requests_compose stream a1 t1 a2 t2 a3 t3 m :
  ring_ok m ->
  Int32.in_range a1 -> Int32.in_range t1 -> 0 < requested a1 t1 ->
  Int32.in_range a2 -> Int32.in_range t2 -> 0 < requested a2 t2 ->
  Int32.in_range a3 -> Int32.in_range t3 ->
  requested a3 t3 = requested a1 t1 + requested a2 t2 ->
  (bytesPerSample m | requested a1 t1) ->
  exists m1 m2,
    SNDDMA_AudioCallback stream a1 t1 m = Some (tt, m1) /\
    SNDDMA_AudioCallback stream a2 t2 m1 = Some (tt, m2) /\
    SNDDMA_AudioCallback stream a3 t3 m = Some (tt, m2).
Proof.
  intros Hok Ha1 Ht1 Hl1 Ha2 Ht2 Hl2 Ha3 Ht3 Hsum Hwhole.
  pose proof Hok as (_ & (mem & Hbuf & Hmem) & Hsz & Hw & Hsize & Hp).
  destruct (callback_ring_ok stream a1 t1 m mem Hok Hbuf Ha1 Ht1 Hl1)
    as [Hcb1 Hok1].
  destruct (callback_ring_ok stream a3 t3 m mem Hok Hbuf Ha3 Ht3 ltac:(lia))
    as [Hcb3 _].
  set (bps := bytesPerSample m) in *. set (S := samples (dma m)) in *.
  set (p1 := (dmapos m + requested a1 t1 / bps) mod S) in *.
  set (out1 := ring_read mem (dmapos m * bps) (requested a1 t1)) in *.
  set (m1 := set_dmapos p1 (put stream out1 m)) in *.
  destruct (put_frame stream out1 m) as (_ & _ & Hf3 & Hf4).
  assert (Hbuf1 : buffer (dma m1) = Some mem) by (cbn; rewrite Hf4; exact Hbuf).
  assert (Hbps1 : bytesPerSample m1 = bps)
    by (unfold bytesPerSample, bps; cbn; rewrite Hf4; reflexivity).
  assert (HS1 : samples (dma m1) = S) by (cbn; rewrite Hf4; reflexivity).
  destruct (callback_ring_ok stream a2 t2 m1 mem Hok1 Hbuf1 Ha2 Ht2 Hl2)
    as [Hcb2 _].
  rewrite Hbps1, HS1 in Hcb2. cbn [dmapos set_dmapos] in Hcb2.
  exists m1, (set_dmapos ((p1 + requested a2 t2 / bps) mod S)
                (put stream (ring_read mem (p1 * bps) (requested a2 t2)) m1)).
  split; [exact Hcb1 |]. split; [exact Hcb2 |].
  rewrite Hcb3. do 2 f_equal. subst m1.
  rewrite put_set_dmapos, put_put, set_dmapos_twice.
  destruct Hwhole as [k Hk].
  assert (Hq1 : requested a1 t1 / bps = k) by (rewrite Hk, Z.div_mul; lia).
  assert (Hq3 : requested a3 t3 / bps = k + requested a2 t2 / bps).
  { rewrite Hsum, Hk, Z.add_comm, Z.div_add by lia. lia. }
  f_equal.
  - subst p1. rewrite Hq1, Hq3, Zplus_mod_idemp_l. f_equal. lia.
  - f_equal. subst out1. rewrite Hsum, ring_read_app by lia. f_equal.
    apply ring_read_congr. rewrite Hmem, Hsize. fold bps S.
    subst p1. rewrite Hq1, <- Z.mul_mod_distr_r by lia.
    rewrite Z.mul_add_distr_r, <- Hk, Z.mod_mod by lia. reflexivity.
Qed.

Lemma ring_machine_16_ok :
  ring_ok (ring_machine 16 [x01; x02; x03; x04]).
Proof.
  unfold ring_ok, bytesPerSample. cbn.
  repeat split; eauto; vm_compute; congruence.
Defined.

Lemma callback_requests_compose_witness :
  exists m1 m2,
    SNDDMA_AudioCallback 0 2 0 (ring_machine 16 [x01; x02; x03; x04])
    = Some (tt, m1) /\
    SNDDMA_AudioCallback 0 0 3 m1 = Some (tt, m2) /\
    SNDDMA_AudioCallback 0 5 0 (ring_machine 16 [x01; x02; x03; x04])
    = Some (tt, m2).
Proof.
  apply (callback_requests_compose 0%nat 2 0 0 3 5 0
           (ring_machine 16 [x01; x02; x03; x04])).
  - exact ring_machine_16_ok.
  - unfold Int32.in_range, Int32.INT_MIN, Int32.INT_MAX. lia.
  - unfold Int32.in_range, Int32.INT_MIN, Int32.INT_MAX. lia.
  - vm_compute. reflexivity.
  - unfold Int32.in_range, Int32.INT_MIN, Int32.INT_MAX. lia.
  - unfold Int32.in_range, Int32.INT_MIN, Int32.INT_MAX. lia.
  - vm_compute. reflexivity.
  - unfold Int32.in_range, Int32.INT_MIN, Int32.INT_MAX. lia.
  - unfold Int32.in_range, Int32.INT_MIN, Int32.INT_MAX. lia.
  - vm_compute. reflexivity.
  - exists 1. vm_compute. reflexivity.
Defined.

(** ** Painting, gain *)

Lemma update_stream_alter h f m :
  update_stream h f m
  = Some (bool_decide (is_Some (streams m !! h)),
          set_streams (alter f h (streams m)) m).
Proof.
  unfold update_stream. destruct (streams m !! h) as [s |] eqn:E.
  - rewrite bool_decide_eq_true_2 by eauto. do 3 f_equal.
    apply map_eq. intros i. destruct (decide (i = h)) as [-> | Hne].
    + rewrite lookup_alter_eq, lookup_insert_eq, E. reflexivity.
    + rewrite lookup_alter_ne, lookup_insert_ne by congruence. reflexivity.
  - rewrite bool_decide_eq_false_2 by (intros [? ?]; discriminate).
    do 2 f_equal. rewrite <- (set_streams_id m) at 1. f_equal.
    apply map_eq. intros i. destruct (decide (i = h)) as [-> | Hne].
    + rewrite lookup_alter_eq, E. reflexivity.
    + rewrite lookup_alter_ne by congruence. reflexivity.
Qed.

Lemma alter_alter (f g : SDL_AudioStream -> SDL_AudioStream) h
    (table : gmap nat SDL_AudioStream) :
  alter g h (alter f h table) = alter (fun s => g (f s)) h table.
Proof.
  apply map_eq. intros i. destruct (decide (i = h)) as [-> | Hne].
  - rewrite !lookup_alter_eq. destruct (table !! h); reflexivity.
  - rewrite !lookup_alter_ne by congruence. reflexivity.
Qed.

Lemma alter_same (f : SDL_AudioStream -> SDL_AudioStream) h
    (table : gmap nat SDL_AudioStream) :
  (forall s, f s = s) -> alter f h table = table.
Proof.
  intros Hf. apply map_eq. intros i. destruct (decide (i = h)) as [-> | Hne].
  - rewrite lookup_alter_eq. destruct (table !! h); cbn; [rewrite Hf |];
      reflexivity.
  - rewrite lookup_alter_ne by congruence. reflexivity.
Qed.

Lemma set_streams_twice a b m :
  set_streams a (set_streams b m) = set_streams a m.
Proof. reflexivity. Qed.

Lemma set_locks_back n s : set_locks (locks s) (set_locks n s) = s.
Proof. destruct s; reflexivity. Qed.

(** X5. [SNDDMA_BeginPainting] followed by [SNDDMA_Submit] leaves the
    machine exactly as it was: the lock taken on the playback stream is
    released and nothing else is touched; without a playback stream both
    calls do nothing. *)
Theorem painting_round_trip m :
  (SNDDMA_BeginPainting ;;; SNDDMA_Submit) m = Some (tt, m).
Proof.
  unfold SNDDMA_BeginPainting, SNDDMA_Submit, SDL_LockAudioStream,
    SDL_UnlockAudioStream, bind, get, ret.
  destruct (sdlPlaybackStream m) as [h |] eqn:Hh; [| rewrite Hh; reflexivity].
  rewrite update_stream_alter. cbn [sdlPlaybackStream set_streams].
  rewrite Hh, update_stream_alter. cbn [streams set_streams].
  rewrite alter_alter, alter_same by (intros s; apply set_locks_back).
  rewrite set_streams_twice, set_streams_id. reflexivity.
Qed.

(** What [SNDDMA_MasterGain] does, in one equation. *)
Lemma SNDDMA_MasterGain_eq v m :
  SNDDMA_MasterGain v m
  = Some (tt,
          set_streams
            (match sdlPlaybackStream m with
             | Some h => alter (set_gain v) h (streams m)
             | None => streams m
             end) (set_sdlMasterGain v m)).
Proof.
  unfold SNDDMA_MasterGain, SDL_SetAudioStreamGain, bind, get, ret, modify.
  cbn [sdlPlaybackStream set_sdlMasterGain].
  destruct (sdlPlaybackStream m) as [h |].
  - rewrite update_stream_alter. reflexivity.
  - reflexivity.
Qed.

(** X6. [SNDDMA_MasterGain val] records [val] in [sdlMasterGain] and sets
    it as the gain of the playback stream when there is one; no other
    stream and no other variable changes, and of two calls in a row only
    the second one counts. *)
Theorem master_gain_last_wins v1 v2 m :
  (SNDDMA_MasterGain v1 ;;; SNDDMA_MasterGain v2) m = SNDDMA_MasterGain v2 m /\
  exists m',
    SNDDMA_MasterGain v2 m = Some (tt, m') /\
    sdlMasterGain m' = v2 /\
    set_sdlMasterGain (sdlMasterGain m) (set_streams (streams m) m') = m /\
    (forall h s, sdlPlaybackStream m = Some h -> streams m !! h = Some s ->
       streams m' !! h = Some (set_gain v2 s)) /\
    (forall h, sdlPlaybackStream m <> Some h ->
       streams m' !! h = streams m !! h).
Proof.
  split.
  - unfold bind. rewrite !SNDDMA_MasterGain_eq.
    cbn [sdlPlaybackStream streams set_streams set_sdlMasterGain].
    destruct (sdlPlaybackStream m) as [h |]; [| reflexivity].
    rewrite alter_alter. reflexivity.
  - rewrite SNDDMA_MasterGain_eq. eexists. split; [reflexivity |].
    split; [reflexivity |]. split; [destruct m; reflexivity |].
    cbn [streams set_streams]. split.
    + intros h s -> Hs. rewrite lookup_alter_eq, Hs. reflexivity.
    + intros h Hne. destruct (sdlPlaybackStream m) as [h' |]; [| reflexivity].
      apply lookup_alter_ne. congruence.
Qed.

(** ** The capture stream *)

Lemma SNDDMA_StartCapture_eq m :
  SNDDMA_StartCapture m
  = Some (tt,
          match sdlCaptureStream m with
          | Some h =>
              set_streams
                (alter (fun s => set_paused false (set_queued [] s)) h
                   (streams m)) m
          | None => m
          end).
Proof.
  unfold SNDDMA_StartCapture, SDL_ClearAudioStream,
    SDL_ResumeAudioStreamDevice, bind, get, ret.
  destruct (sdlCaptureStream m) as [h |]; [| reflexivity].
  rewrite update_stream_alter, update_stream_alter.
  cbn [streams set_streams]. rewrite alter_alter, set_streams_twice.
  reflexivity.
Qed.

Lemma SNDDMA_StopCapture_eq m :
  SNDDMA_StopCapture m
  = Some (tt,
          match sdlCaptureStream m with
          | Some h => set_streams (alter (set_paused true) h (streams m)) m
          | None => m
          end).
Proof.
  unfold SNDDMA_StopCapture, SDL_PauseAudioStreamDevice, bind, get, ret.
  destruct (sdlCaptureStream m) as [h |]; [| reflexivity].
  rewrite update_stream_alter. reflexivity.
Qed.

(** The byte count SDL reports for the capture stream of [m]. *)
Lemma SNDDMA_AvailableCaptureSamples_eq m :
  SNDDMA_AvailableCaptureSamples m
  = Some (match sdlCaptureStream m with
          | Some h =>
              match streams m !! h with
              | Some s =>
                  let bytes :=
                    Z.min (Z.of_nat (length (queued s))) Int32.INT_MAX in
                  if bytes >? 0 then Int32.div bytes 2 else 0
              | None => 0
              end
          | None => 0
          end, m).
Proof.
  unfold SNDDMA_AvailableCaptureSamples, SDL_GetAudioStreamAvailable, bind,
    get, ret.
  destruct (sdlCaptureStream m) as [h |]; [| reflexivity].
  destruct (streams m !! h); reflexivity.
Qed.

(** X7. [SNDDMA_StartCapture] discards what the capture stream had
    buffered and starts its device: right after it
    [SNDDMA_AvailableCaptureSamples] returns 0, in every state; without a
    capture stream it does nothing. *)
Theorem start_capture_discards m :
  exists m',
    SNDDMA_StartCapture m = Some (tt, m') /\
    SNDDMA_AvailableCaptureSamples m' = Some (0, m') /\
    (forall h s, sdlCaptureStream m = Some h -> streams m !! h = Some s ->
       streams m' !! h = Some (set_paused false (set_queued [] s))) /\
    (sdlCaptureStream m = None -> m' = m).
Proof.
  rewrite SNDDMA_StartCapture_eq. eexists. split; [reflexivity |].
  rewrite SNDDMA_AvailableCaptureSamples_eq.
  destruct (sdlCaptureStream m) as [h |] eqn:Hh.
  - cbn [sdlCaptureStream streams set_streams]. rewrite Hh, lookup_alter_eq.
    split; [| split; [| discriminate]].
    + destruct (streams m !! h); reflexivity.
    + intros h' s [= <-] Hs. rewrite lookup_alter_eq, Hs. reflexivity.
  - rewrite Hh. split; [reflexivity |]. split; [discriminate | reflexivity].
Qed.

(** X8. [SNDDMA_StopCapture] pauses the device of the capture stream and
    keeps what is buffered: [SNDDMA_AvailableCaptureSamples] returns the
    same count after it as before, and no other stream changes. *)
Theorem stop_capture_keeps_data m :
  exists m' n,
    SNDDMA_StopCapture m = Some (tt, m') /\
    SNDDMA_AvailableCaptureSamples m = Some (n, m) /\
    SNDDMA_AvailableCaptureSamples m' = Some (n, m') /\
    (forall h s, sdlCaptureStream m = Some h -> streams m !! h = Some s ->
       streams m' !! h = Some (set_paused true s)) /\
    (forall h, sdlCaptureStream m <> Some h ->
       streams m' !! h = streams m !! h).
Proof.
  rewrite SNDDMA_StopCapture_eq. eexists _, _. split; [reflexivity |].
  rewrite !SNDDMA_AvailableCaptureSamples_eq. split; [reflexivity |].
  destruct (sdlCaptureStream m) as [h |] eqn:Hh.
  - cbn [sdlCaptureStream streams set_streams]. rewrite Hh, lookup_alter_eq.
    split; [| split].
    + destruct (streams m !! h); reflexivity.
    + intros h' s [= <-] Hs. rewrite lookup_alter_eq, Hs. reflexivity.
    + intros h' Hne. apply lookup_alter_ne. congruence.
  - rewrite Hh. split; [reflexivity |]. split; [discriminate | reflexivity].
Qed.

(** [SNDDMA_Capture] on a live capture stream, in one equation. *)
Lemma SNDDMA_Capture_live count data m h s :
  sdlCaptureStream m = Some h -> streams m !! h = Some s ->
  0 <= count -> 2 * count <= Int32.INT_MAX ->
  2 * count <= Z.of_nat (length data) ->
  let supplied := take (Z.to_nat (2 * count)) (queued s) in
  SNDDMA_Capture count data m
  = Some (supplied
          ++ replicate (Z.to_nat (2 * count) - length supplied) zero_byte
          ++ drop (Z.to_nat (2 * count)) data,
          set_streams
            (<[h := set_queued (drop (Z.to_nat (2 * count)) (queued s)) s]>
               (streams m)) m).
Proof.
  intros Hh Hs Hcount Hmax Hfit. cbv zeta.
  assert (Hbytes : Int32.mul count 2 = 2 * count).
  { unfold Int32.mul. rewrite Int32.wrap_small; [lia |].
    unfold Int32.in_range, Int32.INT_MIN, Int32.INT_MAX in *. lia. }
  unfold SNDDMA_Capture, bind, get, ret, lift. rewrite Hh, Hbytes.
  unfold SDL_GetAudioStreamData. rewrite Hs.
  replace (2 * count <? 0) with false by lia.
  set (out := take (Z.to_nat (2 * count)) (queued s)).
  assert (Hout : (length out <= Z.to_nat (2 * count))%nat)
    by (subst out; rewrite length_take; lia).
  rewrite write_front by lia. cbn [fst snd].
  replace (Z.of_nat (length out) <? 0) with false by lia.
  destruct (Z.of_nat (length out) <? 2 * count) eqn:Hshort.
  - unfold Int32.sub. rewrite Int32.wrap_small
      by (unfold Int32.in_range, Int32.INT_MIN, Int32.INT_MAX in *; lia).
    rewrite memset_zero_tail by (rewrite ?length_drop; lia).
    rewrite drop_drop.
    replace (Z.to_nat (2 * count - Z.of_nat (length out)))
      with (Z.to_nat (2 * count) - length out)%nat by lia.
    replace (length out + (Z.to_nat (2 * count) - length out))%nat
      with (Z.to_nat (2 * count)) by lia.
    reflexivity.
  - replace (Z.to_nat (2 * count) - length out)%nat with 0%nat by lia.
    replace (Z.to_nat (2 * count)) with (length out) at 2 by lia.
    reflexivity.
Qed.

(** X9. [SNDDMA_Capture] takes out of the capture stream exactly the
    bytes it hands to the caller: the bytes delivered followed by the bytes
    still queued are the bytes queued before, in the same order, and
    nothing else of the machine changes. *)
Theorem capture_consumes count data m h s :
  sdlCaptureStream m = Some h -> streams m !! h = Some s ->
  0 <= count -> 2 * count <= Int32.INT_MAX ->
  2 * count <= Z.of_nat (length data) ->
  exists supplied remaining data' m',
    SNDDMA_Capture count data m = Some (data', m') /\
    take (length supplied) data' = supplied /\
    streams m' !! h = Some (set_queued remaining s) /\
    supplied ++ remaining = queued s /\
    length supplied = Nat.min (Z.to_nat (2 * count)) (length (queued s)) /\
    (forall h', h' <> h -> streams m' !! h' = streams m !! h') /\
    set_streams (streams m) m' = m.
Proof.
  intros Hh Hs Hcount Hmax Hfit.
  pose proof (SNDDMA_Capture_live count data m h s Hh Hs Hcount Hmax Hfit)
    as Hcap. cbv zeta in Hcap.
  eexists (take (Z.to_nat (2 * count)) (queued s)),
    (drop (Z.to_nat (2 * count)) (queued s)), _, _.
  split; [exact Hcap |]. split; [apply take_app_length |].
  cbn [streams set_streams].
  split; [apply lookup_insert_eq |]. split; [apply take_drop |].
  split; [apply length_take |].
  split; [intros h' Hne; apply lookup_insert_ne; congruence |].
  destruct m; reflexivity.
Qed.

Lemma capture_consumes_witness :
  exists supplied remaining data' m',
    SNDDMA_Capture 1 (replicate 2 xff) (capture_machine [x0a; x0b; x0c])
    = Some (data', m') /\
    take (length supplied) data' = supplied /\
    streams m' !! 1%nat
    = Some (set_queued remaining (set_queued [x0a; x0b; x0c] new_stream)) /\
    supplied ++ remaining = queued (set_queued [x0a; x0b; x0c] new_stream) /\
    length supplied
    = Nat.min (Z.to_nat (2 * 1))
        (length (queued (set_queued [x0a; x0b; x0c] new_stream))) /\
    (forall h', h' <> 1%nat ->
       streams m' !! h' = streams (capture_machine [x0a; x0b; x0c]) !! h') /\
    set_streams (streams (capture_machine [x0a; x0b; x0c])) m'
    = capture_machine [x0a; x0b; x0c].
Proof.
  apply (capture_consumes 1 (replicate 2 xff)
           (capture_machine [x0a; x0b; x0c]) 1%nat
           (set_queued [x0a; x0b; x0c] new_stream)).
  - reflexivity.
  - vm_compute. reflexivity.
  - lia.
  - vm_compute. discriminate.
  - vm_compute. discriminate.
Defined.

(** X10. The capture stream is a queue: when it holds at least the
    [2 * c1] bytes of a first request, capturing [c1] samples and then
    [c2] samples gives the same bytes, and leaves the same machine, as
    capturing [c1 + c2] samples at once. *)
Theorem capture_is_fifo c1 c2 data1 data2 m h s :
  sdlCaptureStream m = Some h -> streams m !! h = Some s ->
  0 <= c1 -> 0 <= c2 -> 2 * (c1 + c2) <= Int32.INT_MAX ->
  Z.of_nat (length data1) = 2 * c1 -> Z.of_nat (length data2) = 2 * c2 ->
  2 * c1 <= Z.of_nat (length (queued s)) ->
  exists r1 m1 r2 m2,
    SNDDMA_Capture c1 data1 m = Some (r1, m1) /\
    SNDDMA_Capture c2 data2 m1 = Some (r2, m2) /\
    SNDDMA_Capture (c1 + c2) (data1 ++ data2) m = Some (r1 ++ r2, m2).
Proof.
  intros Hh Hs Hc1 Hc2 Hmax Hd1 Hd2 Hq.
  pose proof (SNDDMA_Capture_live c1 data1 m h s Hh Hs Hc1 ltac:(lia)
                ltac:(lia)) as H1. cbv zeta in H1.
  set (q := queued s) in *.
  set (m1 := set_streams
               (<[h := set_queued (drop (Z.to_nat (2 * c1)) q) s]> (streams m))
               m) in *.
  pose proof (SNDDMA_Capture_live c2 data2 m1 h
                (set_queued (drop (Z.to_nat (2 * c1)) q) s)
                ltac:(exact Hh) ltac:(apply lookup_insert_eq) Hc2 ltac:(lia)
                ltac:(lia)) as H2.
  cbv zeta in H2. cbn [queued set_queued] in H2.
  pose proof (SNDDMA_Capture_live (c1 + c2) (data1 ++ data2) m h s Hh Hs
                ltac:(lia) Hmax ltac:(rewrite length_app; lia)) as H3.
  cbv zeta in H3. fold q in H3.
  eexists _, m1, _, _. split; [exact H1 |]. split; [exact H2 |].
  rewrite H3. f_equal. f_equal.
  - rewrite !drop_ge by (rewrite ?length_app; lia). rewrite !app_nil_r.
    assert (Hlen : (Z.to_nat (2 * c1) <= length q)%nat) by (subst q; lia).
    replace (Z.to_nat (2 * c1) - length (take (Z.to_nat (2 * c1)) q))%nat
      with 0%nat by (rewrite length_take; lia).
    cbn [replicate]. rewrite app_nil_r.
    replace (Z.to_nat (2 * (c1 + c2)))
      with (Z.to_nat (2 * c1) + Z.to_nat (2 * c2))%nat by lia.
    rewrite <- take_take_drop, <- app_assoc. f_equal. f_equal.
    rewrite length_app, !length_take, length_drop.
    rewrite (drop_ge data2) by lia. rewrite app_nil_r. f_equal. lia.
  - subst m1. cbn [streams set_streams]. rewrite set_streams_twice.
    f_equal. rewrite insert_insert_eq, drop_drop.
    replace (Z.to_nat (2 * c1) + Z.to_nat (2 * c2))%nat
      with (Z.to_nat (2 * (c1 + c2))) by lia.
    destruct s; reflexivity.
Qed.

Lemma capture_is_fifo_witness :
  exists r1 m1 r2 m2,
    SNDDMA_Capture 1 [xff; xff] (capture_machine [x0a; x0b; x0c]) = Some (r1, m1) /\
    SNDDMA_Capture 1 [xfe; xfe] m1 = Some (r2, m2) /\
    SNDDMA_Capture (1 + 1) ([xff; xff] ++ [xfe; xfe])
      (capture_machine [x0a; x0b; x0c]) = Some (r1 ++ r2, m2).
Proof.
  apply (capture_is_fifo 1 1 [xff; xff] [xfe; xfe]
           (capture_machine [x0a; x0b; x0c]) 1%nat
           (set_queued [x0a; x0b; x0c] new_stream)).
  - reflexivity.
  - vm_compute. reflexivity.
  - lia.
  - lia.
  - vm_compute. discriminate.
  - reflexivity.
  - reflexivity.
  - vm_compute. discriminate.
Defined.

(** X11. A request for no sample, or for a negative number of samples,
    changes neither the buffer of the caller nor the machine when a
    capture stream exists. With no capture stream a request for no
    sample does nothing either, and a negative request is a fault: the
    zero fill is given a length no buffer has. *)
Theorem capture_nothing_requested count data m :
  count <= 0 -> Int32.INT_MIN <= 2 * count ->
  (sdlCaptureStream m <> None ->
   SNDDMA_Capture count data m = Some (data, m)) /\
  (sdlCaptureStream m = None ->
   SNDDMA_Capture count data m
   = if count <? 0 then None else Some (data, m)).
Proof.
  intros Hcount Hmin.
  assert (Hbytes : Int32.mul count 2 = 2 * count).
  { unfold Int32.mul. rewrite Int32.wrap_small; [lia |].
    unfold Int32.in_range, Int32.INT_MIN, Int32.INT_MAX in *. lia. }
  unfold SNDDMA_Capture, bind, get, ret, lift. rewrite Hbytes.
  split; intros Hstream.
  - destruct (sdlCaptureStream m) as [h |]; [clear Hstream | congruence].
    unfold SDL_GetAudioStreamData.
    destruct (streams m !! h) as [s |] eqn:Hs.
    + destruct (2 * count <? 0) eqn:Hneg.
      * cbn [fst snd]. replace (-1 <? 0) with true by reflexivity.
        replace (0 <? 2 * count) with false by lia. reflexivity.
      * assert (count = 0) as -> by lia.
        change (Z.to_nat (2 * 0)) with 0%nat. change (2 * 0) with 0.
        rewrite take_0, drop_0.
        rewrite (write_front data []) by (cbn [length]; lia).
        rewrite insert_id by (rewrite Hs; destruct s; reflexivity).
        rewrite set_streams_id. reflexivity.
    + cbn [fst snd]. replace (-1 <? 0) with true by reflexivity.
      replace (0 <? 2 * count) with false by lia. reflexivity.
  - rewrite Hstream. unfold memset_zero.
    destruct (count <? 0) eqn:Hneg.
    + replace (0 <=? 2 * count) with false by lia. reflexivity.
    + assert (count = 0) as -> by lia.
      change (0 <=? 2 * 0) with true. change (Z.to_nat (2 * 0)) with 0%nat.
      cbn [replicate].
      rewrite (write_front data []) by (cbn [length]; lia). reflexivity.
Qed.

Lemma capture_nothing_requested_witness :
  (sdlCaptureStream (capture_machine [x0a; x0b]) <> None ->
   SNDDMA_Capture (-3) [xff; xff] (capture_machine [x0a; x0b])
   = Some ([xff; xff], capture_machine [x0a; x0b])) /\
  (sdlCaptureStream (capture_machine [x0a; x0b]) = None ->
   SNDDMA_Capture (-3) [xff; xff] (capture_machine [x0a; x0b])
   = if -3 <? 0 then None else Some ([xff; xff], capture_machine [x0a; x0b])).
Proof.
  apply (capture_nothing_requested (-3) [xff; xff] (capture_machine [x0a; x0b])).
  - lia.
  - vm_compute. discriminate.
Defined.

(** The console after some more lines. *)
Lemma set_console_app l1 l2 m :
  set_console (console (set_console (console m ++ l1) m) ++ l2)
    (set_console (console m ++ l1) m)
  = set_console (console m ++ l1 ++ l2) m.
Proof. destruct m. cbn. rewrite <- app_assoc. reflexivity. Qed.

Lemma print_app fmt args l m :
  print fmt args (set_console (console m ++ l) m)
  = Some (tt, set_console (console m ++ l ++ [Com_Printf fmt args]) m).
Proof. unfold print, modify. rewrite set_console_app. reflexivity. Qed.

Lemma print_first fmt args m :
  print fmt args m = Some (tt, set_console (console m ++ [Com_Printf fmt args]) m).
Proof. reflexivity. Qed.

(** X12. [SNDDMA_PrintAudiospec] writes to the console and touches
    nothing else: four lines, and a fifth when the number of frames is
    positive. The second line names the format when it is one of the eight
    of [formatToStringTable], whose keys are distinct, and reads UNKNOWN in
    red for every other value. *)
Theorem print_audiospec_report str spec frames m :
  exists lines,
    SNDDMA_PrintAudiospec str spec frames m
    = Some (tt, set_console (console m ++ lines) m) /\
    length lines = (if frames >? 0 then 5 else 4)%nat /\
    (forall name, (format spec, name) ∈ formatToStringTable ->
       lines !! 1%nat = Some (Com_Printf "  Format:   %s\n" [ArgStr name])) /\
    ((forall name, (format spec, name) ∉ formatToStringTable) ->
       lines !! 1%nat = Some (Com_Printf "  Format:   ^1UNKNOWN\n" [])) /\
    lines !! 2%nat = Some (Com_Printf "  Freq:     %d\n" [ArgInt (freq spec)]) /\
    lines !! 3%nat
    = Some (Com_Printf "  Channels: %d\n" [ArgInt (spec_channels spec)]) /\
    (0 < frames ->
     lines !! 4%nat = Some (Com_Printf "  Frames:   %d\n" [ArgInt frames])).
Proof.
  unfold SNDDMA_PrintAudiospec.
  set (fmt := fold_left _ formatToStringTable None).
  exists ([Com_Printf "%s:\n" [ArgStr str];
           match fmt with
           | Some f => Com_Printf "  Format:   %s\n" [ArgStr f]
           | None => Com_Printf "  Format:   ^1UNKNOWN\n" []
           end;
           Com_Printf "  Freq:     %d\n" [ArgInt (freq spec)];
           Com_Printf "  Channels: %d\n" [ArgInt (spec_channels spec)]]
          ++ if frames >? 0
             then [Com_Printf "  Frames:   %d\n" [ArgInt frames]] else []).
  split; [| split; [| split; [| split; [| split; [| split]]]]].
  - unfold bind at 1. rewrite print_first.
    unfold bind at 1.
    assert (Hfmt : match fmt with
                   | Some f => print "  Format:   %s\n" [ArgStr f]
                   | None => print ("  Format:   " +:+ S_COLOR_RED +:+ "UNKNOWN\n") []
                   end (set_console (console m ++ [Com_Printf "%s:\n" [ArgStr str]]) m)
                   = Some (tt, set_console
                                 (console m ++ [Com_Printf "%s:\n" [ArgStr str]] ++
                                  [match fmt with
                                   | Some f => Com_Printf "  Format:   %s\n" [ArgStr f]
                                   | None => Com_Printf "  Format:   ^1UNKNOWN\n" []
                                   end]) m))
      by (destruct fmt; apply print_app).
    rewrite Hfmt. unfold bind at 1. rewrite print_app.
    unfold bind at 1. rewrite print_app.
    unfold when. destruct (frames >? 0).
    + rewrite print_app. reflexivity.
    + unfold ret. rewrite app_nil_r. reflexivity.
  - destruct (frames >? 0); reflexivity.
  - intros name Hin. cbn [lookup list_lookup app]. f_equal.
    unfold formatToStringTable in Hin.
    subst fmt. unfold formatToStringTable. cbn [fold_left fst snd].
    repeat (apply elem_of_cons in Hin as [Hin | Hin];
            [injection Hin as Hf ->; rewrite Hf; reflexivity |]).
    apply elem_of_nil in Hin. contradiction.
  - intros Hout. cbn [lookup list_lookup app]. f_equal.
    assert (Hne : forall k name, (k, name) ∈ formatToStringTable ->
                                 (format spec =? k) = false).
    { intros k name Hin. apply Z.eqb_neq. intros Heq. rewrite <- Heq in Hin.
      exact (Hout name Hin). }
    assert (Hall : Forall (fun e => (format spec =? e.1) = false)
                     formatToStringTable)
      by (apply Forall_forall; intros [k name] Hin; exact (Hne k name Hin)).
    subst fmt. unfold formatToStringTable in *. cbn [fold_left fst snd].
    repeat (apply Forall_cons in Hall as [Hk Hall]; cbn [fst] in Hk;
            rewrite Hk; clear Hk).
    reflexivity.
  - reflexivity.
  - reflexivity.
  - intros Hpos. replace (frames >? 0) with true by lia. reflexivity.
Qed.

(** ** Initialisation and shutdown as a pair *)

(** Reads [streams] through the machines named by the stepping tactics. *)
Ltac streams_back :=
  repeat match goal with
         | x := ?body : machine |- context [streams ?x'] =>
             constr_eq x x';
             lazymatch body with
             | set_streams ?t _ => change (streams x) with t
             | ?f _ ?y => change (streams x) with (streams y)
             end
         | |- context [streams (set_streams ?t ?y)] =>
             change (streams (set_streams t y)) with t
         | |- context [streams (?f ?v ?y)] =>
             change (streams (f v y)) with (streams y)
         end.

Lemma fresh_lookup (table : gmap nat SDL_AudioStream) :
  table !! fresh (dom table) = None.
Proof. apply not_elem_of_dom, is_fresh. Qed.

Lemma fresh_insert_ne (table : gmap nat SDL_AudioStream) h s :
  fresh (dom (<[h := s]> table)) <> h.
Proof.
  intros Heq. pose proof (fresh_lookup (<[h := s]> table)) as Hf.
  rewrite Heq, lookup_insert_eq in Hf. discriminate.
Qed.

Lemma fresh_insert_lookup (table : gmap nat SDL_AudioStream) h s :
  table !! fresh (dom (<[h := s]> table)) = None.
Proof.
  pose proof (fresh_lookup (<[h := s]> table)) as Hf.
  rewrite lookup_insert_ne in Hf; [exact Hf |].
  intros Heq. symmetry in Heq. exact (fresh_insert_ne table h s Heq).
Qed.

(** The handle read back from [sdlPlaybackStream] is the one just opened. *)
Ltac playback_handle m :=
  repeat match goal with
         | Hx : sdlPlaybackStream _ = Some ?n |- _ =>
             assert (n = fresh (dom (streams m))) as ->
               by (enough (Some n = Some (fresh (dom (streams m))))
                     by congruence;
                   rewrite <- Hx; reflexivity);
             clear Hx
         end.

Ltac stream_lookup :=
  repeat first
    [ rewrite lookup_alter_eq
    | rewrite lookup_insert_eq
    | rewrite lookup_alter_ne by
        first [ apply fresh_insert_ne
              | apply not_eq_sym, fresh_insert_ne | assumption
              | apply not_eq_sym; assumption ]
    | rewrite lookup_insert_ne by
        first [ apply fresh_insert_ne
              | apply not_eq_sym, fresh_insert_ne | assumption
              | apply not_eq_sym; assumption ] ].

Lemma SNDDMA_Init_success env m :
  snd_inited m = false ->
  wp (SNDDMA_Init env) m (fun r m' => r = true ->
    init_succeeded env m m' /\ capture_gated env m m').
Proof.
  intros Hinit. unfold SNDDMA_Init, init_succeeded, capture_gated,
    opened_capture, opened_playback, mumble_on.
  apply wp_bind, wp_get. cbv beta. rewrite Hinit.
  repeat init_step; intros Hr; try discriminate.
  all: playback_handle m.
  all: split.
  all: try (do 6 (split; [reflexivity |])).
  all: try (split; [streams_back; stream_lookup; reflexivity |]).
  all: try match goal with
       | Hb : (if ?c && (0 <=? ?size) then Some ?b else None) = Some ?l
         |- buffer (dma ?mf) = _ /\ _ =>
           let E := fresh "E" in
           assert (Hbuf : buffer (dma mf) = Some l) by reflexivity;
           assert (Hsize : dmasize mf = size) by reflexivity;
           destruct (c && (0 <=? size)) eqn:E; [| discriminate];
           apply andb_true_iff in E; destruct E as [_ E]; apply Z.leb_le in E;
           injection Hb as <-;
           split; [rewrite Hbuf, Hsize; reflexivity |];
           split; [rewrite Hsize; exact E |];
           split; [reflexivity |]; split; [reflexivity |];
           intros h' Hh1 Hh2; streams_back; stream_lookup; reflexivity
       end.
  all: match goal with
       | Hc : deref_cvar s_sdlCapture ?mk = Some (?c, _) |- exists _, _ =>
           exists c; split; [reflexivity |];
           split;
           [ unfold deref_cvar in Hc;
             change (s_sdlCapture mk) with (Some "s_sdlCapture"%string) in Hc;
             cbv beta iota in Hc;
             match goal with
             | |- cvars ?mf !! _ = _ => change (cvars mf) with (cvars mk)
             end;
             destruct (cvars mk !! "s_sdlCapture"%string); congruence
           |]
       end.
  all: repeat match goal with
              | Hb : (integer _ =? 0) = _ |- _ => rewrite Hb; clear Hb
              | Hb : match env_mumble _ with _ => _ end = _ |- _ =>
                  rewrite Hb; clear Hb
              | Hb : env_open_capture _ = _ |- _ => rewrite Hb; clear Hb
              end.
  all: cbn [orb].
  all: split; [reflexivity |]; split; [reflexivity |].
  all: streams_back; stream_lookup.
  all: first [reflexivity | apply fresh_insert_lookup].
Qed.

Lemma SNDDMA_Init_initialised env m :
  wp (SNDDMA_Init env) m (fun r m' => r = true -> snd_inited m' = true).
Proof.
  destruct (snd_inited m) eqn:Hinit.
  - intros r m' Hrun _. unfold SNDDMA_Init, bind, get, ret in Hrun.
    rewrite Hinit in Hrun. injection Hrun as _ <-. exact Hinit.
  - intros r m' Hrun Hr. subst r.
    apply (SNDDMA_Init_success env m Hinit true m' Hrun eq_refl).
Qed.

Lemma SNDDMA_Shutdown_streams m :
  wp SNDDMA_Shutdown m (fun _ m' =>
    audio_refs m' = Nat.pred (audio_refs m) /\
    forall h, streams m' !! h = if owned m h then None else streams m !! h).
Proof.
  unfold SNDDMA_Shutdown, SDL_DestroyAudioStream, SDL_QuitSubSystem.
  repeat wp_step.
  all: split; [reflexivity |].
  all: intros h; streams_back; unfold owned.
  all: repeat match goal with
              | Hx : sdlPlaybackStream _ = _ |- _ => rewrite Hx; clear Hx
              | Hx : sdlCaptureStream _ = _ |- _ => rewrite Hx; clear Hx
              end.
  all: repeat case_bool_decide; cbn [orb].
  all: repeat match goal with
              | H : Some _ = Some _ |- _ => injection H as H; subst
              | H : None = Some _ |- _ => discriminate H
              end.
  all: repeat first [ rewrite lookup_delete_eq
                    | rewrite lookup_delete_ne by congruence ].
  all: reflexivity.
Qed.

(** X13. When [SNDDMA_Init] succeeds from a state that was not
    initialised, the component is initialised and ready to play: the
    cursor is 0, the master gain 1, the audio subsystem holds one
    reference more, the playback stream is the one SDL just opened, empty,
    running, unlocked and at gain 1, the ring is a buffer of [dmasize] zero
    bytes, with [dmasize] the sample count times the sample size, and the
    only streams of SDL that differ from before are the ones the call
    opened. [SNDDMA_GetDMAPos] then reads 0. *)
Theorem init_success_state env m m' :
  snd_inited m = false -> SNDDMA_Init env m = Some (true, m') ->
  init_succeeded env m m' /\ streams m !! opened_playback m = None /\
  SNDDMA_GetDMAPos m' = Some (0, m').
Proof.
  intros Hinit Hrun.
  destruct (SNDDMA_Init_success env m Hinit true m' Hrun eq_refl) as [Hok _].
  split; [exact Hok |]. split; [apply fresh_lookup |].
  unfold SNDDMA_GetDMAPos. destruct Hok as (_ & -> & _). reflexivity.
Qed.

Lemma init_success_state_witness :
  init_succeeded small_platform boot (after_init small_platform boot) /\
  streams boot !! opened_playback boot = None /\
  SNDDMA_GetDMAPos (after_init small_platform boot)
  = Some (0, after_init small_platform boot).
Proof.
  apply (init_success_state small_platform boot
           (after_init small_platform boot)).
  - reflexivity.
  - vm_compute. reflexivity.
Defined.

(** X14. A successful [SNDDMA_Init] opens a capture stream only when
    the cvar [s_sdlCapture] is not 0 and Mumble is not in use. When it
    opens one, the stream is new, distinct from the playback stream, empty
    and left paused, and the device id is recorded; when SDL refuses, the
    capture pointer is null; when capture is disabled, the capture pointer
    and device id are those of before and no stream is opened for it. *)
Theorem init_capture_gating env m m' :
  snd_inited m = false -> SNDDMA_Init env m = Some (true, m') ->
  capture_gated env m m' /\ opened_capture m <> opened_playback m /\
  streams m !! opened_capture m = None.
Proof.
  intros Hinit Hrun.
  destruct (SNDDMA_Init_success env m Hinit true m' Hrun eq_refl) as [_ Hcap].
  split; [exact Hcap |].
  split; [apply fresh_insert_ne | apply fresh_insert_lookup].
Qed.

Lemma init_capture_gating_witness :
  capture_gated small_platform boot (after_init small_platform boot) /\
  opened_capture boot <> opened_playback boot /\
  streams boot !! opened_capture boot = None.
Proof.
  apply (init_capture_gating small_platform boot
           (after_init small_platform boot)).
  - reflexivity.
  - vm_compute. reflexivity.
Defined.

(** X15. Once [SNDDMA_Init] has succeeded, calling it again succeeds
    at once and changes nothing, whatever the platform would now answer. *)
Theorem init_twice env env' m m' :
  SNDDMA_Init env m = Some (true, m') ->
  SNDDMA_Init env' m' = Some (true, m').
Proof.
  intros Hrun.
  pose proof (SNDDMA_Init_initialised env m true m' Hrun eq_refl) as Hinit.
  unfold SNDDMA_Init, bind, get, ret. rewrite Hinit. reflexivity.
Qed.

Lemma init_twice_witness :
  SNDDMA_Init platform_no_memory (after_init small_platform boot)
  = Some (true, after_init small_platform boot).
Proof.
  apply (init_twice small_platform platform_no_memory boot).
  vm_compute. reflexivity.
Defined.

(** X16. [SNDDMA_Shutdown] destroys the playback stream and the
    capture stream of the component and no other stream of SDL, and gives
    back one reference to the audio subsystem. *)
Theorem shutdown_releases m :
  exists m',
    SNDDMA_Shutdown m = Some (tt, m') /\
    audio_refs m' = Nat.pred (audio_refs m) /\
    forall h, streams m' !! h = if owned m h then None else streams m !! h.
Proof.
  destruct (SNDDMA_Shutdown_returns m) as [m' Hrun].
  exists m'. split; [exact Hrun |].
  exact (SNDDMA_Shutdown_streams m tt m' Hrun).
Qed.

(** X17. Initialisation followed by shutdown leaks nothing: from a
    state with no capture stream, after a successful [SNDDMA_Init] and a
    [SNDDMA_Shutdown] the streams of SDL and the reference count of the
    audio subsystem are those of before, and the component is shut down. *)
Theorem init_then_shutdown env m m1 :
  snd_inited m = false -> sdlCaptureStream m = None ->
  SNDDMA_Init env m = Some (true, m1) ->
  exists m2,
    SNDDMA_Shutdown m1 = Some (tt, m2) /\ streams m2 = streams m /\
    audio_refs m2 = audio_refs m /\ shut_down m2.
Proof.
  intros Hinit Hnocap Hrun.
  destruct (SNDDMA_Init_success env m Hinit true m1 Hrun eq_refl)
    as [Hok (c & _ & _ & Hcap)].
  destruct Hok as (_ & _ & _ & Hrefs & Hps & _ & _ & _ & _ & _ & _ & Hframe).
  destruct (SNDDMA_Shutdown_returns m1) as [m2 Hdown].
  destruct (SNDDMA_Shutdown_streams m1 tt m2 Hdown) as [Hrefs2 Hstreams].
  destruct (SNDDMA_Shutdown_effect m1 tt m2 Hdown) as [Hshut _].
  exists m2. split; [exact Hdown |].
  split; [| split; [rewrite Hrefs2, Hrefs; reflexivity | exact Hshut]].
  apply map_eq. intros i. rewrite Hstreams. unfold owned. rewrite Hps.
  pose proof (fresh_lookup (streams m)) as Hfresh1.
  pose proof (fresh_insert_lookup (streams m) (opened_playback m) new_stream)
    as Hfresh2.
  fold (opened_playback m) in Hfresh1. fold (opened_capture m) in Hfresh2.
  destruct (decide (i = opened_playback m)) as [-> | Hne1].
  { rewrite bool_decide_eq_true_2 by reflexivity. cbn [orb]. congruence. }
  rewrite (bool_decide_eq_false_2 (Some (opened_playback m) = Some i))
    by congruence.
  cbn [orb].
  destruct (decide (i = opened_capture m)) as [-> | Hne2].
  - destruct ((integer c =? 0) || mumble_on env);
      [| destruct (env_open_capture env)];
      destruct Hcap as (Hcs & _ & Hlook); rewrite Hcs, ?Hnocap;
      case_bool_decide; congruence.
  - rewrite (Hframe i Hne1 Hne2).
    destruct ((integer c =? 0) || mumble_on env);
      [| destruct (env_open_capture env)];
      destruct Hcap as (Hcs & _ & _); rewrite Hcs, ?Hnocap;
      case_bool_decide; congruence.
Qed.

Lemma init_then_shutdown_witness :
  exists m2,
    SNDDMA_Shutdown (after_init small_platform boot) = Some (tt, m2) /\
    streams m2 = streams boot /\ audio_refs m2 = audio_refs boot /\
    shut_down m2.
Proof.
  apply (init_then_shutdown small_platform boot
           (after_init small_platform boot)).
  - reflexivity.
  - reflexivity.
  - vm_compute. reflexivity.
Defined.

(** ** The interface as a whole *)

Lemma ring_untouched_refl m : ring_untouched m m.
Proof. unfold ring_untouched. repeat split; reflexivity. Qed.

Lemma ring_untouched_alter f h v m :
  sdlPlaybackStream m = Some h \/ sdlCaptureStream m = Some h ->
  ring_untouched m
    (set_streams (alter f h (streams m)) (set_sdlMasterGain v m)).
Proof.
  intros Hh. unfold ring_untouched. repeat split; try reflexivity.
  intros h' Hp Hc. cbn [streams set_streams set_sdlMasterGain].
  apply lookup_alter_ne. destruct Hh; congruence.
Qed.

Lemma set_sdlMasterGain_id m : set_sdlMasterGain (sdlMasterGain m) m = m.
Proof. destruct m; reflexivity. Qed.

Lemma SNDDMA_BeginPainting_eq m :
  SNDDMA_BeginPainting m
  = Some (tt,
          match sdlPlaybackStream m with
          | Some h =>
              set_streams
                (alter (fun s => set_locks (S (locks s)) s) h (streams m)) m
          | None => m
          end).
Proof.
  unfold SNDDMA_BeginPainting, SDL_LockAudioStream, bind, get, ret.
  destruct (sdlPlaybackStream m) as [h |]; [| reflexivity].
  rewrite update_stream_alter. reflexivity.
Qed.

Lemma SNDDMA_Submit_eq m :
  SNDDMA_Submit m
  = Some (tt,
          match sdlPlaybackStream m with
          | Some h =>
              set_streams
                (alter (fun s => set_locks (Nat.pred (locks s)) s) h
                   (streams m)) m
          | None => m
          end).
Proof.
  unfold SNDDMA_Submit, SDL_UnlockAudioStream, bind, get, ret.
  destruct (sdlPlaybackStream m) as [h |]; [| reflexivity].
  rewrite update_stream_alter. reflexivity.
Qed.

Lemma SNDDMA_Capture_untouched samples data m :
  wp (SNDDMA_Capture samples data) m (fun _ m' => ring_untouched m m').
Proof.
  intros r m' H.
  unfold SNDDMA_Capture, bind, get, ret, lift, SDL_GetAudioStreamData in H.
  destruct (sdlCaptureStream m) as [h |] eqn:Hh.
  - destruct (streams m !! h) as [s |] eqn:Hs.
    + destruct (Int32.mul samples 2 <? 0).
      * cbn [fst snd] in H.
        repeat match type of H with
               | context [match ?x with _ => _ end] => destruct x
               end; try discriminate;
          injection H as _ <-; apply ring_untouched_refl.
      * destruct (write_bytes data 0 _) as [data' |]; [| discriminate].
        cbn [fst snd] in H.
        assert (Hm : ring_untouched m
                  (set_streams
                     (<[h := set_queued
                               (drop (Z.to_nat (Int32.mul samples 2))
                                  (queued s)) s]> (streams m)) m)).
        { unfold ring_untouched. repeat split; try reflexivity.
          intros h' _ Hc. cbn [streams set_streams].
          apply lookup_insert_ne. congruence. }
        repeat match type of H with
               | context [match ?x with _ => _ end] => destruct x
               end; try discriminate;
          injection H as _ <-; exact Hm.
    + cbn [fst snd] in H.
      repeat match type of H with
             | context [match ?x with _ => _ end] => destruct x
             end; try discriminate;
        injection H as _ <-; apply ring_untouched_refl.
  - destruct (memset_zero _ _ _); [| discriminate].
    injection H as _ <-. apply ring_untouched_refl.
Qed.

Lemma exec_auxiliary_untouched c m :
  auxiliary c = true -> wp (exec c) m (fun _ m' => ring_untouched m m').
Proof.
  intros Haux r m' H.
  destruct c as [env | | stream a t | contents | | | | | | | n d | v];
    try discriminate Haux; cbn [exec] in H.
  - rewrite SNDDMA_BeginPainting_eq in H. injection H as H. subst m'.
    destruct (sdlPlaybackStream m) as [h |] eqn:Hh;
      [| apply ring_untouched_refl].
    rewrite <- (set_sdlMasterGain_id m) at 3.
    apply ring_untouched_alter. auto.
  - rewrite SNDDMA_Submit_eq in H. injection H as H. subst m'.
    destruct (sdlPlaybackStream m) as [h |] eqn:Hh;
      [| apply ring_untouched_refl].
    rewrite <- (set_sdlMasterGain_id m) at 3.
    apply ring_untouched_alter. auto.
  - injection H as H. subst m'. apply ring_untouched_refl.
  - rewrite SNDDMA_StartCapture_eq in H. injection H as H. subst m'.
    destruct (sdlCaptureStream m) as [h |] eqn:Hh;
      [| apply ring_untouched_refl].
    rewrite <- (set_sdlMasterGain_id m) at 3.
    apply ring_untouched_alter. auto.
  - rewrite SNDDMA_StopCapture_eq in H. injection H as H. subst m'.
    destruct (sdlCaptureStream m) as [h |] eqn:Hh;
      [| apply ring_untouched_refl].
    rewrite <- (set_sdlMasterGain_id m) at 3.
    apply ring_untouched_alter. auto.
  - unfold bind, ret in H. rewrite SNDDMA_AvailableCaptureSamples_eq in H.
    injection H as H. subst m'. apply ring_untouched_refl.
  - unfold bind, ret in H.
    destruct (SNDDMA_Capture n d m) as [[d' m1] |] eqn:Hcap;
      [| discriminate].
    injection H as H. subst m'.
    exact (SNDDMA_Capture_untouched n d m d' m1 Hcap).
  - rewrite SNDDMA_MasterGain_eq in H. injection H as H. subst m'.
    destruct (sdlPlaybackStream m) as [h |] eqn:Hh.
    + apply ring_untouched_alter. auto.
    + unfold ring_untouched. repeat split; reflexivity.
Qed.

Lemma exec_auxiliary_returns c m :
  auxiliary c = true -> (forall n d, c <> Capture n d) ->
  exists m', exec c m = Some (tt, m').
Proof.
  intros Haux Hcap.
  destruct c as [env | | stream a t | contents | | | | | | | n d | v];
    try discriminate Haux; cbn [exec].
  - rewrite SNDDMA_BeginPainting_eq. eauto.
  - rewrite SNDDMA_Submit_eq. eauto.
  - eexists. reflexivity.
  - rewrite SNDDMA_StartCapture_eq. eauto.
  - rewrite SNDDMA_StopCapture_eq. eauto.
  - unfold bind, ret. rewrite SNDDMA_AvailableCaptureSamples_eq. eauto.
  - destruct (Hcap n d eq_refl).
  - rewrite SNDDMA_MasterGain_eq. eauto.
Qed.

(** X18. The calls that serve painting, capture and the gain
    ([SNDDMA_BeginPainting], [SNDDMA_Submit], [SNDDMA_GetDMAPos],
    [SNDDMA_StartCapture], [SNDDMA_StopCapture],
    [SNDDMA_AvailableCaptureSamples], [SNDDMA_Capture] and
    [SNDDMA_MasterGain]) never touch the ring, the cursor, the size, the
    initialised flag, the stream pointers, the device ids, the cvars or the
    console, and no stream of SDL but the two of the component; all of them
    but [SNDDMA_Capture] return from every state. *)
Theorem auxiliary_calls_keep_ring c m :
  auxiliary c = true ->
  (forall m', exec c m = Some (tt, m') -> ring_untouched m m') /\
  ((forall n d, c <> Capture n d) -> exists m', exec c m = Some (tt, m')).
Proof.
  intros Haux. split.
  - intros m' H. exact (exec_auxiliary_untouched c m Haux tt m' H).
  - intros Hcap. exact (exec_auxiliary_returns c m Haux Hcap).
Qed.

Lemma auxiliary_calls_keep_ring_witness :
  (forall m', exec (MasterGain (1 # 2)) (ring_machine 8 [x01; x02]) = Some (tt, m') ->
              ring_untouched (ring_machine 8 [x01; x02]) m') /\
  ((forall n d, MasterGain (1 # 2) <> Capture n d) ->
   exists m', exec (MasterGain (1 # 2)) (ring_machine 8 [x01; x02]) = Some (tt, m')).
Proof.
  apply (auxiliary_calls_keep_ring (MasterGain (1 # 2))
           (ring_machine 8 [x01; x02])).
  reflexivity.
Defined.

Lemma ring_untouched_wf m m' : ring_untouched m m' -> snd_wf m -> snd_wf m'.
Proof.
  intros (_ & Hpos & Hsize & Hdma & _) Hwf. unfold snd_wf, bytesPerSample in *.
  rewrite Hpos, Hsize, Hdma. exact Hwf.
Qed.

Lemma exec_wf c m :
  call_ok c = true -> snd_wf m -> wp (exec c) m (fun _ m' => snd_wf m').
Proof.
  intros Hok Hwf. destruct (auxiliary c) eqn:Haux.
  - intros r m' H. destruct r.
    exact (ring_untouched_wf m m'
             (exec_auxiliary_untouched c m Haux tt m' H) Hwf).
  - destruct c as [env | | stream a t | contents | | | | | | | n d | v];
      try discriminate Haux; cbn [exec].
    + apply wp_bind. intros r m' H. apply wp_ret.
      exact (SNDDMA_Init_wf env m Hwf r m' H).
    + apply SNDDMA_Shutdown_wf.
    + intros r m' H. cbn [call_ok] in Hok.
      apply andb_true_iff in Hok as [Hok Ht2].
      apply andb_true_iff in Hok as [Hok Ht1].
      apply andb_true_iff in Hok as [Ha1 Ha2].
      destruct (SNDDMA_AudioCallback_wf stream a t m Hwf) as (m1 & Hcb & Hwf1).
      * unfold Int32.in_range. lia.
      * unfold Int32.in_range. lia.
      * congruence.
    + apply paint_wf, Hwf.
Qed.

Lemma exec_all_wf cs m :
  forallb call_ok cs = true -> snd_wf m ->
  wp (exec_all cs) m (fun _ m' => snd_wf m').
Proof.
  revert m. induction cs as [| c cs IH]; intros m Hok Hwf.
  - apply wp_ret, Hwf.
  - cbn [forallb] in Hok. apply andb_true_iff in Hok as [Hc Hcs].
    cbn [exec_all]. apply wp_bind. intros r m1 H1.
    apply IH; [exact Hcs |]. exact (exec_wf c m Hc Hwf r m1 H1).
Qed.

Lemma boot_wf : snd_wf boot.
Proof.
  unfold snd_wf. cbn. split; [| split; [lia | discriminate]].
  unfold Int32.in_range, Int32.INT_MIN, Int32.INT_MAX. lia.
Defined.

(** X19. The well-formedness of the component (the size is that of
    the allocation behind the ring, the cursor lies inside it) is an
    invariant of the whole interface: whatever calls have been made, in
    whatever order, from a state where it holds (the start of the program
    is one), it holds, and the callback then returns for every request
    and keeps it. *)
Theorem api_keeps_wf cs m m' :
  forallb call_ok cs = true -> snd_wf m ->
  exec_all cs m = Some (tt, m') ->
  snd_wf m' /\
  forall stream a t, Int32.in_range a -> Int32.in_range t ->
    exists m'', SNDDMA_AudioCallback stream a t m' = Some (tt, m'') /\
                snd_wf m''.
Proof.
  intros Hok Hwf Hrun.
  pose proof (exec_all_wf cs m Hok Hwf tt m' Hrun) as Hwf'.
  split; [exact Hwf' |]. intros stream a t Ha Ht.
  exact (SNDDMA_AudioCallback_wf stream a t m' Hwf' Ha Ht).
Qed.

Lemma api_keeps_wf_witness :
  snd_wf (after_calls session boot) /\
  forall stream a t, Int32.in_range a -> Int32.in_range t ->
    exists m'', SNDDMA_AudioCallback stream a t (after_calls session boot)
                = Some (tt, m'') /\ snd_wf m''.
Proof.
  apply (api_keeps_wf session boot (after_calls session boot)).
  - reflexivity.
  - exact boot_wf.
  - vm_compute. reflexivity.
Defined.

(** * The shader stringifier *)

Section Stringifier.

Import Stdlib.Strings.Ascii.
Import Stringify.
#[local] Open Scope nat_scope.

(** ** Unfolding of the loops *)

Lemma copy_lines_step input :
  copy_lines input
  = match fgets 1024 input with
    | Some (buffer, rest) => quote_line buffer ++ copy_lines rest
    | None => []
    end.
Proof.
  rewrite copy_lines_equation_1.
  destruct (inspect (fgets 1024 input)) as [[[buffer rest] |] e].
  - rewrite copy_lines_clause_1_equation_1, e. reflexivity.
  - rewrite copy_lines_clause_1_equation_2, e. reflexivity.
Qed.

Lemma buffers_step input :
  buffers input
  = match fgets 1024 input with
    | Some (buffer, rest) => buffer :: buffers rest
    | None => []
    end.
Proof.
  rewrite buffers_equation_1.
  destruct (inspect (fgets 1024 input)) as [[[buffer rest] |] e].
  - rewrite buffers_clause_1_equation_1, e. reflexivity.
  - rewrite buffers_clause_1_equation_2, e. reflexivity.
Qed.

Lemma fgets_Some size input buffer rest :
  fgets size input = Some (buffer, rest) ->
  input <> [] /\ fgets_chars (size - 1) input = (buffer, rest).
Proof.
  unfold fgets. destruct input as [| c input']; [discriminate |].
  intros [= Hget]. split; [discriminate | exact Hget].
Qed.

(** Induction along the loop. *)
Lemma loop_ind (P : list ascii -> Prop) :
  P [] ->
  (forall input buffer rest,
     fgets 1024 input = Some (buffer, rest) -> P rest -> P input) ->
  forall input, P input.
Proof.
  intros Hnil Hstep input.
  remember (length input) as n eqn:Hn. revert input Hn.
  induction n as [n IH] using lt_wf_ind. intros input Hn.
  destruct (fgets 1024 input) as [[buffer rest] |] eqn:Hget.
  - apply (Hstep input buffer rest Hget).
    apply (IH (length rest)); [| reflexivity].
    subst n. eapply fgets_decreases; [exact Hget | lia].
  - unfold fgets in Hget. destruct input; [exact Hnil | discriminate].
Qed.

(** ** path_basename *)

Lemma path_basename_loop_inv p dir bsuf :
  Forall (fun c => is_sep c = false) bsuf ->
  (dir = [] \/ exists d c, dir = d ++ [c] /\ is_sep c = true) ->
  exists dir',
    dir ++ bsuf ++ p = dir' ++ path_basename_loop (bsuf ++ p) p /\
    (dir' = [] \/ exists d c, dir' = d ++ [c] /\ is_sep c = true) /\
    Forall (fun c => is_sep c = false) (path_basename_loop (bsuf ++ p) p).
Proof.
  revert dir bsuf. induction p as [| c p IH]; intros dir bsuf Hb Hd.
  - exists dir. cbn [path_basename_loop]. rewrite app_nil_r. auto.
  - cbn [path_basename_loop]. destruct (is_sep c) eqn:Hc.
    + destruct (IH (dir ++ bsuf ++ [c]) [] (Forall_nil_2 _)) as (dir' & H1 & H2 & H3).
      { right. exists (dir ++ bsuf), c. rewrite <- app_assoc. auto. }
      exists dir'. cbn [app] in H1, H3. split; [| auto].
      rewrite <- H1. rewrite <- !app_assoc. reflexivity.
    + destruct (IH dir (bsuf ++ [c])) as (dir' & H1 & H2 & H3).
      { apply Forall_app. split; [exact Hb |]. constructor; [exact Hc | constructor]. }
      { exact Hd. }
      rewrite <- app_assoc in H1, H3. cbn [app] in H1, H3.
      exists dir'. auto.
Qed.

Lemma path_basename_loop_plain base p :
  Forall (fun c => is_sep c = false) p -> path_basename_loop base p = base.
Proof.
  revert base. induction p as [| c p IH]; intros base Hp; [reflexivity |].
  inversion Hp as [| ? ? Hc Hp']; subst. cbn [path_basename_loop].
  rewrite Hc. apply IH, Hp'.
Qed.

Lemma path_basename_loop_sep base dir c name :
  is_sep c = true ->
  path_basename_loop base (dir ++ c :: name) = path_basename_loop name name.
Proof.
  intros Hc. revert base. induction dir as [| x dir IH]; intros base.
  - cbn [app path_basename_loop]. rewrite Hc. reflexivity.
  - cbn [app path_basename_loop]. apply IH.
Qed.

(** X20. [path_basename] returns the last component of a path: a
    suffix of the path that holds no separator and that starts right
    after a separator or at the start of the path; so the directories
    before the last [/] or [\] are dropped whatever they are, and a path
    that ends in a separator has an empty base name. *)
Theorem basename_is_last_component path :
  (exists dir,
     path = dir ++ path_basename path /\
     (dir = [] \/ exists d c, dir = d ++ [c] /\ is_sep c = true)) /\
  Forall (fun c => is_sep c = false) (path_basename path) /\
  (forall dir c name,
     path = dir ++ c :: name -> is_sep c = true ->
     Forall (fun c => is_sep c = false) name -> path_basename path = name).
Proof.
  destruct (path_basename_loop_inv path [] [] (Forall_nil_2 _) (or_introl eq_refl))
    as (dir & H1 & H2 & H3).
  cbn [app] in H1, H3. fold (path_basename path) in H1, H3.
  split; [exists dir; auto |]. split; [exact H3 |].
  intros dir' c name -> Hc Hname. unfold path_basename.
  rewrite path_basename_loop_sep by exact Hc.
  apply path_basename_loop_plain, Hname.
Qed.

(** ** The buffers of the loop *)

Lemma fgets_chars_length n input : length (fgets_chars n input).1 <= n.
Proof.
  revert input. induction n as [| n IH]; intros [| c rest]; cbn; try lia.
  destruct (Ascii.eqb c newline); cbn; [lia |].
  specialize (IH rest). lia.
Qed.

Lemma fgets_chars_newline n input i :
  (fgets_chars n input).1 !! i = Some newline ->
  S i = length (fgets_chars n input).1.
Proof.
  revert input i. induction n as [| n IH]; intros [| c rest] i; cbn;
    try discriminate.
  destruct (Ascii.eqb c newline) eqn:Hc.
  - destruct i as [| i]; cbn; [reflexivity | discriminate].
  - cbn. destruct i as [| i]; cbn.
    + intros [= ->]. rewrite Ascii.eqb_refl in Hc. discriminate.
    + intros Hi. f_equal. apply IH, Hi.
Qed.

Lemma fgets_chars_plain n l rest :
  length l < n -> newline ∉ l ->
  fgets_chars n (l ++ newline :: rest) = (l ++ [newline], rest).
Proof.
  revert l. induction n as [| n IH]; intros l Hlen Hnl; [lia |].
  destruct l as [| c l]; cbn [app fgets_chars].
  - rewrite Ascii.eqb_refl. reflexivity.
  - destruct (Ascii.eqb c newline) eqn:Hc.
    + apply Ascii.eqb_eq in Hc. subst c. destruct Hnl. left.
    + rewrite IH; [reflexivity | cbn in Hlen; lia |].
      intros Hin. apply Hnl. right. exact Hin.
Qed.

Lemma fgets_chars_full n a b :
  length a = n -> newline ∉ a -> fgets_chars n (a ++ b) = (a, b).
Proof.
  revert a. induction n as [| n IH]; intros a Hlen Hnl.
  - destruct a; [| discriminate]. destruct b; reflexivity.
  - destruct a as [| c a]; [discriminate |]. cbn [app fgets_chars].
    destruct (Ascii.eqb c newline) eqn:Hc.
    + apply Ascii.eqb_eq in Hc. subst c. destruct Hnl. left.
    + rewrite IH; [reflexivity | cbn in Hlen; lia |].
      intros Hin. apply Hnl. right. exact Hin.
Qed.

(** X21. The loop reads the file in pieces that, put end to end, are
    the file: every piece is non-empty, holds at most 1023 characters, and
    has no newline except as its last character; what the loop writes is
    one quoted line per piece. A line of more than 1023 characters is
    therefore cut, and each of its pieces becomes a string literal of its
    own. *)
Theorem buffers_partition input :
  concat (buffers input) = input /\
  Forall (fun b => b <> [] /\ length b <= 1023 /\
                   forall i, b !! i = Some newline -> S i = length b)
    (buffers input) /\
  copy_lines input = concat (quote_line <$> buffers input) /\
  (forall a b, input = a ++ b -> length a = 1023 -> newline ∉ a ->
               buffers input = a :: buffers b).
Proof.
  split; [| split; [| split]].
  - induction input as [| input buffer rest Hget IH] using loop_ind.
    + rewrite buffers_step. reflexivity.
    + rewrite buffers_step, Hget. cbn [concat]. rewrite IH.
      apply fgets_Some in Hget as [_ Hget].
      pose proof (fgets_chars_app (1024 - 1) input) as Happ.
      rewrite Hget in Happ. exact Happ.
  - induction input as [| input buffer rest Hget IH] using loop_ind.
    + rewrite buffers_step. constructor.
    + rewrite buffers_step, Hget. constructor; [| exact IH].
      pose proof (fgets_decreases 1024 input buffer rest Hget ltac:(lia))
        as Hdec.
      apply fgets_Some in Hget as [_ Hget].
      pose proof (fgets_chars_length (1024 - 1) input) as Hlen.
      pose proof (fgets_chars_newline (1024 - 1) input) as Hnl.
      pose proof (fgets_chars_app (1024 - 1) input) as Happ.
      rewrite Hget in Hlen, Hnl, Happ. cbn [fst snd] in Hlen, Hnl, Happ.
      split; [| split; [lia | exact Hnl]].
      intros ->. cbn [app] in Happ. subst rest. lia.
  - induction input as [| input buffer rest Hget IH] using loop_ind.
    + rewrite copy_lines_step, buffers_step. reflexivity.
    + rewrite copy_lines_step, buffers_step, Hget, IH. reflexivity.
  - intros a b -> Hlen Hnl. rewrite buffers_step. unfold fgets.
    destruct a as [| c a]; [discriminate |]. cbn [app].
    change (c :: a ++ b) with ((c :: a) ++ b).
    rewrite fgets_chars_full by (cbn [length] in *; first [lia | assumption]).
    reflexivity.
Qed.

(** ** The text of a line *)

Lemma strlen_le buffer : strlen buffer <= length buffer.
Proof.
  induction buffer as [| c rest IH]; cbn; [lia |].
  destruct (Ascii.eqb c NUL); lia.
Qed.

Lemma take_strlen_NUL buffer : NUL ∉ take (strlen buffer) buffer.
Proof.
  induction buffer as [| c rest IH]; cbn [strlen].
  - cbn. apply not_elem_of_nil.
  - destruct (Ascii.eqb c NUL) eqn:Hc; cbn [take].
    + apply not_elem_of_nil.
    + apply not_elem_of_cons. split; [| exact IH].
      intros <-. rewrite Ascii.eqb_refl in Hc. discriminate.
Qed.

Lemma strlen_plain l :
  forallb (fun c => negb (Ascii.eqb c NUL)) l = true -> strlen l = length l.
Proof.
  induction l as [| c l IH]; [reflexivity |]. cbn [forallb strlen length].
  intros H. apply andb_true_iff in H as [Hc Hl].
  apply negb_true_iff in Hc. rewrite Hc. f_equal. apply IH, Hl.
Qed.

Lemma strip_end_le buffer n : strip_end buffer n <= n.
Proof.
  induction n as [| e IH]; cbn [strip_end]; [lia |].
  destruct (buffer !! e) as [c |]; [| lia].
  destruct (isspace c); lia.
Qed.

Lemma strip_end_spec buffer n :
  n <= length buffer ->
  exists ws,
    take n buffer = take (strip_end buffer n) buffer ++ ws /\
    Forall (fun c => isspace c = true) ws /\
    forall c, last (take (strip_end buffer n) buffer) = Some c ->
              isspace c = false.
Proof.
  induction n as [| e IH]; intros Hn.
  - exists []. cbn [strip_end take]. repeat split; [constructor |].
    intros c. discriminate.
  - destruct (lookup_lt_is_Some_2 buffer e ltac:(lia)) as [c Hc].
    cbn [strip_end]. rewrite Hc.
    rewrite (take_S_r buffer e c Hc).
    destruct (isspace c) eqn:Hsp.
    + destruct (IH ltac:(lia)) as (ws & Heq & Hws & Hlast).
      exists (ws ++ [c]). rewrite Heq at 1. rewrite <- app_assoc.
      split; [reflexivity |]. split; [| exact Hlast].
      apply Forall_app. split; [exact Hws |]. constructor; [exact Hsp | constructor].
    + exists []. rewrite (take_S_r buffer e c Hc), app_nil_r.
      split; [reflexivity |]. split; [constructor |].
      intros c'. rewrite last_snoc. intros [= <-]. exact Hsp.
Qed.

(** X22. The text written for a buffer is the string in the buffer,
    which ends before the first NUL, without its trailing white space:
    what is removed is white space only, what is left does not end in
    white space, and nothing is removed anywhere else. *)
Theorem line_text_spec buffer :
  exists ws,
    take (strlen buffer) buffer = line_text buffer ++ ws /\
    Forall (fun c => isspace c = true) ws /\
    (forall c, last (line_text buffer) = Some c -> isspace c = false) /\
    NUL ∉ line_text buffer.
Proof.
  destruct (strip_end_spec buffer (strlen buffer) (strlen_le buffer))
    as (ws & Heq & Hws & Hlast).
  exists ws. unfold line_text. repeat split; try assumption.
  intros Hin. apply (take_strlen_NUL buffer). rewrite Heq.
  apply elem_of_app. left. exact Hin.
Qed.

Lemma rstrip_snoc l c :
  rstrip (l ++ [c]) = if isspace c then rstrip l else l ++ [c].
Proof.
  induction l as [| a l IH].
  - cbn. destruct (isspace c); reflexivity.
  - change (rstrip ((a :: l) ++ [c]))
      with (if isspace a && bool_decide (rstrip (l ++ [c]) = [])
            then [] else a :: rstrip (l ++ [c])).
    rewrite IH. destruct (isspace c); [reflexivity |].
    rewrite bool_decide_eq_false_2 by (destruct l; discriminate).
    rewrite andb_false_r. reflexivity.
Qed.

Lemma strip_end_rstrip buffer n :
  n <= length buffer ->
  take (strip_end buffer n) buffer = rstrip (take n buffer).
Proof.
  induction n as [| e IH]; intros Hn; [reflexivity |].
  destruct (lookup_lt_is_Some_2 buffer e ltac:(lia)) as [c Hc].
  cbn [strip_end]. rewrite Hc, (take_S_r buffer e c Hc), rstrip_snoc.
  destruct (isspace c); [apply IH; lia |].
  apply take_S_r, Hc.
Qed.

Lemma short_line_inv l :
  short_line l = true ->
  length l < 1023 /\ (newline ∉ l) /\
  forallb (fun c => negb (Ascii.eqb c NUL)) l = true.
Proof.
  unfold short_line. intros H. apply andb_true_iff in H as [Hlen Hall].
  apply Nat.ltb_lt in Hlen. split; [exact Hlen |].
  induction l as [| c l IH]; [split; [apply not_elem_of_nil | reflexivity] |].
  cbn [forallb] in Hall. apply andb_true_iff in Hall as [Hc Hl].
  apply andb_true_iff in Hc as [Hnl Hnul].
  cbn [length] in Hlen. destruct (IH ltac:(lia) Hl) as [IH1 IH2].
  split.
  - apply not_elem_of_cons. split; [| exact IH1].
    intros Heq. rewrite <- Heq, Ascii.eqb_refl in Hnl. discriminate.
  - cbn [forallb]. rewrite Hnul, IH2. reflexivity.
Qed.

Lemma line_text_line l :
  forallb (fun c => negb (Ascii.eqb c NUL)) l = true ->
  line_text (l ++ [newline]) = rstrip l.
Proof.
  intros Hnul. unfold line_text.
  rewrite strlen_plain
    by (rewrite forallb_app, Hnul; reflexivity).
  rewrite strip_end_rstrip by lia.
  rewrite firstn_all, rstrip_snoc. reflexivity.
Qed.

Lemma fgets_line l rest :
  length l < 1023 -> newline ∉ l ->
  fgets 1024 (l ++ newline :: rest) = Some (l ++ [newline], rest).
Proof.
  intros Hlen Hnl. unfold fgets.
  destruct (l ++ newline :: rest) as [| c input'] eqn:E;
    [destruct l; discriminate |].
  rewrite <- E. f_equal. apply fgets_chars_plain; [lia | exact Hnl].
Qed.

Lemma copy_lines_unlines lines :
  forallb short_line lines = true ->
  copy_lines (unlines lines) = concat ((fun l => literal (rstrip l)) <$> lines).
Proof.
  induction lines as [| l lines IH]; intros Hall.
  - rewrite copy_lines_step. reflexivity.
  - cbn [forallb] in Hall. apply andb_true_iff in Hall as [Hl Hall].
    destruct (short_line_inv l Hl) as (Hlen & Hnl & Hnul).
    unfold unlines. cbn [fmap list_fmap concat].
    rewrite <- app_assoc. cbn [app].
    rewrite copy_lines_step, fgets_line by assumption.
    fold (unlines lines). rewrite (IH Hall).
    unfold quote_line. rewrite line_text_line by exact Hnul. reflexivity.
Qed.

(** X23. On a text whose lines are shorter than the buffer and hold
    no NUL, the tool writes the header, then one string literal per line,
    in order, and then the closing semicolon. A literal is the line
    without its trailing white space, between double quotes, followed by
    the two characters backslash and n; the characters of the line are
    copied as they are, quotes and backslashes included. Arguments after
    the second are ignored. *)
Theorem short_lines_verbatim argv env inFile outFile lines :
  argv !! 1 = Some inFile -> argv !! 2 = Some outFile ->
  env_fopen_r env inFile = Some (unlines lines) ->
  env_fopen_w env outFile = true ->
  forallb short_line lines = true ->
  main argv env
  = (0%Z, Some (header (symbol_name inFile)
                ++ concat ((fun l => literal (rstrip l)) <$> lines)
                ++ trailer)).
Proof.
  intros Hin Hout Hread Hwrite Hlines. unfold main.
  pose proof (lookup_lt_Some _ _ _ Hout) as Hargc.
  replace (Z.of_nat (length argv) <? 3)%Z with false by lia.
  rewrite Hin, Hout, Hread, Hwrite. cbn [negb].
  rewrite copy_lines_unlines by exact Hlines. reflexivity.
Qed.

Lemma short_lines_verbatim_witness :
  main sample_argv sample_env
  = (0%Z, Some (header (symbol_name
                          (String.list_ascii_of_string "glsl/generic_vp.glsl"))
                ++ concat ((fun l => literal (rstrip l)) <$> sample_lines)
                ++ trailer)).
Proof.
  apply (short_lines_verbatim sample_argv sample_env
           (String.list_ascii_of_string "glsl/generic_vp.glsl")
           (String.list_ascii_of_string "generic_vp.c") sample_lines).
  - reflexivity.
  - reflexivity.
  - reflexivity.
  - reflexivity.
  - vm_compute. reflexivity.
Defined.

(** ** The name of the constant *)

Lemma strrchr_None s c :
  Forall (fun x => Ascii.eqb x c = false) s -> strrchr s c = None.
Proof.
  induction 1 as [| x s Hx Hs IH]; [reflexivity |].
  cbn [strrchr]. rewrite IH, Hx. reflexivity.
Qed.

Lemma strrchr_last stem ext c :
  Forall (fun x => Ascii.eqb x c = false) ext ->
  strrchr (stem ++ c :: ext) c = Some (length stem).
Proof.
  intros Hext. induction stem as [| x stem IH].
  - cbn [app strrchr length]. rewrite (strrchr_None ext c Hext).
    rewrite Ascii.eqb_refl. reflexivity.
  - cbn [app strrchr length]. rewrite IH. reflexivity.
Qed.

(** X24. The constant is named after the input file: the directories
    of the path and the extension, from the last dot on, are dropped, and
    dots before the last one are kept. (The base name is at most 1023
    characters long.) *)
Theorem symbol_name_spec stem ext :
  Forall (fun c => is_sep c = false) stem ->
  Forall (fun c => is_sep c = false) ext ->
  Forall (fun c => Ascii.eqb c dot = false) ext ->
  length stem + S (length ext) <= 1023 ->
  symbol_name (stem ++ dot :: ext) = stem /\
  forall dir c, is_sep c = true ->
                symbol_name (dir ++ c :: stem ++ dot :: ext) = stem.
Proof.
  intros Hstem Hext Hdot Hlen.
  assert (Hname : Forall (fun c => is_sep c = false) (stem ++ dot :: ext)).
  { apply Forall_app. split; [exact Hstem |].
    constructor; [reflexivity | exact Hext]. }
  assert (Hcut : forall base, base = stem ++ dot :: ext ->
            match strrchr (take 1023 base) dot with
            | Some i => take i (take 1023 base)
            | None => take 1023 base
            end = stem).
  { intros base ->.
    rewrite take_ge by (rewrite length_app; cbn [length]; lia).
    rewrite (strrchr_last stem ext dot Hdot). apply take_app_length. }
  split.
  - unfold symbol_name, path_basename.
    rewrite path_basename_loop_plain by exact Hname. apply Hcut. reflexivity.
  - intros dir c Hc. unfold symbol_name, path_basename.
    rewrite path_basename_loop_sep by exact Hc.
    rewrite path_basename_loop_plain by exact Hname. apply Hcut. reflexivity.
Qed.

Lemma symbol_name_spec_witness :
  symbol_name (String.list_ascii_of_string "a.b" ++ dot
               :: String.list_ascii_of_string "glsl")
  = String.list_ascii_of_string "a.b" /\
  forall dir c, is_sep c = true ->
    symbol_name (dir ++ c :: String.list_ascii_of_string "a.b" ++ dot
                 :: String.list_ascii_of_string "glsl")
    = String.list_ascii_of_string "a.b".
Proof.
  apply (symbol_name_spec (String.list_ascii_of_string "a.b")
           (String.list_ascii_of_string "glsl")).
  - repeat constructor.
  - repeat constructor.
  - repeat constructor.
  - vm_compute. lia.
Defined.

(** ** The exit code *)

(** X25. The exit code of the tool tells which step failed, and the
    output file is written exactly when the code is 0: 1 for fewer than
    two arguments, 2 when the input cannot be opened (whether or not the
    output can), 3 when the input opens and the output does not. Neither
    the name of the program nor any argument after the second matters. *)
Theorem main_exit_code argv env :
  let code := (main argv env).1 in
  let out := (main argv env).2 in
  (0 <= code <= 3)%Z /\
  (code = 0%Z <-> is_Some out) /\
  (code = 1%Z <-> length argv < 3) /\
  (forall inFile, argv !! 1 = Some inFile -> 3 <= length argv ->
     (code = 2%Z <-> env_fopen_r env inFile = None)) /\
  (forall inFile outFile, argv !! 1 = Some inFile -> argv !! 2 = Some outFile ->
     (code = 3%Z <->
      is_Some (env_fopen_r env inFile) /\ env_fopen_w env outFile = false)) /\
  (forall prog prog' inFile outFile extra,
     argv = prog :: inFile :: outFile :: extra ->
     main argv env = main [prog'; inFile; outFile] env).
Proof.
  cbv zeta. unfold main.
  destruct (Z.of_nat (length argv) <? 3)%Z eqn:Hargc.
  - pose proof (proj1 (Z.ltb_lt _ _) Hargc) as Hargc'.
    cbn [fst snd]. split; [lia |]. split.
    { split; [discriminate | intros [? [=]]]. }
    split; [split; [lia | reflexivity] |].
    split; [intros; split; [discriminate | lia] |].
    split.
    { intros inFile outFile _ Hout. apply lookup_lt_Some in Hout. lia. }
    intros prog prog' inFile outFile extra ->.
    apply Z.ltb_lt in Hargc. cbn [length] in Hargc. lia.
  - assert (Hlen : 3 <= length argv) by (apply Z.ltb_ge in Hargc; lia).
    destruct argv as [| prog [| inFile [| outFile extra]]];
      try (cbn [length] in Hlen; lia).
    cbn [lookup list_lookup].
    destruct (env_fopen_r env inFile) as [input |] eqn:Hr.
    + destruct (env_fopen_w env outFile) eqn:Hw; cbn [negb fst snd].
      * split; [lia |]. split; [split; [eauto | reflexivity] |].
        split; [split; [discriminate | cbn [length]; lia] |].
        split.
        { intros f Hf _. injection Hf as <-. rewrite Hr.
          split; discriminate. }
        split.
        { intros f o Hf Ho. injection Hf as <-. injection Ho as <-. rewrite Hr, Hw.
          split; [discriminate | intros [_ [=]]]. }
        intros p p' f o e Heq. injection Heq as <- <- <- <-.
        cbn. rewrite Hr, Hw. reflexivity.
      * split; [lia |].
        split; [split; [discriminate | intros [? [=]]] |].
        split; [split; [discriminate | cbn [length]; lia] |].
        split.
        { intros f Hf _. injection Hf as <-. rewrite Hr.
          split; discriminate. }
        split.
        { intros f o Hf Ho. injection Hf as <-. injection Ho as <-. rewrite Hr, Hw.
          split; [eauto | reflexivity]. }
        intros p p' f o e Heq. injection Heq as <- <- <- <-.
        cbn. rewrite Hr, Hw. reflexivity.
    + cbn [fst snd]. split; [lia |].
      split; [split; [discriminate | intros [? [=]]] |].
      split; [split; [discriminate | cbn [length]; lia] |].
      split.
      { intros f Hf _. injection Hf as <-. rewrite Hr.
        split; reflexivity. }
      split.
      { intros f o Hf Ho. injection Hf as <-. injection Ho as <-. rewrite Hr.
        split; [discriminate | intros [[? [=]] _]]. }
      intros p p' f o e Heq. injection Heq as <- <- <- <-.
      cbn. rewrite Hr. reflexivity.
Qed.

End Stringifier.
